(** * Agentic patterns: chat histories, tag extraction, reflection and tool loops

    A shallow embedding of the Python package [agentic_patterns]
    (utils/completions.py, utils/extraction.py, tool_pattern/tool.py,
    tool_pattern/tool_agent.py, reflection_pattern/reflection_agent.py)
    and the properties of its specification.

    Python objects that are mutated in place (the chat histories, the
    argument dictionary of a tool call) are modelled by explicit state
    passing: a method takes the object and returns its outcome together
    with the object as the call leaves it, also when the call raises. *)

From Stdlib Require Import ZArith QArith List String Ascii Bool Lia Arith.
From Stdlib Require DecimalString.
Import ListNotations.

#[local] Open Scope string_scope.
#[local] Open Scope list_scope.
#[local] Open Scope Z_scope.

(* ================================================================== *)
(** * Part I: definitions *)
(* ================================================================== *)

(** ** Exceptions and outcomes *)

(** The Python exceptions the modelled code can raise. *)
Inductive Exn : Type :=
| IndexError
| KeyError
| TypeError
| ValueError
| AttributeError
| OverflowError
| UnboundLocalError
| JSONDecodeError.

(** The outcome of a call: a returned value or a raised exception. *)
Inductive result (A : Type) : Type :=
| Ok (a : A)
| Raise (e : Exn).

Arguments Ok {A} a.
Arguments Raise {A} e.

Definition is_ok {A : Type} (r : result A) : bool :=
  match r with Ok _ => true | Raise _ => false end.

(** A method of a mutable object of state [S]: the outcome and the object
    after the call. *)
Definition Method (S A : Type) : Type := S -> result A * S.

Definition ret {S A : Type} (a : A) : Method S A := fun s => (Ok a, s).

Definition raise {S A : Type} (e : Exn) : Method S A := fun s => (Raise e, s).

Definition bind {S A B : Type} (m : Method S A) (k : A -> Method S B)
  : Method S B :=
  fun s => match m s with
           | (Ok a, s') => k a s'
           | (Raise e, s') => (Raise e, s')
           end.

Declare Scope method_scope.
Delimit Scope method_scope with method.

Notation "x <- m ;; k" := (bind m (fun x => k))
  (at level 100, m at next level, right associativity) : method_scope.
Notation "m ;;; k" := (bind m (fun _ => k))
  (at level 100, right associativity) : method_scope.

(** ** Python lists *)

(** [len(l)] as a Python integer. *)
Definition len {A : Type} (l : list A) : Z := Z.of_nat (List.length l).

(** [l.pop(i)]: a negative index counts from the end; an index out of
    range raises [IndexError] and leaves the list as it is. *)
Definition list_pop {A : Type} (i : Z) : Method (list A) A :=
  fun l =>
    let j := if i <? 0 then i + len l else i in
    if (j <? 0) || (len l <=? j) then (Raise IndexError, l)
    else match nth_error l (Z.to_nat j) with
         | Some x => (Ok x, firstn (Z.to_nat j) l ++ skipn (S (Z.to_nat j)) l)
         | None => (Raise IndexError, l)
         end.

(** [list.append(l, x)]. *)
Definition list_append {A : Type} (x : A) : Method (list A) unit :=
  fun l => (Ok tt, l ++ [x]).

(** ** utils/completions.py *)

(** A chat message: the dict [{"role": role, "content": content}]. *)
Record Message : Type := mkMessage {
  role : string;
  content : string
}.

(** [build_prompt_structure(prompt, role, tag="")]. *)
Definition build_prompt_structure (prompt role tag : string) : Message :=
  let prompt := if String.eqb tag "" then prompt
                else ("<" ++ tag ++ ">" ++ prompt ++ "</" ++ tag ++ ">")%string in
  mkMessage role prompt.

(** [class ChatHistory(list)]: the list itself and the attribute
    [total_length].  [FixedFirstChatHistory] adds no attribute, so both
    classes share this record and differ in their [append]. *)
Record ChatHistory : Type := mkChatHistory {
  items : list Message;
  total_length : Z
}.

(** [ChatHistory.__init__(messages=None, total_length=-1)]. *)
Definition ChatHistory_init (messages : option (list Message))
    (total_length : Z) : ChatHistory :=
  let messages := match messages with None => [] | Some l => l end in
  mkChatHistory messages total_length.

(** A list method run on the list part of a history. *)
Definition on_items {A : Type} (m : Method (list Message) A)
  : Method ChatHistory A :=
  fun h => let (r, l) := m (items h) in (r, mkChatHistory l (total_length h)).

(** [ChatHistory.append(self, msg)]. *)
Definition ChatHistory_append (msg : Message) : Method ChatHistory unit :=
  fun self =>
    (if len (items self) =? total_length self
     then (on_items (list_pop 0) ;;; on_items (list_append msg))
     else on_items (list_append msg))%method self.

(** [FixedFirstChatHistory.append(self, msg)]. *)
Definition FixedFirstChatHistory_append (msg : Message)
  : Method ChatHistory unit :=
  fun self =>
    (if len (items self) =? total_length self
     then (on_items (list_pop 1) ;;; on_items (list_append msg))
     else on_items (list_append msg))%method self.

(** Appends made one after the other; the first one that raises ends the
    sequence, as an uncaught exception does. *)
Fixpoint appends (append : Message -> Method ChatHistory unit)
    (msgs : list Message) : Method ChatHistory unit :=
  match msgs with
  | [] => ret tt
  | m :: rest => (append m ;;; appends append rest)%method
  end.

(** The last [n] elements of a list. *)
Definition lastn {A : Type} (n : nat) (l : list A) : list A :=
  skipn (List.length l - n) l.

(** What the plain container is said to do with a run of appends: every
    append returns, the history never holds more than [N] messages, and
    it ends holding exactly the last [N] messages appended. *)
Definition retains_most_recent (N : Z) (init msgs : list Message) : Prop :=
  exists h',
    appends ChatHistory_append msgs (ChatHistory_init (Some init) N)
      = (Ok tt, h')
    /\ len (items h') <= N
    /\ items h' = lastn (Z.to_nat N) msgs.

(** ** Strings *)

(** [sub in s]: [sub] occurs in [s] as a substring. *)
Fixpoint contains (sub s : string) : bool :=
  String.prefix sub s
  || match s with
     | EmptyString => false
     | String _ s' => contains sub s'
     end.

(** ** The chat-completion service *)

(** The Groq client is outside the package.  It is taken as a state
    machine: a request made of the messages and the model name yields the
    text of the first choice and the client as the request leaves it. *)
Class Groq : Type := {
  Client : Type;
  chat_completions_create : Client -> list Message -> string -> string * Client
}.

(** One request as [_request_completion] knows it: its log title, the
    messages sent and the text received. *)
Record Request : Type := mkRequest {
  log_title : string;
  sent : list Message;
  received : string
}.

Section Reflection.

Context {groq : Groq}.

(** [completions_create(client, messages, model)]. *)
Definition completions_create (messages : list Message) (model : string)
  : Method Client string :=
  fun client =>
    let (output, client') := chat_completions_create client messages model in
    (Ok output, client').

(** [update_chat_history(history, msg, role)]; [append] is the bound
    method [history.append] of the history passed. *)
Definition update_chat_history (append : Message -> Method ChatHistory unit)
    (msg role : string) : Method ChatHistory unit :=
  append (build_prompt_structure msg role "").

(** ** reflection_pattern/reflection_agent.py *)

Definition BASE_GENERATION_SYSTEM_PROMPT : string :=
"
Your task is to Generate the best content possible for the user's request.
If the user provides critique, respond with a revised version of your previous attempt.
You must always output the revised content.
".

Definition BASE_REFLECTION_SYSTEM_PROMPT : string :=
"
You are tasked with generating critique and recommendations to the user's generated content.
If the user content has something wrong or something to be improved, output a list of recommendations
and critiques. If the user content is ok and there's nothing to change, output this: <OK>
".

(** What [ReflectionAgent.run] works on: the agent's client, the
    requests made so far (kept for the statements; the source prints
    title and text of each one when [verbose > 0]), and the local
    variables of [run].  [generation] is unbound until the loop body has
    assigned it. *)
Record Frame : Type := mkFrame {
  client : Client;
  requests : list Request;
  generation_history : ChatHistory;
  reflection_history : ChatHistory;
  generation : option string
}.

Definition on_generation_history {A : Type} (m : Method ChatHistory A)
  : Method Frame A :=
  fun f =>
    let (r, h) := m (generation_history f) in
    (r, mkFrame (client f) (requests f) h (reflection_history f)
          (generation f)).

Definition on_reflection_history {A : Type} (m : Method ChatHistory A)
  : Method Frame A :=
  fun f =>
    let (r, h) := m (reflection_history f) in
    (r, mkFrame (client f) (requests f) (generation_history f) h
          (generation f)).

(** [self._request_completion(history, verbose, log_title, log_color)]:
    the history is read off the frame by [history]. *)
Definition _request_completion (model : string)
    (history : Frame -> ChatHistory) (title : string) : Method Frame string :=
  fun f =>
    let messages := items (history f) in
    match completions_create messages model (client f) with
    | (Ok output, client') =>
        (Ok output,
         mkFrame client' (requests f ++ [mkRequest title messages output])
           (generation_history f) (reflection_history f) (generation f))
    | (Raise e, client') =>
        (Raise e,
         mkFrame client' (requests f) (generation_history f)
           (reflection_history f) (generation f))
    end.

(** [self.generate(generation_history, verbose)]. *)
Definition generate (model : string) : Method Frame string :=
  _request_completion model generation_history "GENERATION".

(** [self.reflect(reflection_history, verbose)]. *)
Definition reflect (model : string) : Method Frame string :=
  _request_completion model reflection_history "REFLECTION".

(** The assignment [generation = ...]. *)
Definition assign_generation (g : string) : Method Frame unit :=
  fun f =>
    (Ok tt, mkFrame (client f) (requests f) (generation_history f)
              (reflection_history f) (Some g)).

(** The body of the [for] loop of [run]; it returns [true] when it ends
    in [break]. *)
Definition loop_body (model : string) : Method Frame bool :=
  (g <- generate model ;;
   assign_generation g ;;;
   on_generation_history
     (update_chat_history FixedFirstChatHistory_append g "assistant") ;;;
   on_reflection_history
     (update_chat_history FixedFirstChatHistory_append g "user") ;;;
   critique <- reflect model ;;
   if contains "<OK>" critique then ret true
   else
     (on_generation_history
        (update_chat_history FixedFirstChatHistory_append critique "user") ;;;
      on_reflection_history
        (update_chat_history FixedFirstChatHistory_append critique
           "assistant") ;;;
      ret false))%method.

(** [for step in range(n): body], with [break]. *)
Fixpoint for_range (n : nat) (body : Method Frame bool) : Method Frame unit :=
  match n with
  | O => ret tt
  | S k => (stop <- body ;; if stop then ret tt else for_range k body)%method
  end.

(** [return generation]: reading a local that was never assigned raises
    [UnboundLocalError]. *)
Definition return_generation : Method Frame string :=
  fun f =>
    match generation f with
    | Some g => (Ok g, f)
    | None => (Raise UnboundLocalError, f)
    end.

(** The frame [run] starts its loop with. *)
Definition initial_frame (c : Client)
    (user_msg generation_system_prompt reflection_system_prompt : string)
  : Frame :=
  let generation_system_prompt :=
    (generation_system_prompt ++ BASE_GENERATION_SYSTEM_PROMPT)%string in
  let reflection_system_prompt :=
    (reflection_system_prompt ++ BASE_REFLECTION_SYSTEM_PROMPT)%string in
  mkFrame c []
    (ChatHistory_init
       (Some [build_prompt_structure generation_system_prompt "system" "";
              build_prompt_structure user_msg "user" ""]) 3)
    (ChatHistory_init
       (Some [build_prompt_structure reflection_system_prompt "system" ""]) 3)
    None.

(** [ReflectionAgent.run(user_msg, generation_system_prompt,
    reflection_system_prompt, n_steps, verbose)] for an agent with client
    [c] and model name [model].  The printing done when [verbose > 0] is
    left out. *)
Definition ReflectionAgent_run (c : Client) (model : string)
    (user_msg generation_system_prompt reflection_system_prompt : string)
    (n_steps : Z) : result string * Frame :=
  (for_range (Z.to_nat n_steps) (loop_body model) ;;;
   return_generation)%method
    (initial_frame c user_msg generation_system_prompt
       reflection_system_prompt).

(** The texts received by the requests of a given title, in order. *)
Definition received_by (title : string) (rs : list Request) : list string :=
  map received (filter (fun r => String.eqb (log_title r) title) rs).

(** The drafts the generator produced and the critiques the critic
    produced during a run. *)
Definition drafts (f : Frame) : list string :=
  received_by "GENERATION" (requests f).

Definition critiques (f : Frame) : list string :=
  received_by "REFLECTION" (requests f).

(** Both histories of a run keep their capacity 3 and their first
    message. *)
Definition seeded (f : Frame) : Prop :=
  (exists a l, generation_history f = mkChatHistory (a :: l) 3)
  /\ (exists a l, reflection_history f = mkChatHistory (a :: l) 3).

End Reflection.

(** The drafts and critiques of a loop of at most [n] iterations: the
    loop goes on after a critique without the stop marker and ends with
    the first critique that has it. *)
Inductive loop_steps : nat -> list (string * string) -> Prop :=
| loop_steps_none : loop_steps O []
| loop_steps_break (k : nat) (g c : string) :
    contains "<OK>" c = true -> loop_steps (S k) [(g, c)]
| loop_steps_continue (k : nat) (g c : string)
    (rest : list (string * string)) :
    contains "<OK>" c = false ->
    loop_steps k rest -> loop_steps (S k) ((g, c) :: rest).


(** A scripted client for the examples: it answers from a list, one text
    per request, and then with the empty text. *)
Definition scripted_client : Groq := {|
  Client := list string;
  chat_completions_create := fun script _ _ =>
    match script with
    | [] => ("", [])
    | reply :: rest => (reply, rest)
    end
|}.

(** ** The fragment of Python's [re] used by utils/extraction.py *)

(** The pattern [extract_tag_content] builds is compiled by [re], which
    is outside the package.  The model covers the patterns made of
    ordinary characters, the dot and the lazy capture group [(.*?)];
    under [re.DOTALL] the dot matches every character.  A pattern that
    holds another regex operator is outside the model. *)
Inductive re_item : Type :=
| ReChar (c : ascii)
| ReAny
| ReGroupLazyAny.

(** The characters that are operators of the regex syntax, the dot
    apart. *)
Definition re_operator (c : ascii) : bool :=
  existsb (Ascii.eqb c)
    ["\"; "^"; "$"; "*"; "+"; "?"; "{"; "}"; "["; "]"; "|"; "("; ")"]%char.

(** Parsing of a pattern of the fragment; [None] for a pattern outside
    it. *)
Fixpoint re_parse (p : list ascii) : option (list re_item) :=
  match p with
  | [] => Some []
  | "("%char :: "."%char :: "*"%char :: "?"%char :: ")"%char :: rest =>
      option_map (cons ReGroupLazyAny) (re_parse rest)
  | c :: rest =>
      if Ascii.eqb c "." then option_map (cons ReAny) (re_parse rest)
      else if re_operator c then None
      else option_map (cons (ReChar c)) (re_parse rest)
  end.

Definition re_groups (p : list re_item) : nat :=
  List.length
    (filter (fun i => match i with ReGroupLazyAny => true | _ => false end) p).

(** The lazy group [(.*?)] followed by the rest of the pattern, whose
    matcher is [k]: the group first takes nothing and takes one more
    character each time the rest fails.  [taken] holds, last first, what
    the group has taken. *)
Fixpoint re_lazy_any
    (k : list ascii -> option (list (list ascii) * list ascii))
    (s taken : list ascii) : option (list (list ascii) * list ascii) :=
  match k s with
  | Some (groups, rest) => Some (rev taken :: groups, rest)
  | None =>
      match s with
      | [] => None
      | x :: s' => re_lazy_any k s' (x :: taken)
      end
  end.

(** A match of the pattern at the start of [s], found by backtracking:
    the texts of the groups and what is left of [s]. *)
Fixpoint re_match (p : list re_item) (s : list ascii)
  : option (list (list ascii) * list ascii) :=
  match p with
  | [] => Some ([], s)
  | ReChar c :: p' =>
      match s with
      | x :: s' => if Ascii.eqb c x then re_match p' s' else None
      | [] => None
      end
  | ReAny :: p' =>
      match s with
      | _ :: s' => re_match p' s'
      | [] => None
      end
  | ReGroupLazyAny :: p' => re_lazy_any (re_match p') s []
  end.

(** A match as [re_match] finds it, but for the matcher [accept] that
    the end of the pattern calls on what is left: a match that [accept]
    refuses fails there, and the backtracking goes on. *)
Fixpoint re_match_if (accept : list ascii -> bool) (p : list re_item)
    (s : list ascii) : option (list (list ascii) * list ascii) :=
  match p with
  | [] => if accept s then Some ([], s) else None
  | ReChar c :: p' =>
      match s with
      | x :: s' => if Ascii.eqb c x then re_match_if accept p' s' else None
      | [] => None
      end
  | ReAny :: p' =>
      match s with
      | _ :: s' => re_match_if accept p' s'
      | [] => None
      end
  | ReGroupLazyAny :: p' => re_lazy_any (re_match_if accept p') s []
  end.

(** A match at the start of [s] that is not empty: what [re] looks for
    at the place where it has just found an empty match. *)
Definition re_match_advance (p : list re_item) (s : list ascii)
  : option (list (list ascii) * list ascii) :=
  re_match_if (fun rest => negb (List.length rest =? List.length s)%nat) p s.

(** The scan of [re.findall]: matches are looked for from left to right,
    and after a match the scan goes on where the match ended.  Where the
    match was empty, a match that is not empty is looked for at the same
    place first, and then the scan moves on by one character.  [skip]
    counts the characters of the last match still to be passed. *)
Fixpoint re_scan (p : list re_item) (s : list ascii) (skip : nat)
  : list (list (list ascii)) :=
  match skip with
  | S k =>
      match s with
      | [] => []
      | _ :: s' => re_scan p s' k
      end
  | O =>
      match re_match p s with
      | Some (groups, rest) =>
          if (List.length rest =? List.length s)%nat then
            groups ::
            match re_match_advance p s with
            | Some (groups', rest') =>
                groups' ::
                match s with
                | [] => []
                | _ :: s' =>
                    re_scan p s' (List.length s - List.length rest' - 1)
                end
            | None =>
                match s with
                | [] => []
                | _ :: s' => re_scan p s' 0
                end
            end
          else
            groups ::
            match s with
            | [] => []
            | _ :: s' => re_scan p s' (List.length s - List.length rest - 1)
            end
      | None =>
          match s with
          | [] => []
          | _ :: s' => re_scan p s' 0
          end
      end
  end.

(** [re.findall(pattern, text, re.DOTALL)] for a pattern of the fragment
    with exactly one group: the texts of the group, one per match. *)
Definition re_findall (pattern text : string) : option (list string) :=
  match re_parse (list_ascii_of_string pattern) with
  | Some p =>
      if Nat.eqb (re_groups p) 1
      then Some (map (fun groups => string_of_list_ascii (hd [] groups))
                   (re_scan p (list_ascii_of_string text) 0))
      else None
  | None => None
  end.

(** [str.isspace] on one character, for the code points below 256. *)
Definition isspace (c : ascii) : bool :=
  let n := nat_of_ascii c in
  ((9 <=? n) && (n <=? 13) || (28 <=? n) && (n <=? 32)
   || (n =? 133) || (n =? 160))%nat.

Fixpoint lstrip_chars (s : list ascii) : list ascii :=
  match s with
  | [] => []
  | c :: s' => if isspace c then lstrip_chars s' else s
  end.

(** [s.strip()]. *)
Definition strip (s : string) : string :=
  string_of_list_ascii
    (rev (lstrip_chars (rev (lstrip_chars (list_ascii_of_string s))))).

(** ** utils/extraction.py *)

Module TagContentResult.

(** [@dataclass class TagContentResult]. *)
Record t : Type := mk {
  content : list string;
  found : bool
}.

End TagContentResult.

(** [extract_tag_content(text, tag)]; [None] when the pattern built from
    the tag is outside the modelled fragment of [re]. *)
Definition extract_tag_content (text tag : string)
  : option TagContentResult.t :=
  let tag_pattern := ("<" ++ tag ++ ">(.*?)</" ++ tag ++ ">")%string in
  match re_findall tag_pattern text with
  | Some matched_contents =>
      Some (TagContentResult.mk
              (map strip matched_contents)
              (match matched_contents with [] => false | _ :: _ => true end))
  | None => None
  end.

(** A tag without any character that the regex syntax gives a meaning
    to. *)
Definition plain_char (c : ascii) : bool :=
  negb (Ascii.eqb c "." || re_operator c).

Definition plain_tag (tag : string) : bool :=
  forallb plain_char (list_ascii_of_string tag).

(** The characters of [<tag>] and of [</tag>]. *)
Definition open_tag (tag : list ascii) : list ascii :=
  "<"%char :: tag ++ [">"%char].

Definition close_tag (tag : list ascii) : list ascii :=
  "<"%char :: "/"%char :: tag ++ [">"%char].

(** The items the pattern of a plain tag compiles to. *)
Definition tag_items (tag : list ascii) : list re_item :=
  map ReChar (open_tag tag) ++ ReGroupLazyAny :: map ReChar (close_tag tag).

(** The spans of a text in the words of the specification: the inner
    texts of the occurrences of [op ... cl], taken from left to right
    without overlap.  Each occurrence starts at the leftmost place where
    one can start and ends at the first [cl] after its [op]; the search
    goes on behind it. *)
Inductive tag_spans (op cl : list ascii)
  : list ascii -> list (list ascii) -> Prop :=
| tag_spans_none (text : list ascii) :
    (forall before inner after,
        text <> before ++ op ++ inner ++ cl ++ after) ->
    tag_spans op cl text []
| tag_spans_next (before inner after : list ascii)
    (rest : list (list ascii)) :
    (forall before' inner' after',
        before ++ op ++ inner ++ cl ++ after
        = before' ++ op ++ inner' ++ cl ++ after' ->
        (List.length before <= List.length before')%nat
        /\ (List.length before' = List.length before ->
            (List.length inner <= List.length inner')%nat)) ->
    tag_spans op cl after rest ->
    tag_spans op cl (before ++ op ++ inner ++ cl ++ after) (inner :: rest).

(** [text] holds a span [<tag>...</tag>]. *)
Definition has_tag_span (text tag : string) : Prop :=
  exists before inner after : string,
    text = (before ++ "<" ++ tag ++ ">" ++ inner
              ++ "</" ++ tag ++ ">" ++ after)%string.

(** ** Outcomes without state *)

Definition rbind {A B : Type} (r : result A) (k : A -> result B) : result B :=
  match r with
  | Ok a => k a
  | Raise e => Raise e
  end.

Declare Scope result_scope.
Delimit Scope result_scope with result.

Notation "x <- m ;; k" := (rbind m (fun x => k))
  (at level 100, m at next level, right associativity) : result_scope.

(** [[f(x) for x in l]], ended by the first [f(x)] that raises. *)
Fixpoint traverse {A B : Type} (f : A -> result B) (l : list A)
  : result (list B) :=
  match l with
  | [] => Ok []
  | x :: rest =>
      (y <- f x ;; ys <- traverse f rest ;; Ok (y :: ys))%result
  end.

(** ** Python values *)

(** Python's floats are not modelled: their type and the conversions
    that meet it are taken from outside. *)
Class PyFloat : Type := {
  float : Type;
  (** [int(x)] for a float: truncation, [OverflowError] on an infinity,
      [ValueError] on a NaN *)
  int_of_float : float -> result Z;
  (** [float(i)] for an integer: [OverflowError] when too large *)
  float_of_int : Z -> result float;
  (** [float(s)] for a text: [ValueError] when it is not a number *)
  float_of_str : string -> result float;
  (** [bool(x)] for a float *)
  bool_of_float : float -> bool;
  (** [x == y] for two floats, and for a float and an integer *)
  float_eqb : float -> float -> bool;
  float_eq_int : float -> Z -> bool;
  (** [x + y] for two floats *)
  float_add : float -> float -> float
}.

Section Values.

Context {floats : PyFloat}.

(** The values [json.loads] produces, which are also the values a tool
    call carries: [None], booleans, integers, floats, texts, lists and
    dicts with text keys.  A dict is the list of its items in insertion
    order. *)
#[local] Set Warnings "-register-all".

Inductive PyVal : Type :=
| VNone
| VBool (b : bool)
| VInt (z : Z)
| VFloat (x : float)
| VStr (s : string)
| VList (l : list PyVal)
| VDict (d : list (string * PyVal)).

(** The types in [type_mapping]. *)
Inductive PyType : Type := TInt | TStr | TBool | TFloat.

(** [d.get(k)] on the items of a dict. *)
Fixpoint dict_get {V : Type} (d : list (string * V)) (k : string) : option V :=
  match d with
  | [] => None
  | (k', v) :: rest => if String.eqb k' k then Some v else dict_get rest k
  end.

(** [d[k] = v] on the items of a dict: the value of an existing key is
    replaced where it stands, a new key goes to the end. *)
Fixpoint dict_set {V : Type} (d : list (string * V)) (k : string) (v : V)
  : list (string * V) :=
  match d with
  | [] => [(k, v)]
  | (k', v') :: rest =>
      if String.eqb k' k then (k', v) :: rest else (k', v') :: dict_set rest k v
  end.

(** [obj[k]] for a text key [k]: [KeyError] on a dict without the key,
    [TypeError] on anything that is not a dict. *)
Definition py_getitem (obj : PyVal) (k : string) : result PyVal :=
  match obj with
  | VDict d =>
      match dict_get d k with
      | Some v => Ok v
      | None => Raise KeyError
      end
  | _ => Raise TypeError
  end.

(** [obj.get(k)]: [None] for a missing key; only dicts have [get]. *)
Definition py_get (obj : PyVal) (k : string) : result PyVal :=
  match obj with
  | VDict d =>
      match dict_get d k with
      | Some v => Ok v
      | None => Ok VNone
      end
  | _ => Raise AttributeError
  end.

(** [obj.items()]: only dicts have [items]. *)
Definition py_items (obj : PyVal) : result (list (string * PyVal)) :=
  match obj with
  | VDict d => Ok d
  | _ => Raise AttributeError
  end.

(** [isinstance(v, T)]; [bool] is a subclass of [int]. *)
Definition isinstance (v : PyVal) (T : PyType) : bool :=
  match T, v with
  | TInt, VInt _ => true
  | TInt, VBool _ => true
  | TStr, VStr _ => true
  | TBool, VBool _ => true
  | TFloat, VFloat _ => true
  | _, _ => false
  end.

(** *** [int(s)] for a text *)

Definition digit_value (c : ascii) : option Z :=
  let n := nat_of_ascii c in
  if ((48 <=? n) && (n <=? 57))%nat then Some (Z.of_nat n - 48) else None.

(** The whitespace [int] passes over at both ends of a text: for the
    code points below 256, the six of ASCII and the two above 127 that
    [str.isspace] knows.  The separators U+001C to U+001F, which
    [str.strip] removes, are not among them. *)
Definition int_space (c : ascii) : bool :=
  let n := nat_of_ascii c in
  ((9 <=? n) && (n <=? 13) || (n =? 32) || (n =? 133) || (n =? 160))%nat.

Fixpoint int_skip_spaces (s : list ascii) : list ascii :=
  match s with
  | [] => []
  | c :: s' => if int_space c then int_skip_spaces s' else s
  end.

(** The digits at the start of a text, where single underscores may
    stand between digits: their value, their number and what follows
    them.  [after_digit] tells that the last character read was a
    digit. *)
Fixpoint int_digits (s : list ascii) (acc : Z) (digits : nat)
    (after_digit : bool) : option (Z * nat * list ascii) :=
  match s with
  | [] => if after_digit then Some (acc, digits, []) else None
  | c :: s' =>
      match digit_value c with
      | Some d => int_digits s' (10 * acc + d) (S digits) true
      | None =>
          if Ascii.eqb c "_" then
            if after_digit then int_digits s' acc digits false else None
          else if after_digit then Some (acc, digits, s) else None
      end
  end.

(** The optional sign at the start of a text: whether it is a minus,
    and what follows it. *)
Definition int_sign (s : list ascii) : bool * list ascii :=
  match s with
  | "-"%char :: ds => (true, ds)
  | "+"%char :: ds => (false, ds)
  | ds => (false, ds)
  end.

(** [int(s)]: whitespace is passed over, then an optional sign and
    decimal digits are read, then whitespace up to the end of the text;
    anything else raises [ValueError], and so do more digits than
    [max_str_digits] allows, which is the limit
    [sys.get_int_max_str_digits()], 0 for none.  The limit is looked at
    for more than 640 digits only.  Among the code points below 256,
    which are those of the texts here, the decimal digits are the ten of
    ASCII. *)
Definition int_of_str (max_str_digits : nat) (s : string) : result Z :=
  let signed := int_sign (int_skip_spaces (list_ascii_of_string s)) in
  match int_digits (snd signed) 0 0 false with
  | Some (value, digits, rest) =>
      if ((640 <? digits) && (0 <? max_str_digits)
          && (max_str_digits <? digits))%nat
      then Raise ValueError
      else
        match int_skip_spaces rest with
        | [] => Ok (if fst signed then - value else value)
        | _ :: _ => Raise ValueError
        end
  | None => Raise ValueError
  end.

(** *** Numeric text, in the words of the documentation of [int] *)

Definition is_digit (c : ascii) : bool :=
  ((48 <=? nat_of_ascii c) && (nat_of_ascii c <=? 57))%nat.

(** Digits with single underscores between them, and the digits
    alone. *)
Inductive digit_groups : list ascii -> list ascii -> Prop :=
| digit_groups_last (c : ascii) :
    is_digit c = true -> digit_groups [c] [c]
| digit_groups_digit (c : ascii) (s digits : list ascii) :
    is_digit c = true -> digit_groups s digits ->
    digit_groups (c :: s) (c :: digits)
| digit_groups_underscore (c : ascii) (s digits : list ascii) :
    is_digit c = true -> digit_groups s digits ->
    digit_groups (c :: "_"%char :: s) (c :: digits).

(** The number a run of decimal digits stands for. *)
Definition decimal_value (digits : list ascii) : Z :=
  fold_left (fun acc c => 10 * acc + (Z.of_nat (nat_of_ascii c) - 48))
    digits 0.

(** The whitespace that may surround the literal: tab, line feed,
    vertical tab, form feed, carriage return, space, next line and
    no-break space. *)
Definition int_whitespace : list ascii :=
  map ascii_of_nat [9; 10; 11; 12; 13; 32; 133; 160]%nat.

(** [s] is a text of the integer [z] with [n] digits: an integer literal
    in base 10, which may have single underscores between its digits,
    optionally preceded by a sign, with no space in between, and
    surrounded by whitespace. *)
Definition integer_text (s : string) (z : Z) (n : nat) : Prop :=
  exists before sign body digits after : list ascii,
    list_ascii_of_string s = before ++ sign ++ body ++ after
    /\ Forall (fun c => In c int_whitespace) before
    /\ Forall (fun c => In c int_whitespace) after
    /\ digit_groups body digits
    /\ n = List.length digits
    /\ ((sign = [] \/ sign = ["+"%char]) /\ z = decimal_value digits
        \/ sign = ["-"%char] /\ z = - decimal_value digits).

(** Where the digits of a text end: at its end, or before a character
    that is neither a digit nor an underscore. *)
Definition digits_end (rest : list ascii) : Prop :=
  match rest with
  | [] => True
  | c :: _ => is_digit c = false /\ Ascii.eqb c "_" = false
  end.

(** A text that is no text of an integer. *)
Definition non_numeric (s : string) : Prop :=
  forall (z : Z) (n : nat), ~ integer_text s z n.

(** [str(i)] for an integer. *)
Definition str_of_int (z : Z) : string :=
  DecimalString.NilZero.string_of_int (Z.to_int z).

(** The rest of Python's library that the tool pattern calls into:
    [repr], which [str] falls back on, the text of a dict of
    observations inside an f-string, the [json] module, and the limit
    [sys.get_int_max_str_digits()] on the digits of a text converted to
    an integer, 0 for none. *)
Class PyLibrary : Type := {
  int_max_str_digits : nat;
  repr : PyVal -> string;
  str_of_observations : list (PyVal * PyVal) -> string;
  json_loads : string -> result PyVal;
  json_dumps : PyVal -> string
}.

Context {library : PyLibrary}.

(** [int(v)]. *)
Definition py_int (v : PyVal) : result PyVal :=
  match v with
  | VInt z => Ok (VInt z)
  | VBool b => Ok (VInt (if b then 1 else 0))
  | VFloat x => (z <- int_of_float x ;; Ok (VInt z))%result
  | VStr s => (z <- int_of_str int_max_str_digits s ;; Ok (VInt z))%result
  | VNone | VList _ | VDict _ => Raise TypeError
  end.

(** [str(v)]. *)
Definition py_str (v : PyVal) : result PyVal :=
  match v with
  | VStr s => Ok (VStr s)
  | VNone => Ok (VStr "None")
  | VBool b => Ok (VStr (if b then "True" else "False"))
  | VInt z => Ok (VStr (str_of_int z))
  | VFloat _ | VList _ | VDict _ => Ok (VStr (repr v))
  end.

(** [bool(v)]. *)
Definition py_bool (v : PyVal) : result PyVal :=
  Ok (VBool
        match v with
        | VNone => false
        | VBool b => b
        | VInt z => negb (z =? 0)
        | VFloat x => bool_of_float x
        | VStr s => negb (String.eqb s "")
        | VList l => match l with [] => false | _ :: _ => true end
        | VDict d => match d with [] => false | _ :: _ => true end
        end).

(** [float(v)]. *)
Definition py_float (v : PyVal) : result PyVal :=
  match v with
  | VFloat x => Ok (VFloat x)
  | VInt z => (x <- float_of_int z ;; Ok (VFloat x))%result
  | VBool b => (x <- float_of_int (if b then 1 else 0) ;; Ok (VFloat x))%result
  | VStr s => (x <- float_of_str s ;; Ok (VFloat x))%result
  | VNone | VList _ | VDict _ => Raise TypeError
  end.

(** [a + b]: numbers are added, a boolean counting as 0 or 1, texts and
    lists are joined; anything else raises [TypeError]. *)
Definition py_add (a b : PyVal) : result PyVal :=
  let as_int v :=
    match v with
    | VBool b => Some (if b then 1 else 0)
    | VInt z => Some z
    | _ => None
    end in
  match a, b with
  | VStr s, VStr t => Ok (VStr (s ++ t))
  | VList l, VList m => Ok (VList (l ++ m))
  | VFloat x, VFloat y => Ok (VFloat (float_add x y))
  | VFloat x, _ =>
      match as_int b with
      | Some z => (y <- float_of_int z ;; Ok (VFloat (float_add x y)))%result
      | None => Raise TypeError
      end
  | _, VFloat y =>
      match as_int a with
      | Some z => (x <- float_of_int z ;; Ok (VFloat (float_add x y)))%result
      | None => Raise TypeError
      end
  | _, _ =>
      match as_int a, as_int b with
      | Some z, Some w => Ok (VInt (z + w))
      | _, _ => Raise TypeError
      end
  end.

(** The arguments of a call with keyword arguments to a function whose
    parameters are [params], none with a default value: a keyword that
    is not a parameter and a parameter without argument raise
    [TypeError]. *)
Definition bind_keywords (params : list string)
    (kwargs : list (string * PyVal)) : result (list PyVal) :=
  if forallb (fun kv => existsb (String.eqb (fst kv)) params) kwargs
  then traverse (fun param => match dict_get kwargs param with
                              | Some v => Ok v
                              | None => Raise TypeError
                              end) params
  else Raise TypeError.

(** Calling a type of [type_mapping] on a value. *)
Definition construct (T : PyType) (v : PyVal) : result PyVal :=
  match T with
  | TInt => py_int v
  | TStr => py_str v
  | TBool => py_bool v
  | TFloat => py_float v
  end.

(** ** tool_pattern/tool.py *)

(** An annotation of a parameter: a class, which has a [__name__], or
    something that has none (a text, a union of types). *)
Inductive Annotation : Type :=
| AClass (name : string)
| ANameless.

(** A function defined with [def]: its name, its docstring, its
    parameters in order, each with its annotation if it has one, the
    annotation of its result, and what a call with keyword arguments
    does. *)
Record PyFunction : Type := mkPyFunction {
  __name__ : string;
  __doc__ : option string;
  parameters : list (string * option Annotation);
  returns : option Annotation;
  call : list (string * PyVal) -> result PyVal
}.

(** [fn.__annotations__]: the annotated parameters in order, then the
    annotation of the result under the key [return]. *)
Definition __annotations__ (fn : PyFunction) : list (string * Annotation) :=
  flat_map (fun p => match snd p with
                     | Some a => [(fst p, a)]
                     | None => []
                     end) (parameters fn)
  ++ match returns fn with
     | Some a => [("return", a)]
     | None => []
     end.

(** [v.__name__]. *)
Definition annotation_name (v : Annotation) : result string :=
  match v with
  | AClass name => Ok name
  | ANameless => Raise AttributeError
  end.

(** [get_fn_signature(fn)]. *)
Definition get_fn_signature (fn : PyFunction) : result PyVal :=
  (schema <-
     traverse
       (fun kv => name <- annotation_name (snd kv) ;;
                  Ok (fst kv, VDict [("type", VStr name)]))
       (filter (fun kv => negb (String.eqb (fst kv) "return"))
          (__annotations__ fn)) ;;
   Ok (VDict
         [("name", VStr (__name__ fn));
          ("description",
           match __doc__ fn with Some d => VStr d | None => VNone end);
          ("parameters", VDict [("properties", VDict schema)])]))%result.

(** The names of the types a parameter of a tool is meant to have. *)
Definition primitive_types : list string := ["int"; "str"; "bool"; "float"].

(** What a signature is said to be: name and docstring of the function,
    and one property for each declared parameter, in order, holding the
    name of the primitive type the parameter is annotated with. *)
Definition declared_schema (fn : PyFunction) (signature : PyVal) : Prop :=
  exists properties : list (string * PyVal),
    signature
    = VDict [("name", VStr (__name__ fn));
             ("description",
              match __doc__ fn with Some d => VStr d | None => VNone end);
             ("parameters", VDict [("properties", VDict properties)])]
    /\ Forall2
         (fun (p : string * option Annotation) (property : string * PyVal) =>
            fst property = fst p
            /\ exists T : string,
                 snd p = Some (AClass T)
                 /\ In T primitive_types
                 /\ snd property = VDict [("type", VStr T)])
         (parameters fn) properties.

(** The properties [get_fn_signature] derives: one for each annotated
    parameter, holding the name of the annotation. *)
Definition annotated_properties (fn : PyFunction) : list (string * PyVal) :=
  flat_map (fun p => match snd p with
                     | Some (AClass T) => [(fst p, VDict [("type", VStr T)])]
                     | _ => []
                     end) (parameters fn).

(** [type_mapping[expected_type]]: a missing key raises [KeyError], a
    list or a dict cannot be a key at all. *)
Definition type_mapping (expected_type : PyVal) : result PyType :=
  match expected_type with
  | VStr s =>
      if String.eqb s "int" then Ok TInt
      else if String.eqb s "str" then Ok TStr
      else if String.eqb s "bool" then Ok TBool
      else if String.eqb s "float" then Ok TFloat
      else Raise KeyError
  | VList _ | VDict _ => Raise TypeError
  | _ => Raise KeyError
  end.

(** One turn of the loop of [validate_arguments], up to the assignment:
    the value the argument has after the turn. *)
Definition coerce_argument (properties : PyVal) (arg_name : string)
    (arg_value : PyVal) : result PyVal :=
  (property <- py_getitem properties arg_name ;;
   expected_type <- py_get property "type" ;;
   T <- type_mapping expected_type ;;
   if negb (isinstance arg_value T) then construct T arg_value
   else Ok arg_value)%result.

(** The item an argument becomes in one turn of the loop. *)
Definition coerce_item (properties : PyVal) (kv : string * PyVal)
  : result (string * PyVal) :=
  (v <- coerce_argument properties (fst kv) (snd kv) ;; Ok (fst kv, v))%result.

(** The loop of [validate_arguments] over the items still to visit;
    [arguments] is the dict [tool_call["arguments"]] as the turns made
    so far have left it. *)
Fixpoint validate_loop (properties : PyVal)
    (todo arguments : list (string * PyVal))
  : result (list (string * PyVal)) :=
  match todo with
  | [] => Ok arguments
  | (arg_name, arg_value) :: rest =>
      (v <- coerce_argument properties arg_name arg_value ;;
       validate_loop properties rest (dict_set arguments arg_name v))%result
  end.

(** [validate_arguments(tool_call, tool_signature)]: what is returned is
    the dict [tool_call] itself, with its arguments converted in
    place. *)
Definition validate_arguments (tool_call tool_signature : PyVal)
  : result PyVal :=
  (params <- py_getitem tool_signature "parameters" ;;
   properties <- py_getitem params "properties" ;;
   arguments <- py_getitem tool_call "arguments" ;;
   todo <- py_items arguments ;;
   arguments' <- validate_loop properties todo todo ;;
   match tool_call with
   | VDict d => Ok (VDict (dict_set d "arguments" (VDict arguments')))
   | _ => Raise TypeError
   end)%result.

End Values.

(** ** tool_pattern/tool_agent.py *)

(** The double quote, as a text. *)
Definition dquote : string := String (ascii_of_nat 34) EmptyString.

(** [TOOL_SYSTEM_PROMPT % signatures]: the prompt with the signatures in
    the place of its [%s]. *)
Definition TOOL_SYSTEM_PROMPT (signatures : string) : string :=
  ("
You are a function calling AI model. You are provided with function signatures within <tools></tools> XML tags.
You may call one or more functions to assist with the user query. Don't make assumptions about what values to plug
into functions. Pay special attention to the properties 'types'. You should use those types as in a Python dict.
For each function call return a json object with function name and arguments within <tool_call></tool_call>
XML tags as follows:

<tool_call>
{" ++ dquote ++ "name" ++ dquote ++ ": <function-name>, " ++ dquote ++ "arguments" ++ dquote ++ ": <args-dict>, " ++ dquote ++ "id" ++ dquote ++ ": <monotonically-increasing-id>}
</tool_call>

Here are the available tools:

<tools>
"
   ++ signatures ++
   "
</tools>
")%string.

Module Tool.

Section Tool.

Context {floats : PyFloat}.

(** [class Tool]: the attributes set by [__init__]. *)
Record t : Type := mk {
  name : string;
  fn : PyFunction;
  fn_signature : string
}.

(** [Tool.run], called with keyword arguments. *)
Definition run (self : t) (kwargs : list (string * PyVal)) : result PyVal :=
  call (fn self) kwargs.

End Tool.

End Tool.

Section ToolPattern.

Context {floats : PyFloat} {library : PyLibrary}.

(** The decorator [tool(fn)].  The name is read back from the signature,
    where it is the text [fn.__name__]. *)
Definition tool (fn : PyFunction) : result Tool.t :=
  (fn_signature <- get_fn_signature fn ;;
   name <- py_get fn_signature "name" ;;
   match name with
   | VStr name => Ok (Tool.mk name fn (json_dumps fn_signature))
   | _ => Raise TypeError
   end)%result.

(** Keys of the dict of observations: [None], booleans, numbers and
    texts can be keys, lists and dicts cannot. *)
Definition hashable (v : PyVal) : bool :=
  match v with
  | VList _ | VDict _ => false
  | _ => true
  end.

(** [a == b] on keys; booleans and numbers are compared by value. *)
Definition key_eqb (a b : PyVal) : bool :=
  let as_int v :=
    match v with
    | VBool b => Some (if b then 1 else 0)
    | VInt z => Some z
    | _ => None
    end in
  match a, b with
  | VNone, VNone => true
  | VStr s, VStr t => String.eqb s t
  | VFloat x, VFloat y => float_eqb x y
  | VFloat x, _ =>
      match as_int b with Some z => float_eq_int x z | None => false end
  | _, VFloat y =>
      match as_int a with Some z => float_eq_int y z | None => false end
  | _, _ =>
      match as_int a, as_int b with
      | Some z, Some w => z =? w
      | _, _ => false
      end
  end.

Fixpoint observations_replace (observations : list (PyVal * PyVal))
    (k v : PyVal) : list (PyVal * PyVal) :=
  match observations with
  | [] => [(k, v)]
  | (k', v') :: rest =>
      if key_eqb k' k then (k', v) :: rest
      else (k', v') :: observations_replace rest k v
  end.

(** [observations[k] = v]. *)
Definition observations_set (observations : list (PyVal * PyVal))
    (k v : PyVal) : result (list (PyVal * PyVal)) :=
  if hashable k then Ok (observations_replace observations k v)
  else Raise TypeError.

End ToolPattern.

Module ToolAgent.

Section ToolAgent.

Context {floats : PyFloat} {library : PyLibrary} {groq : Groq}.

(** [class ToolAgent]: the attributes set by [__init__] from a list of
    tools, but for the client, which changes with the requests and is
    kept in [World]. *)
Record t : Type := mk {
  model : string;
  tools : list Tool.t
}.

(** [self.tools_dict]: [{tool.name: tool for tool in self.tools}]. *)
Definition tools_dict (self : t) : list (string * Tool.t) :=
  fold_left (fun d tool => dict_set d (Tool.name tool) tool) (tools self) [].

(** What a run acts on: the client, and the tools run so far with their
    arguments (kept for the statements; the source prints the name and
    the arguments of each tool it runs). *)
Record World : Type := mkWorld {
  client : Client;
  tool_runs : list (string * list (string * PyVal))
}.

(** A request to the service, made with the client of the world. *)
Definition request (messages : list Message) (model : string)
  : Method World string :=
  fun w =>
    let (r, client') := completions_create messages model (client w) in
    (r, mkWorld client' (tool_runs w)).

(** An outcome without effect on the world. *)
Definition pure {A : Type} (r : result A) : Method World A :=
  fun w => (r, w).

(** [tool.run] with keyword arguments, noted in the world. *)
Definition run_tool (tool : Tool.t) (kwargs : list (string * PyVal))
  : Method World PyVal :=
  fun w =>
    (Tool.run tool kwargs,
     mkWorld (client w) (tool_runs w ++ [(Tool.name tool, kwargs)])).

(** [self.add_tool_signatures()]. *)
Definition add_tool_signatures (self : t) : string :=
  String.concat "" (map Tool.fn_signature (tools self)).

(** [self.tools_dict[tool_name]]. *)
Definition lookup_tool (self : t) (tool_name : PyVal) : result Tool.t :=
  match tool_name with
  | VStr name =>
      match dict_get (tools_dict self) name with
      | Some tool => Ok tool
      | None => Raise KeyError
      end
  | VList _ | VDict _ => Raise TypeError
  | _ => Raise KeyError
  end.

(** The loop of [process_tool_calls] over the calls still to make. *)
Fixpoint process_loop (self : t) (tool_calls_content : list string)
    (observations : list (PyVal * PyVal))
  : Method World (list (PyVal * PyVal)) :=
  match tool_calls_content with
  | [] => ret observations
  | tool_call_str :: rest =>
      (tool_call <- pure (json_loads tool_call_str) ;;
       tool_name <- pure (py_getitem tool_call "name") ;;
       tool <- pure (lookup_tool self tool_name) ;;
       tool_signature <- pure (json_loads (Tool.fn_signature tool)) ;;
       validated_tool_call <-
         pure (validate_arguments tool_call tool_signature) ;;
       arguments <- pure (py_getitem validated_tool_call "arguments") ;;
       kwargs <- pure (match arguments with
                       | VDict d => Ok d
                       | _ => Raise TypeError
                       end) ;;
       result <- run_tool tool kwargs ;;
       id <- pure (py_getitem validated_tool_call "id") ;;
       observations <- pure (observations_set observations id result) ;;
       process_loop self rest observations)%method
  end.

(** [self.process_tool_calls(tool_calls_content)]. *)
Definition process_tool_calls (self : t) (tool_calls_content : list string)
  : Method World (list (PyVal * PyVal)) :=
  process_loop self tool_calls_content [].

(** [extract_tag_content(text, "tool_call")]; the tag is plain, so the
    pattern is inside the modelled fragment and the default is never
    taken. *)
Definition extract_tool_calls (text : string) : TagContentResult.t :=
  match extract_tag_content text "tool_call" with
  | Some r => r
  | None => TagContentResult.mk [] false
  end.

(** [ToolAgent.run(self, user_msg)].  The printing is left out. *)
Definition run (self : t) (user_msg : string) : Method World string :=
  let user_prompt := build_prompt_structure user_msg "user" "" in
  let tool_chat_history :=
    ChatHistory_init
      (Some [build_prompt_structure
               (TOOL_SYSTEM_PROMPT (add_tool_signatures self)) "system" "";
             user_prompt]) (-1) in
  let agent_chat_history := ChatHistory_init (Some [user_prompt]) (-1) in
  (tool_call_response <- request (items tool_chat_history) (model self) ;;
   let tool_calls := extract_tool_calls tool_call_response in
   agent_chat_history <-
     (if TagContentResult.found tool_calls then
        observations <-
          process_tool_calls self (TagContentResult.content tool_calls) ;;
        pure (match update_chat_history ChatHistory_append
                      ("Observation: " ++ str_of_observations observations)
                      "user" agent_chat_history with
              | (Ok _, h) => Ok h
              | (Raise e, _) => Raise e
              end)
      else ret agent_chat_history) ;;
   request (items agent_chat_history) (model self))%method.

End ToolAgent.

End ToolAgent.

(** ** Notions used by the further properties *)

(** The requests of the iterations after the first one, given the draft
    and the critique of the iteration before: the generator is sent its
    system message, the previous draft as its own turn and the previous
    critique as the user's; the critic is sent its system message, its
    previous critique as its own turn and the new draft as the user's. *)
Fixpoint later_requests (generator_system critic_system : Message)
    (previous : string * string) (steps : list (string * string))
  : list Request :=
  match steps with
  | [] => []
  | (draft, critique) :: rest =>
      mkRequest "GENERATION"
        [generator_system;
         mkMessage "assistant" (fst previous);
         mkMessage "user" (snd previous)] draft
      :: mkRequest "REFLECTION"
           [critic_system;
            mkMessage "assistant" (snd previous);
            mkMessage "user" draft] critique
      :: later_requests generator_system critic_system (draft, critique) rest
  end.

(** The requests of a run with the given drafts and critiques: in the
    first iteration the generator is sent its system message and the
    user's message, the critic its system message and the draft. *)
Definition expected_requests
    (generator_system critic_system user_message : Message)
    (steps : list (string * string)) : list Request :=
  match steps with
  | [] => []
  | (draft, critique) :: rest =>
      mkRequest "GENERATION" [generator_system; user_message] draft
      :: mkRequest "REFLECTION"
           [critic_system; mkMessage "user" draft] critique
      :: later_requests generator_system critic_system (draft, critique) rest
  end.

Section DeclaredTypes.

Context {floats : PyFloat}.

(** The type a signature's properties declare for an argument, as the
    loop of [validate_arguments] looks it up. *)
Definition declared_type (properties : PyVal) (arg_name : string)
  : result PyType :=
  (property <- py_getitem properties arg_name ;;
   expected_type <- py_get property "type" ;;
   type_mapping expected_type)%result.

(** [signature["parameters"]["properties"]]. *)
Definition signature_properties (tool_signature : PyVal) : result PyVal :=
  (params <- py_getitem tool_signature "parameters" ;;
   py_getitem params "properties")%result.

(** [validated["arguments"][arg_name]]. *)
Definition argument_of (tool_call : PyVal) (arg_name : string)
  : result PyVal :=
  (arguments <- py_getitem tool_call "arguments" ;;
   py_getitem arguments arg_name)%result.

End DeclaredTypes.

(** ** Stand-ins for the examples *)

(** Floats for the examples: rationals, with exact conversions; only
    integer numerals are read from text. *)
Definition example_floats : PyFloat := {|
  float := Q;
  int_of_float := fun q => Ok (Z.quot (Qnum q) (Zpos (Qden q)));
  float_of_int := fun z => Ok (inject_Z z);
  float_of_str := fun s =>
    match int_of_str 0 s with
    | Ok z => Ok (inject_Z z)
    | Raise e => Raise e
    end;
  bool_of_float := fun q => negb (Qeq_bool q 0);
  float_eqb := Qeq_bool;
  float_eq_int := fun q z => Qeq_bool q (inject_Z z);
  float_add := Qplus
|}.

#[local] Existing Instance example_floats.

(** [def add(a: int, b: int): return a + b], with the docstring of the
    examples.  The annotations are not looked at when it is called. *)
Definition add_function : PyFunction := {|
  __name__ := "add";
  __doc__ := Some "Add two numbers";
  parameters := [("a", Some (AClass "int")); ("b", Some (AClass "int"))];
  returns := None;
  call := fun kwargs =>
    (arguments <- bind_keywords ["a"; "b"] kwargs ;;
     match arguments with
     | [a; b] => py_add a b
     | _ => Raise TypeError
     end)%result
|}.

(** A function [def scale(x, factor: int) -> int] whose first parameter
    has no annotation; its body is [pass]. *)
Definition scale_function : PyFunction := {|
  __name__ := "scale";
  __doc__ := None;
  parameters := [("x", None); ("factor", Some (AClass "int"))];
  returns := Some (AClass "int");
  call := fun kwargs =>
    (arguments <- bind_keywords ["x"; "factor"] kwargs ;; Ok VNone)%result
|}.

(** A function [def total(values: list)] with an annotation outside the
    four primitive types; its body is its docstring alone. *)
Definition total_function : PyFunction := {|
  __name__ := "total";
  __doc__ := Some "Sum a list";
  parameters := [("values", Some (AClass "list"))];
  returns := None;
  call := fun kwargs =>
    (arguments <- bind_keywords ["values"] kwargs ;; Ok VNone)%result
|}.

(** The signature [get_fn_signature] gives for [add]. *)
Definition add_signature : PyVal :=
  VDict [("name", VStr "add");
         ("description", VStr "Add two numbers");
         ("parameters",
          VDict [("properties",
                  VDict [("a", VDict [("type", VStr "int")]);
                         ("b", VDict [("type", VStr "int")])])])].

(** A library for the examples.  Its [json] knows one text: the
    signature of [add], under the name [add]. *)
Definition example_library : PyLibrary := {|
  int_max_str_digits := 4300;
  repr := fun _ => "<repr>";
  str_of_observations := fun _ => "{...}";
  json_loads := fun s =>
    if String.eqb s "add" then Ok add_signature else Raise JSONDecodeError;
  json_dumps := fun _ => "add"
|}.

#[local] Existing Instance example_library.

(** A call of [add] as [json.loads] gives it, with one argument supplied
    as a text, and the same call without its id. *)
Definition add_call : PyVal :=
  VDict [("name", VStr "add");
         ("arguments", VDict [("a", VStr "5"); ("b", VInt 3)]);
         ("id", VInt 0)].

Definition add_call_without_id : PyVal :=
  VDict [("name", VStr "add");
         ("arguments", VDict [("a", VStr "5"); ("b", VInt 3)])].

(** A library for the examples of the tool loop.  Its [json] knows the
    signature of [add] and the two calls above, each under a name. *)
Definition calls_library : PyLibrary := {|
  int_max_str_digits := 4300;
  repr := fun _ => "<repr>";
  str_of_observations := fun _ => "{...}";
  json_loads := fun s =>
    if String.eqb s "add" then Ok add_signature
    else if String.eqb s "call" then Ok add_call
    else if String.eqb s "call without id" then Ok add_call_without_id
    else Raise JSONDecodeError;
  json_dumps := fun _ => "add"
|}.

(** An agent with the tool [add]. *)
Definition add_agent : ToolAgent.t :=
  ToolAgent.mk "llama" [Tool.mk "add" add_function "add"].

(* ================================================================== *)
(** * Part II: properties *)
(* ================================================================== *)

(** ** Bounded histories *)

Lemma len_app1 {A : Type} (l : list A) (x : A) : len (l ++ [x]) = len l + 1.
Proof. unfold len. rewrite length_app. simpl. lia. Qed.

Lemma len_nonneg {A : Type} (l : list A) : 0 <= len l.
Proof. unfold len. lia. Qed.

Lemma len_cons {A : Type} (x : A) (l : list A) : len (x :: l) = len l + 1.
Proof. unfold len. simpl List.length. lia. Qed.

(** Popping index 0 of a non-empty list returns its head. *)
Lemma list_pop_0 {A : Type} (x : A) (l : list A) :
  list_pop 0 (x :: l) = (Ok x, l).
Proof.
  unfold list_pop. cbn [Z.ltb Z.compare].
  rewrite len_cons.
  replace (0 <? 0) with false by reflexivity.
  replace (len l + 1 <=? 0) with false
    by (symmetry; apply Z.leb_gt; pose proof (len_nonneg l); lia).
  reflexivity.
Qed.

(** Popping index 1 of a list of two or more elements returns the second. *)
Lemma list_pop_1 {A : Type} (x y : A) (l : list A) :
  list_pop 1 (x :: y :: l) = (Ok y, x :: l).
Proof.
  unfold list_pop. rewrite !len_cons.
  replace (1 <? 0) with false by reflexivity.
  replace (len l + 1 + 1 <=? 1) with false
    by (symmetry; apply Z.leb_gt; pose proof (len_nonneg l); lia).
  reflexivity.
Qed.

(** Popping index 1 of a list of at most one element raises and leaves the
    list alone. *)
Lemma list_pop_1_short {A : Type} (l : list A) :
  len l <= 1 -> list_pop 1 l = (Raise IndexError, l).
Proof.
  intros Hl. unfold list_pop.
  replace (1 <? 0) with false by reflexivity.
  replace (len l <=? 1) with true by (symmetry; apply Z.leb_le; exact Hl).
  reflexivity.
Qed.

Lemma list_pop_0_nil {A : Type} :
  list_pop 0 (@nil A) = (Raise IndexError, []).
Proof. reflexivity. Qed.

(** *** One append of the protected container *)

Lemma FixedFirst_append_below (msg : Message) (l : list Message) (N : Z) :
  len l <> N ->
  FixedFirstChatHistory_append msg (mkChatHistory l N)
  = (Ok tt, mkChatHistory (l ++ [msg]) N).
Proof.
  intros Hne. unfold FixedFirstChatHistory_append. cbn [items total_length].
  destruct (Z.eqb_spec (len l) N) as [E | _]; [contradiction |].
  reflexivity.
Qed.

Lemma FixedFirst_append_full (msg x y : Message) (l : list Message) (N : Z) :
  len (x :: y :: l) = N ->
  FixedFirstChatHistory_append msg (mkChatHistory (x :: y :: l) N)
  = (Ok tt, mkChatHistory (x :: l ++ [msg]) N).
Proof.
  intros HN. unfold FixedFirstChatHistory_append. cbn [items total_length].
  rewrite (proj2 (Z.eqb_eq _ _) HN).
  unfold bind, on_items. cbn [items total_length].
  rewrite list_pop_1. reflexivity.
Qed.

(** With a capacity of two or more, an append to a non-empty protected
    history returns and keeps the head. *)
Lemma FixedFirst_append_head (msg first : Message) (rest : list Message)
    (N : Z) :
  2 <= N ->
  exists rest',
    FixedFirstChatHistory_append msg (mkChatHistory (first :: rest) N)
    = (Ok tt, mkChatHistory (first :: rest') N).
Proof.
  intros HN.
  destruct (Z.eq_dec (len (first :: rest)) N) as [E | E].
  - destruct rest as [| y l].
    + unfold len in E. simpl in E. lia.
    + exists (l ++ [msg]). now apply FixedFirst_append_full.
  - exists (rest ++ [msg]). now apply FixedFirst_append_below.
Qed.

Lemma FixedFirst_appends_head (msgs : list Message) :
  forall (first : Message) (rest : list Message) (N : Z),
    2 <= N ->
    exists rest',
      appends FixedFirstChatHistory_append msgs
        (mkChatHistory (first :: rest) N)
      = (Ok tt, mkChatHistory (first :: rest') N).
Proof.
  induction msgs as [| m msgs IH]; intros first rest N HN.
  - exists rest. reflexivity.
  - destruct (FixedFirst_append_head m first rest N HN) as [r1 E1].
    destruct (IH first r1 N HN) as [r2 E2].
    exists r2. cbn [appends]. unfold bind. rewrite E1. exact E2.
Qed.

(** C2. A protected history built with a capacity [N >= 2] and a
    non-empty initial list: every sequence of appends returns, and the
    message at position 0 afterwards is the one seeded first.  An append
    made at capacity removes the message at index 1 and keeps index 0. *)
Theorem fixed_first_keeps_seed (N : Z) (first : Message)
    (rest msgs : list Message) :
  2 <= N ->
  (exists h',
      appends FixedFirstChatHistory_append msgs
        (ChatHistory_init (Some (first :: rest)) N) = (Ok tt, h')
      /\ nth_error (items h') 0 = Some first)
  /\ (forall (second msg : Message) (tl : list Message),
         rest = second :: tl ->
         len (first :: rest) = N ->
         FixedFirstChatHistory_append msg
           (ChatHistory_init (Some (first :: rest)) N)
         = (Ok tt, mkChatHistory (first :: tl ++ [msg]) N)).
Proof.
  intros HN. split.
  - destruct (FixedFirst_appends_head msgs first rest N HN) as [r E].
    exists (mkChatHistory (first :: r) N). split; [exact E | reflexivity].
  - intros second msg tl -> Hfull. now apply FixedFirst_append_full.
Qed.

Lemma fixed_first_keeps_seed_witness :
  2 <= 3
  /\ exists h',
      appends FixedFirstChatHistory_append
        [mkMessage "user" "a"; mkMessage "assistant" "b";
         mkMessage "user" "c"]
        (ChatHistory_init (Some [mkMessage "system" "s"]) 3) = (Ok tt, h')
      /\ nth_error (items h') 0 = Some (mkMessage "system" "s").
Proof.
  split; [lia |].
  exact (proj1 (fixed_first_keeps_seed 3 (mkMessage "system" "s") []
                  [mkMessage "user" "a"; mkMessage "assistant" "b";
                   mkMessage "user" "c"] ltac:(lia))).
Defined.

(** C8. A protected history whose capacity is at most 1 and which is at
    capacity: [append] raises [IndexError] from the removal at index 1,
    the message is not appended and the history is left as it was. *)
Theorem fixed_first_small_capacity_raises (h : ChatHistory) (msg : Message) :
  total_length h <= 1 ->
  len (items h) = total_length h ->
  FixedFirstChatHistory_append msg h = (Raise IndexError, h).
Proof.
  intros Hcap Hfull. destruct h as [l N]. cbn [items total_length] in *.
  unfold FixedFirstChatHistory_append. cbn [items total_length].
  rewrite (proj2 (Z.eqb_eq _ _) Hfull).
  unfold bind, on_items. cbn [items total_length].
  rewrite list_pop_1_short by lia. reflexivity.
Qed.

Lemma fixed_first_small_capacity_raises_witness :
  FixedFirstChatHistory_append (mkMessage "user" "hi")
    (ChatHistory_init (Some [mkMessage "system" "s"]) 1)
  = (Raise IndexError, ChatHistory_init (Some [mkMessage "system" "s"]) 1).
Proof.
  apply (fixed_first_small_capacity_raises
           (ChatHistory_init (Some [mkMessage "system" "s"]) 1)
           (mkMessage "user" "hi")); [cbn; lia | reflexivity].
Defined.

(** *** One append of the plain container *)

Lemma ChatHistory_append_below (msg : Message) (l : list Message) (N : Z) :
  len l <> N ->
  ChatHistory_append msg (mkChatHistory l N)
  = (Ok tt, mkChatHistory (l ++ [msg]) N).
Proof.
  intros Hne. unfold ChatHistory_append. cbn [items total_length].
  destruct (Z.eqb_spec (len l) N) as [E | _]; [contradiction |].
  reflexivity.
Qed.

Lemma ChatHistory_append_full (msg x : Message) (l : list Message) (N : Z) :
  len (x :: l) = N ->
  ChatHistory_append msg (mkChatHistory (x :: l) N)
  = (Ok tt, mkChatHistory (l ++ [msg]) N).
Proof.
  intros HN. unfold ChatHistory_append. cbn [items total_length].
  rewrite (proj2 (Z.eqb_eq _ _) HN).
  unfold bind, on_items. cbn [items total_length].
  rewrite list_pop_0. reflexivity.
Qed.

Lemma lastn_all {A : Type} (n : nat) (l : list A) :
  (List.length l <= n)%nat -> lastn n l = l.
Proof.
  intros H. unfold lastn.
  replace (List.length l - n)%nat with 0%nat by lia. reflexivity.
Qed.

Lemma lastn_cons_drop {A : Type} (n : nat) (x : A) (l : list A) :
  (n <= List.length l)%nat -> lastn n (x :: l) = lastn n l.
Proof.
  intros H. unfold lastn. cbn [List.length].
  replace (S (List.length l) - n)%nat with (S (List.length l - n)) by lia.
  reflexivity.
Qed.

Lemma lastn_length {A : Type} (n : nat) (l : list A) :
  (List.length (lastn n l) <= n)%nat.
Proof. unfold lastn. rewrite length_skipn. lia. Qed.

Lemma lastn_app_long {A : Type} (n : nat) (l r : list A) :
  (n <= List.length r)%nat -> lastn n (l ++ r) = lastn n r.
Proof.
  intros H. unfold lastn. rewrite length_app, skipn_app.
  replace (List.length l + List.length r - n - List.length l)%nat
    with (List.length r - n)%nat by lia.
  rewrite skipn_all2 by lia. reflexivity.
Qed.

(** With a capacity of one or more and an initial list that fits, a run
    of appends returns and leaves the last [N] of everything the history
    has held. *)
Lemma ChatHistory_appends_lastn (msgs : list Message) :
  forall (init : list Message) (N : Z),
    1 <= N -> len init <= N ->
    appends ChatHistory_append msgs (mkChatHistory init N)
    = (Ok tt, mkChatHistory (lastn (Z.to_nat N) (init ++ msgs)) N).
Proof.
  induction msgs as [| m msgs IH]; intros init N HN Hfit.
  - cbn [appends]. unfold ret. rewrite app_nil_r.
    rewrite lastn_all by (unfold len in Hfit; lia). reflexivity.
  - cbn [appends]. unfold bind.
    destruct (Z.eq_dec (len init) N) as [E | E].
    + destruct init as [| x l]; [unfold len in E; simpl in E; lia |].
      rewrite (ChatHistory_append_full m x l N E).
      rewrite IH; [| exact HN | rewrite len_app1, len_cons in *; lia].
      rewrite <- app_assoc. cbn [app].
      rewrite (lastn_cons_drop (Z.to_nat N) x (l ++ m :: msgs)); [reflexivity |].
      rewrite length_app. cbn [List.length].
      unfold len in E. cbn [List.length] in E. lia.
    + rewrite (ChatHistory_append_below m init N E).
      rewrite IH; [| exact HN | rewrite len_app1; lia].
      rewrite <- app_assoc. reflexivity.
Qed.

(** With a negative capacity no append evicts. *)
Lemma ChatHistory_appends_unbounded (msgs : list Message) :
  forall (init : list Message) (N : Z),
    N < 0 ->
    appends ChatHistory_append msgs (mkChatHistory init N)
    = (Ok tt, mkChatHistory (init ++ msgs) N).
Proof.
  induction msgs as [| m msgs IH]; intros init N HN.
  - cbn [appends]. unfold ret. now rewrite app_nil_r.
  - cbn [appends]. unfold bind.
    rewrite ChatHistory_append_below by (pose proof (len_nonneg init); lia).
    rewrite IH by exact HN. now rewrite <- app_assoc.
Qed.

(** C3, as amended.  For a capacity [N >= 1] and an initial list of at
    most [N] messages: every run of appends returns, after each prefix of
    the run the history holds at most [N] messages, and once more than
    [N] messages were appended it holds exactly the last [N] of them, in
    order.  With the default capacity -1 the appends return and nothing
    is evicted, whatever the initial list. *)
Theorem plain_history_fifo (N : Z) (init msgs : list Message) :
  (1 <= N -> len init <= N ->
     (forall pre post, msgs = pre ++ post ->
        exists h,
          appends ChatHistory_append pre (ChatHistory_init (Some init) N)
          = (Ok tt, h) /\ len (items h) <= N)
     /\ (N < len msgs -> retains_most_recent N init msgs))
  /\ appends ChatHistory_append msgs (ChatHistory_init (Some init) (-1))
     = (Ok tt, mkChatHistory (init ++ msgs) (-1)).
Proof.
  split.
  - intros HN Hfit. split.
    + intros pre post _.
      exists (mkChatHistory (lastn (Z.to_nat N) (init ++ pre)) N). split.
      * now apply ChatHistory_appends_lastn.
      * cbn [items]. unfold len.
        pose proof (lastn_length (Z.to_nat N) (init ++ pre)). lia.
    + intros Hlong.
      exists (mkChatHistory (lastn (Z.to_nat N) (init ++ msgs)) N).
      split; [| split].
      * now apply ChatHistory_appends_lastn.
      * cbn [items]. unfold len.
        pose proof (lastn_length (Z.to_nat N) (init ++ msgs)). lia.
      * cbn [items]. apply lastn_app_long. unfold len in Hlong. lia.
  - apply ChatHistory_appends_unbounded. lia.
Qed.

Lemma plain_history_fifo_witness :
  1 <= 2 /\ len [mkMessage "system" "s"] <= 2
  /\ 2 < len [mkMessage "user" "a"; mkMessage "user" "b"; mkMessage "user" "c"]
  /\ retains_most_recent 2 [mkMessage "system" "s"]
       [mkMessage "user" "a"; mkMessage "user" "b"; mkMessage "user" "c"].
Proof.
  split; [lia |]. split; [cbn; lia |]. split; [cbn; lia |].
  apply (proj1 (plain_history_fifo 2 [mkMessage "system" "s"]
                  [mkMessage "user" "a"; mkMessage "user" "b";
                   mkMessage "user" "c"])); cbn; lia.
Defined.

(** C3 as stated fails in two ways.  With capacity 0 the first append
    finds the empty history at capacity and raises [IndexError] from
    [pop(0)]; and a history built with more messages than its capacity
    never evicts, so it keeps growing. *)
Lemma plain_history_fifo_counterexample :
  ~ retains_most_recent 0 [] [mkMessage "user" "a"]
  /\ ChatHistory_append (mkMessage "user" "a") (ChatHistory_init None 0)
     = (Raise IndexError, ChatHistory_init None 0)
  /\ ~ retains_most_recent 1
         [mkMessage "system" "s"; mkMessage "user" "a"]
         [mkMessage "user" "b"; mkMessage "user" "c"].
Proof.
  split; [| split].
  - intros (h' & E & _). vm_compute in E. discriminate E.
  - reflexivity.
  - intros (h' & E & Hlen & _). vm_compute in E.
    injection E as <-. vm_compute in Hlen. apply Hlen. reflexivity.
Qed.

(** ** The reflection loop *)

Lemma bind_ok {S A B : Type} (m : Method S A) (k : A -> Method S B)
    (s s' : S) (a : A) :
  m s = (Ok a, s') -> bind m k s = k a s'.
Proof. intros E. unfold bind. now rewrite E. Qed.

Lemma bind_raise {S A B : Type} (m : Method S A) (k : A -> Method S B)
    (s s' : S) (e : Exn) :
  m s = (Raise e, s') -> bind m k s = (Raise e, s').
Proof. intros E. unfold bind. now rewrite E. Qed.

Lemma received_by_app (title : string) (rs rs' : list Request) :
  received_by title (rs ++ rs') = received_by title rs ++ received_by title rs'.
Proof. unfold received_by. now rewrite filter_app, map_app. Qed.

Lemma last_cons_default {A : Type} (l : list A) :
  forall a d d' : A, last (a :: l) d = last (a :: l) d'.
Proof.
  induction l as [| b l IH]; intros a d d'; [reflexivity |].
  change (last (b :: l) d = last (b :: l) d'). apply IH.
Qed.

Lemma last_some_nth_error {A : Type} (l : list A) (d : A) :
  l <> [] ->
  last (map Some l) None = nth_error l (List.length l - 1).
Proof.
  induction l as [| a l IH]; intros Hne; [contradiction |].
  destruct l as [| b l]; [reflexivity |].
  cbn [List.length]. replace (S (S (List.length l)) - 1)%nat
    with (S (List.length (b :: l) - 1)) by (cbn [List.length]; lia).
  cbn [nth_error]. rewrite <- IH by discriminate. reflexivity.
Qed.

Section ReflectionProperties.

Context {groq : Groq}.
Variable model : string.

Lemma update_seeded (a : Message) (l : list Message) (msg r : string) :
  exists l',
    update_chat_history FixedFirstChatHistory_append msg r
      (mkChatHistory (a :: l) 3)
    = (Ok tt, mkChatHistory (a :: l') 3).
Proof.
  unfold update_chat_history. apply FixedFirst_append_head. lia.
Qed.

(** One iteration on seeded histories: both requests are made, no append
    raises, and the iteration breaks exactly when the critique holds the
    stop marker. *)
Lemma loop_body_seeded (f : Frame) :
  seeded f ->
  exists (g c : string) (f' : Frame),
    loop_body model f = (Ok (contains "<OK>" c), f')
    /\ seeded f'
    /\ g = fst (chat_completions_create (client f)
                  (items (generation_history f)) model)
    /\ generation f' = Some g
    /\ drafts f' = drafts f ++ [g]
    /\ critiques f' = critiques f ++ [c].
Proof.
  intros [(a & l & Hg) (b & l2 & Hr)].
  destruct f as [cl rq gh rh gen]. cbn [generation_history reflection_history
    client requests generation] in *. subst gh rh.
  destruct (chat_completions_create cl (a :: l) model) as [g cl1] eqn:E1.
  destruct (update_seeded a l g "assistant") as [l' Ea].
  destruct (update_seeded b l2 g "user") as [l2' Eb].
  destruct (chat_completions_create cl1 (b :: l2') model) as [c cl2] eqn:E2.
  destruct (update_seeded a l' c "user") as [l'' Ec].
  destruct (update_seeded b l2' c "assistant") as [l2'' Ed].
  exists g, c.
  unfold loop_body, generate, reflect, _request_completion, completions_create,
    assign_generation, on_generation_history, on_reflection_history, bind, ret.
  cbn [generation_history reflection_history client requests generation items].
  rewrite E1. cbv beta iota.
  cbn [generation_history reflection_history client requests generation items].
  rewrite Ea. cbv beta iota.
  cbn [generation_history reflection_history client requests generation items].
  rewrite Eb. cbv beta iota.
  cbn [generation_history reflection_history client requests generation items].
  rewrite E2. cbv beta iota.
  destruct (contains "<OK>" c) eqn:Hc.
  - eexists. split; [reflexivity |].
    split; [split; cbn [generation_history reflection_history];
            eexists; eexists; reflexivity |].
    split; [reflexivity |]. split; [reflexivity |].
    unfold drafts, critiques. cbn [requests].
    rewrite <- app_assoc, !received_by_app. cbn. rewrite ?app_nil_r.
    split; reflexivity.
  - cbn [generation_history reflection_history client requests generation
      items].
    rewrite Ec. cbv beta iota.
    cbn [generation_history reflection_history client requests generation
      items].
    rewrite Ed. cbv beta iota.
    eexists. split; [reflexivity |].
    split; [split; cbn [generation_history reflection_history];
            eexists; eexists; reflexivity |].
    split; [reflexivity |]. split; [reflexivity |].
    unfold drafts, critiques. cbn [requests].
    rewrite <- app_assoc, !received_by_app. cbn. rewrite ?app_nil_r.
    split; reflexivity.
Qed.

(** The loop on seeded histories never raises; its drafts and critiques
    follow [loop_steps], and [generation] ends bound to the last draft. *)
Lemma for_range_seeded (n : nat) :
  forall f : Frame,
    seeded f ->
    exists (steps : list (string * string)) (f' : Frame),
      for_range n (loop_body model) f = (Ok tt, f')
      /\ loop_steps n steps
      /\ drafts f' = drafts f ++ map fst steps
      /\ critiques f' = critiques f ++ map snd steps
      /\ generation f' = last (map Some (map fst steps)) (generation f)
      /\ hd_error (map fst steps)
         = match n with
           | O => None
           | S _ => Some (fst (chat_completions_create (client f)
                                 (items (generation_history f)) model))
           end.
Proof.
  induction n as [| k IH]; intros f Hf.
  - exists [], f. cbn. rewrite !app_nil_r. repeat split. constructor.
  - destruct (loop_body_seeded f Hf) as (g & c & f1 & E & Hf1 & Hg & Hgen & Hd & Hc).
    cbn [for_range]. rewrite (bind_ok _ _ _ _ _ E).
    destruct (contains "<OK>" c) eqn:Hstop.
    + exists [(g, c)], f1. cbn [map fst snd last hd_error].
      repeat split; try assumption.
      * now constructor.
      * now rewrite Hg.
    + destruct (IH f1 Hf1) as (steps & f' & E' & Hsteps & Hd' & Hc' & Hgen' & _).
      exists ((g, c) :: steps), f'. cbn [map fst snd hd_error].
      split; [exact E' |]. split; [now constructor |].
      split; [rewrite Hd', Hd, <- app_assoc; reflexivity |].
      split; [rewrite Hc', Hc, <- app_assoc; reflexivity |].
      split; [| now rewrite Hg].
      rewrite Hgen', Hgen.
      destruct steps as [| s steps']; [reflexivity |].
      cbn [map].
      transitivity (last (Some (fst s) :: map Some (map fst steps'))
                      (generation f));
        [apply last_cons_default | reflexivity].
Qed.

Lemma initial_frame_seeded (c : Client) (user_msg gsp rsp : string) :
  seeded (initial_frame c user_msg gsp rsp).
Proof. split; eexists; eexists; reflexivity. Qed.

(** What a run does, in terms of [loop_steps]. *)
Lemma run_steps (c : Client) (user_msg gsp rsp : string) (n_steps : Z) :
  exists (steps : list (string * string)) (f' : Frame),
    snd (ReflectionAgent_run c model user_msg gsp rsp n_steps) = f'
    /\ loop_steps (Z.to_nat n_steps) steps
    /\ drafts f' = map fst steps
    /\ critiques f' = map snd steps
    /\ fst (ReflectionAgent_run c model user_msg gsp rsp n_steps)
       = match last (map Some (map fst steps)) None with
         | Some g => Ok g
         | None => Raise UnboundLocalError
         end
    /\ hd_error (map fst steps)
       = match Z.to_nat n_steps with
         | O => None
         | S _ => Some (fst (chat_completions_create c
                    (items (generation_history
                              (initial_frame c user_msg gsp rsp))) model))
         end.
Proof.
  destruct (for_range_seeded (Z.to_nat n_steps) _
              (initial_frame_seeded c user_msg gsp rsp))
    as (steps & f' & E & Hsteps & Hd & Hc & Hgen & Hhd).
  exists steps, f'. unfold ReflectionAgent_run.
  rewrite (bind_ok _ _ _ _ _ E). unfold return_generation.
  rewrite Hgen. cbn [initial_frame generation].
  split; [destruct (last _ _); reflexivity |].
  split; [exact Hsteps |]. split; [exact Hd |]. split; [exact Hc |].
  split; [destruct (last _ _); reflexivity | exact Hhd].
Qed.

(** A loop whose critiques all lack the stop marker uses every one of
    its iterations. *)
Lemma loop_steps_no_stop (n : nat) (steps : list (string * string)) :
  loop_steps n steps ->
  Forall (fun critique => contains "<OK>" critique = false) (map snd steps) ->
  List.length steps = n.
Proof.
  induction 1 as [| k g c Hc | k g c rest Hc Hrest IH]; intros Hall.
  - reflexivity.
  - inversion Hall as [| ? ? Hc' _]; subst. cbn [snd] in Hc'. congruence.
  - inversion Hall as [| ? ? _ Hall']; subst. cbn [List.length].
    now rewrite IH.
Qed.

(** A loop whose critiques all hold the stop marker makes one iteration,
    if it makes any. *)
Lemma loop_steps_all_stop (n : nat) (steps : list (string * string)) :
  loop_steps (S n) steps ->
  Forall (fun critique => contains "<OK>" critique = true) (map snd steps) ->
  exists g c, steps = [(g, c)].
Proof.
  intros Hsteps Hall.
  inversion Hsteps as [| k g c Hc | k g c rest Hc Hrest]; subst.
  - now exists g, c.
  - inversion Hall as [| ? ? Hc' _]; subst. cbn [snd] in Hc'. congruence.
Qed.

(** C4. A run with [n_steps >= 1] whose critiques all hold the stop
    marker makes exactly one iteration, one generation request and one
    reflection request, and returns the first draft: the generator's
    answer to the system prompt and the user's message. *)
Theorem reflection_stops_at_first_ok (c : Client)
    (user_msg gsp rsp : string) (n_steps : Z) :
  1 <= n_steps ->
  Forall (fun critique => contains "<OK>" critique = true)
    (critiques (snd (ReflectionAgent_run c model user_msg gsp rsp n_steps))) ->
  let first_draft :=
    fst (chat_completions_create c
           [build_prompt_structure
              (gsp ++ BASE_GENERATION_SYSTEM_PROMPT)%string "system" "";
            build_prompt_structure user_msg "user" ""] model) in
  fst (ReflectionAgent_run c model user_msg gsp rsp n_steps) = Ok first_draft
  /\ drafts (snd (ReflectionAgent_run c model user_msg gsp rsp n_steps))
     = [first_draft]
  /\ List.length
       (critiques (snd (ReflectionAgent_run c model user_msg gsp rsp n_steps)))
     = 1%nat.
Proof.
  intros Hn Hall first_draft.
  destruct (run_steps c user_msg gsp rsp n_steps)
    as (steps & f' & Ef & Hsteps & Hd & Hc & Hres & Hhd).
  rewrite Ef in *. rewrite Hc in Hall.
  destruct (Z.to_nat n_steps) as [| k] eqn:En; [lia |].
  destruct (loop_steps_all_stop k steps Hsteps Hall) as (g & cr & ->).
  cbn [map fst snd hd_error last] in *.
  injection Hhd as Hg. cbn [initial_frame generation_history items
    ChatHistory_init] in Hg. fold first_draft in Hg. subst g.
  rewrite Hres, Hd, Hc. repeat split.
Qed.

(** C5. A run with [n_steps >= 1] whose critiques all lack the stop
    marker makes exactly [n_steps] iterations, each with one generation
    and one reflection request, and returns the draft of the last one. *)
Theorem reflection_runs_all_steps (c : Client)
    (user_msg gsp rsp : string) (n_steps : Z) :
  1 <= n_steps ->
  Forall (fun critique => contains "<OK>" critique = false)
    (critiques (snd (ReflectionAgent_run c model user_msg gsp rsp n_steps))) ->
  exists final_draft : string,
    fst (ReflectionAgent_run c model user_msg gsp rsp n_steps)
    = Ok final_draft
    /\ len (drafts (snd (ReflectionAgent_run c model user_msg gsp rsp n_steps)))
       = n_steps
    /\ len (critiques
              (snd (ReflectionAgent_run c model user_msg gsp rsp n_steps)))
       = n_steps
    /\ nth_error
         (drafts (snd (ReflectionAgent_run c model user_msg gsp rsp n_steps)))
         (Z.to_nat (n_steps - 1))
       = Some final_draft.
Proof.
  intros Hn Hall.
  destruct (run_steps c user_msg gsp rsp n_steps)
    as (steps & f' & Ef & Hsteps & Hd & Hc & Hres & _).
  rewrite Ef in *. rewrite Hc in Hall.
  pose proof (loop_steps_no_stop _ _ Hsteps Hall) as Hlen.
  assert (Hne : map fst steps <> []).
  { destruct steps; [cbn in Hlen; lia | discriminate]. }
  rewrite (last_some_nth_error _ "" Hne) in Hres.
  rewrite length_map, Hlen in Hres.
  replace (Z.to_nat n_steps - 1)%nat with (Z.to_nat (n_steps - 1)) in Hres
    by lia.
  destruct (nth_error (map fst steps) (Z.to_nat (n_steps - 1)))
    as [d |] eqn:Ed.
  - exists d. rewrite Hres, Hd, Hc. unfold len. rewrite !length_map, Hlen.
    repeat split; try lia. exact Ed.
  - apply nth_error_None in Ed. rewrite length_map, Hlen in Ed. lia.
Qed.

(** C10. With [n_steps <= 0] the loop body never runs: no request is
    made and [return generation] raises [UnboundLocalError].  A run that
    returns a draft has [n_steps >= 1]. *)
Theorem reflection_needs_a_step (c : Client)
    (user_msg gsp rsp : string) (n_steps : Z) :
  (n_steps <= 0 ->
     ReflectionAgent_run c model user_msg gsp rsp n_steps
     = (Raise UnboundLocalError, initial_frame c user_msg gsp rsp))
  /\ (forall draft : string,
        fst (ReflectionAgent_run c model user_msg gsp rsp n_steps) = Ok draft ->
        1 <= n_steps)
  /\ (1 <= n_steps ->
      exists draft : string,
        fst (ReflectionAgent_run c model user_msg gsp rsp n_steps) = Ok draft).
Proof.
  assert (H0 : n_steps <= 0 ->
     ReflectionAgent_run c model user_msg gsp rsp n_steps
     = (Raise UnboundLocalError, initial_frame c user_msg gsp rsp)).
  { intros Hn. unfold ReflectionAgent_run.
    replace (Z.to_nat n_steps) with O by lia. reflexivity. }
  split; [exact H0 |]. split.
  - intros draft Hd. destruct (Z_le_gt_dec n_steps 0) as [Hle | Hgt]; [| lia].
    rewrite (H0 Hle) in Hd. discriminate Hd.
  - intros Hn.
    destruct (run_steps c user_msg gsp rsp n_steps)
      as (steps & f' & _ & Hsteps & _ & _ & Hres & _).
    destruct (Z.to_nat n_steps) as [| k] eqn:En; [lia |].
    assert (Hne : map fst steps <> []).
    { inversion Hsteps; discriminate. }
    rewrite (last_some_nth_error _ "" Hne) in Hres.
    destruct (nth_error (map fst steps) (List.length (map fst steps) - 1))
      as [d |] eqn:Ed.
    + now exists d.
    + apply nth_error_None in Ed.
      destruct (map fst steps); [contradiction | cbn in Ed; lia].
Qed.

End ReflectionProperties.

Lemma reflection_stops_at_first_ok_witness :
  fst (ReflectionAgent_run (groq := scripted_client)
         ["draft one"; "nothing to change <OK>"; "draft two"; "<OK>"]
         "llama" "write a haiku" "" "" 3)
  = Ok "draft one".
Proof.
  apply (reflection_stops_at_first_ok (groq := scripted_client) "llama"
           ["draft one"; "nothing to change <OK>"; "draft two"; "<OK>"]
           "write a haiku" "" "" 3).
  - lia.
  - vm_compute. repeat constructor.
Defined.

Lemma reflection_runs_all_steps_witness :
  exists final_draft : string,
    fst (ReflectionAgent_run (groq := scripted_client)
           ["draft one"; "too long"; "draft two"; "still too long"]
           "llama" "write a haiku" "" "" 2)
    = Ok final_draft
    /\ nth_error ["draft one"; "draft two"] 1 = Some final_draft.
Proof.
  destruct (reflection_runs_all_steps (groq := scripted_client) "llama"
              ["draft one"; "too long"; "draft two"; "still too long"]
              "write a haiku" "" "" 2) as (d & Hres & _ & _ & Hlast).
  - lia.
  - vm_compute. repeat constructor.
  - exists d. split; [exact Hres | exact Hlast].
Defined.

Lemma reflection_needs_a_step_witness :
  fst (ReflectionAgent_run (groq := scripted_client) ["draft one"; "<OK>"]
         "llama" "write a haiku" "" "" 0)
  = Raise UnboundLocalError.
Proof.
  rewrite (proj1 (reflection_needs_a_step (groq := scripted_client) "llama"
                    ["draft one"; "<OK>"] "write a haiku" "" "" 0));
    [reflexivity | lia].
Defined.


(** ** Tag extraction *)

Lemma list_ascii_of_string_app (a b : string) :
  list_ascii_of_string (a ++ b)
  = list_ascii_of_string a ++ list_ascii_of_string b.
Proof.
  induction a as [| c a IH]; [reflexivity |].
  cbn [String.append list_ascii_of_string app]. now rewrite IH.
Qed.

Lemma string_of_list_ascii_app (a b : list ascii) :
  string_of_list_ascii (a ++ b)
  = (string_of_list_ascii a ++ string_of_list_ascii b)%string.
Proof.
  induction a as [| c a IH]; [reflexivity |].
  cbn [string_of_list_ascii app String.append]. now rewrite IH.
Qed.

(** An ordinary character is parsed as itself. *)
Lemma re_parse_plain_char (c : ascii) (rest : list ascii) :
  plain_char c = true ->
  re_parse (c :: rest) = option_map (cons (ReChar c)) (re_parse rest).
Proof.
  destruct c as [b0 b1 b2 b3 b4 b5 b6 b7].
  destruct b0, b1, b2, b3, b4, b5, b6, b7;
    intros H; try discriminate H; reflexivity.
Qed.

Lemma re_parse_plain (l : list ascii) :
  forall rest : list ascii,
    forallb plain_char l = true ->
    re_parse (l ++ rest) = option_map (app (map ReChar l)) (re_parse rest).
Proof.
  induction l as [| c l IH]; intros rest Hl.
  - cbn [app map]. destruct (re_parse rest); reflexivity.
  - cbn [forallb] in Hl. apply andb_true_iff in Hl as [Hc Hl].
    cbn [app]. rewrite (re_parse_plain_char c _ Hc), (IH rest Hl).
    destruct (re_parse rest); reflexivity.
Qed.

Lemma plain_open_tag (tag : list ascii) :
  forallb plain_char tag = true -> forallb plain_char (open_tag tag) = true.
Proof.
  intros H. unfold open_tag. cbn [forallb].
  rewrite forallb_app, H. reflexivity.
Qed.

Lemma plain_close_tag (tag : list ascii) :
  forallb plain_char tag = true -> forallb plain_char (close_tag tag) = true.
Proof.
  intros H. unfold close_tag. cbn [forallb].
  rewrite forallb_app, H. reflexivity.
Qed.

(** The characters of the pattern [<tag>(.*?)</tag>]. *)
Lemma tag_pattern_chars (tag : string) :
  list_ascii_of_string ("<" ++ tag ++ ">(.*?)</" ++ tag ++ ">")
  = open_tag (list_ascii_of_string tag)
    ++ ["("; "."; "*"; "?"; ")"]%char
    ++ close_tag (list_ascii_of_string tag).
Proof.
  rewrite !list_ascii_of_string_app. unfold open_tag, close_tag.
  cbn [list_ascii_of_string app]. rewrite <- !app_assoc. reflexivity.
Qed.

(** The pattern of a plain tag compiles to [tag_items]. *)
Lemma re_parse_tag_pattern (tag : string) :
  plain_tag tag = true ->
  re_parse (list_ascii_of_string ("<" ++ tag ++ ">(.*?)</" ++ tag ++ ">"))
  = Some (tag_items (list_ascii_of_string tag)).
Proof.
  intros Hp. rewrite tag_pattern_chars.
  rewrite re_parse_plain by now apply plain_open_tag.
  change (re_parse (["("; "."; "*"; "?"; ")"]%char
                    ++ close_tag (list_ascii_of_string tag)))
    with (option_map (cons ReGroupLazyAny)
            (re_parse (close_tag (list_ascii_of_string tag)))).
  rewrite <- (app_nil_r (close_tag _)).
  rewrite re_parse_plain by now apply plain_close_tag.
  cbn [re_parse option_map]. rewrite !app_nil_r. reflexivity.
Qed.

Lemma re_groups_tag_items (tag : list ascii) : re_groups (tag_items tag) = 1%nat.
Proof.
  unfold re_groups, tag_items. rewrite filter_app. cbn [filter].
  assert (H : forall l, filter
    (fun i => match i with ReGroupLazyAny => true | _ => false end)
    (map ReChar l) = []).
  { induction l as [| c l IH]; [reflexivity | exact IH]. }
  rewrite !H. reflexivity.
Qed.

(** A run of ordinary characters matches itself and nothing else. *)
Lemma re_match_chars (l : list ascii) :
  forall (p : list re_item) (s : list ascii)
         (r : list (list ascii) * list ascii),
    re_match (map ReChar l ++ p) s = Some r
    <-> exists s', s = l ++ s' /\ re_match p s' = Some r.
Proof.
  induction l as [| c l IH]; intros p s r.
  - cbn [map app]. split.
    + intros H. now exists s.
    + intros (s' & -> & H). exact H.
  - cbn [map app re_match]. destruct s as [| x s].
    + split; [discriminate |]. intros (s' & E & _). discriminate E.
    + destruct (Ascii.eqb_spec c x) as [-> | Hne].
      * rewrite IH. split.
        -- intros (s' & -> & H). now exists s'.
        -- intros (s' & E & H). injection E as ->. now exists s'.
      * split; [discriminate |].
        intros (s' & E & _). injection E as E _. congruence.
Qed.

(** Where the lazy group succeeds, the rest of the pattern matches what
    the group has left. *)
Lemma re_lazy_any_sound
    (k : list ascii -> option (list (list ascii) * list ascii))
    (s : list ascii) :
  forall (taken : list ascii) (groups : list (list ascii))
         (rest : list ascii),
    re_lazy_any k s taken = Some (groups, rest) ->
    exists x suf groups',
      s = x ++ suf /\ k suf = Some (groups', rest)
      /\ groups = (rev taken ++ x) :: groups'.
Proof.
  induction s as [| c s IH]; intros taken groups rest H; cbn [re_lazy_any] in H.
  - destruct (k []) as [[g r] |] eqn:Ek; [| discriminate H].
    injection H as <- <-. exists [], [], g.
    rewrite !app_nil_r. repeat split; assumption.
  - destruct (k (c :: s)) as [[g r] |] eqn:Ek.
    + injection H as <- <-. exists [], (c :: s), g.
      rewrite !app_nil_r. repeat split; assumption.
    + destruct (IH _ _ _ H) as (x & suf & g' & -> & Hk & ->).
      exists (c :: x), suf, g'. cbn [rev]. rewrite <- app_assoc.
      repeat split; assumption.
Qed.

(** The lazy group succeeds as soon as the rest of the pattern matches
    some suffix. *)
Lemma re_lazy_any_complete
    (k : list ascii -> option (list (list ascii) * list ascii))
    (x : list ascii) :
  forall (suf taken : list ascii),
    k suf <> None -> re_lazy_any k (x ++ suf) taken <> None.
Proof.
  induction x as [| c x IH]; intros suf taken Hk.
  - cbn [app]. destruct suf as [| d suf]; cbn [re_lazy_any];
      destruct (k _) as [[g r] |]; congruence.
  - cbn [app re_lazy_any].
    destruct (k (c :: x ++ suf)) as [[g r] |]; [discriminate |].
    now apply IH.
Qed.

(** A match of the pattern of a tag is an opening tag, some text and a
    closing tag; the group holds the text. *)
Lemma re_match_tag_items_sound (tag s : list ascii)
    (groups : list (list ascii)) (rest : list ascii) :
  re_match (tag_items tag) s = Some (groups, rest) ->
  exists x,
    groups = [x] /\ s = open_tag tag ++ x ++ close_tag tag ++ rest.
Proof.
  unfold tag_items. intros H.
  apply re_match_chars in H as (s1 & -> & H). cbn [re_match] in H.
  apply re_lazy_any_sound in H as (x & suf & g' & -> & Hk & ->).
  rewrite <- (app_nil_r (map ReChar (close_tag tag))) in Hk.
  apply re_match_chars in Hk as (s2 & -> & Hk). cbn [re_match] in Hk.
  injection Hk as <- <-. now exists x.
Qed.

Lemma re_match_tag_items_complete (tag x rest : list ascii) :
  re_match (tag_items tag) (open_tag tag ++ x ++ close_tag tag ++ rest)
  <> None.
Proof.
  unfold tag_items.
  destruct (re_match _ _) as [r |] eqn:E; [discriminate |].
  exfalso.
  assert (H : re_lazy_any (re_match (map ReChar (close_tag tag)))
                (x ++ close_tag tag ++ rest) [] <> None).
  { apply re_lazy_any_complete.
    destruct (re_match (map ReChar (close_tag tag)) (close_tag tag ++ rest))
      as [r |] eqn:E2; [discriminate |].
    exfalso.
    assert (H2 : re_match (map ReChar (close_tag tag) ++ [])
                   (close_tag tag ++ rest) = Some ([], rest)).
    { apply re_match_chars. now exists rest. }
    rewrite app_nil_r in H2. congruence. }
  destruct (re_lazy_any _ _ _) as [r |] eqn:E3; [| now apply H].
  assert (H3 : re_match (map ReChar (open_tag tag)
                          ++ ReGroupLazyAny :: map ReChar (close_tag tag))
                 (open_tag tag ++ x ++ close_tag tag ++ rest) = Some r).
  { apply re_match_chars. eexists. split; [reflexivity | exact E3]. }
  congruence.
Qed.

(** The scan finds something exactly when the pattern matches at some
    position. *)
Lemma re_scan_sound (p : list re_item) (s : list ascii) :
  forall skip : nat,
    re_scan p s skip <> [] ->
    exists pre suf, s = pre ++ suf /\ re_match p suf <> None.
Proof.
  induction s as [| c s IH]; intros skip H.
  - destruct skip; cbn [re_scan] in H; [| contradiction].
    destruct (re_match p []) eqn:E; [| destruct H; reflexivity].
    exists [], []. split; [reflexivity | congruence].
  - destruct skip as [| k]; cbn [re_scan] in H.
    + destruct (re_match p (c :: s)) as [[g r] |] eqn:E.
      * exists [], (c :: s). split; [reflexivity | congruence].
      * destruct (IH _ H) as (pre & suf & -> & Hm).
        now exists (c :: pre), suf.
    + destruct (IH _ H) as (pre & suf & -> & Hm).
      now exists (c :: pre), suf.
Qed.

Lemma re_scan_complete (p : list re_item) (pre : list ascii) :
  forall suf : list ascii,
    re_match p suf <> None -> re_scan p (pre ++ suf) 0 <> [].
Proof.
  induction pre as [| c pre IH]; intros suf Hm.
  - cbn [app]. destruct suf; cbn [re_scan];
      (destruct (re_match p _) as [[g r] |]; [| congruence]);
      destruct (_ =? _)%nat; discriminate.
  - cbn [app re_scan].
    destruct (re_match p (c :: pre ++ suf)) as [[g r] |];
      [destruct (_ =? _)%nat; discriminate |].
    now apply IH.
Qed.

Lemma string_append_assoc (a b c : string) :
  ((a ++ b) ++ c = a ++ b ++ c)%string.
Proof.
  induction a as [| x a IH]; [reflexivity |].
  cbn [String.append]. now rewrite IH.
Qed.

Lemma has_tag_span_chars (text tag : string) :
  has_tag_span text tag
  <-> exists before inner after : list ascii,
        list_ascii_of_string text
        = before ++ open_tag (list_ascii_of_string tag) ++ inner
          ++ close_tag (list_ascii_of_string tag) ++ after.
Proof.
  unfold has_tag_span, open_tag, close_tag. split.
  - intros (b & i & a & ->).
    exists (list_ascii_of_string b), (list_ascii_of_string i),
      (list_ascii_of_string a).
    rewrite !list_ascii_of_string_app. cbn [list_ascii_of_string app].
    rewrite <- !app_assoc. reflexivity.
  - intros (b & i & a & E).
    exists (string_of_list_ascii b), (string_of_list_ascii i),
      (string_of_list_ascii a).
    rewrite <- (string_of_list_ascii_of_string text), E.
    rewrite !string_of_list_ascii_app. cbn [string_of_list_ascii app].
    rewrite !string_of_list_ascii_app, !string_of_list_ascii_of_string.
    cbn [string_of_list_ascii String.append].
    rewrite !string_append_assoc. reflexivity.
Qed.

(** What [re.findall] returns for the pattern of a plain tag. *)
Lemma re_findall_plain_tag (text tag : string) :
  plain_tag tag = true ->
  re_findall ("<" ++ tag ++ ">(.*?)</" ++ tag ++ ">") text
  = Some (map (fun groups => string_of_list_ascii (hd [] groups))
            (re_scan (tag_items (list_ascii_of_string tag))
               (list_ascii_of_string text) 0)).
Proof.
  intros Hp. unfold re_findall.
  rewrite (re_parse_tag_pattern tag Hp), re_groups_tag_items. reflexivity.
Qed.

(** For a tag without regex operators, [extract_tag_content] returns,
    and [found] tells whether the text holds a span [<tag>...</tag>];
    without a span the content is empty. *)
Theorem extract_tag_content_found (text tag : string) :
  plain_tag tag = true ->
  exists r : TagContentResult.t,
    extract_tag_content text tag = Some r
    /\ (TagContentResult.found r = true <-> has_tag_span text tag)
    /\ (TagContentResult.found r = false -> TagContentResult.content r = []).
Proof.
  intros Hp. unfold extract_tag_content.
  rewrite (re_findall_plain_tag text tag Hp).
  eexists. split; [reflexivity |]. cbn [TagContentResult.found
    TagContentResult.content].
  set (p := tag_items (list_ascii_of_string tag)).
  set (s := list_ascii_of_string text).
  split; [| destruct (re_scan p s 0); [reflexivity | discriminate]].
  rewrite has_tag_span_chars. fold s. split.
  - intros Hf.
    assert (Hne : re_scan p s 0 <> []).
    { destruct (re_scan p s 0); [discriminate Hf | discriminate]. }
    apply re_scan_sound in Hne as (pre & suf & -> & Hm).
    destruct (re_match p suf) as [[g r] |] eqn:E; [| contradiction].
    apply re_match_tag_items_sound in E as (x & _ & ->).
    now exists pre, x, r.
  - intros (b & i & a & E). rewrite E.
    assert (Hne : re_scan p (b ++ open_tag (list_ascii_of_string tag) ++ i
                    ++ close_tag (list_ascii_of_string tag) ++ a) 0 <> []).
    { apply re_scan_complete. apply re_match_tag_items_complete. }
    destruct (re_scan p _ 0); [contradiction | reflexivity].
Qed.

Lemma extract_tag_content_found_witness :
  exists r : TagContentResult.t,
    extract_tag_content "no tags" "a" = Some r
    /\ (TagContentResult.found r = true <-> has_tag_span "no tags" "a").
Proof.
  destruct (extract_tag_content_found "no tags" "a" eq_refl)
    as (r & E & H & _).
  now exists r.
Defined.

(** The examples of the specification. *)
Example extract_tag_content_two_spans :
  extract_tag_content "<a>x</a><a>y</a>" "a"
  = Some (TagContentResult.mk ["x"; "y"] true).
Proof. reflexivity. Qed.

Example extract_tag_content_no_tags :
  extract_tag_content "no tags" "a" = Some (TagContentResult.mk [] false).
Proof. reflexivity. Qed.

Example extract_tag_content_empty_text :
  extract_tag_content "" "a" = Some (TagContentResult.mk [] false).
Proof. reflexivity. Qed.

(** Where the pattern matches the empty text, [re.findall] reports the
    empty match and then a match that is not empty at the same place. *)
Example re_findall_empty_matches :
  re_findall "(.*?)" "ab" = Some [""; "a"; ""; "b"; ""].
Proof. reflexivity. Qed.

Lemma has_tag_span_In (text tag : string) (c : ascii) :
  has_tag_span text tag ->
  In c (list_ascii_of_string tag) -> In c (list_ascii_of_string text).
Proof.
  intros (b & i & a & ->) Hc. rewrite !list_ascii_of_string_app.
  apply in_or_app. right. cbn [list_ascii_of_string app]. right.
  apply in_or_app. now left.
Qed.

(** C6 at a tag that holds a dot.  The tag is put into the pattern
    unescaped, so its dot matches any character: with the tag [a.b] the
    text of the element [aXb] is returned and [found] is true, though the
    text holds no span [<a.b>...</a.b>]. *)
Theorem extract_tag_content_dot_tag :
  extract_tag_content "<aXb>x</aXb>" "a.b"
  = Some (TagContentResult.mk ["x"] true)
  /\ ~ has_tag_span "<aXb>x</aXb>" "a.b".
Proof.
  split; [reflexivity |].
  intros H. apply (has_tag_span_In _ _ "."%char) in H.
  - cbn in H. repeat (destruct H as [H | H]; [discriminate H |]). exact H.
  - cbn. right. now left.
Qed.

(** *** The content, for a tag without regex operators *)

(** The lazy group takes the shortest text after which the rest of the
    pattern matches. *)
Lemma re_lazy_any_minimal
    (k : list ascii -> option (list (list ascii) * list ascii))
    (s : list ascii) :
  forall (taken : list ascii) (groups : list (list ascii))
         (rest : list ascii),
    re_lazy_any k s taken = Some (groups, rest) ->
    exists x suf groups',
      s = x ++ suf /\ k suf = Some (groups', rest)
      /\ groups = (rev taken ++ x) :: groups'
      /\ forall x1 x2, x = x1 ++ x2 -> x2 <> [] -> k (x2 ++ suf) = None.
Proof.
  induction s as [| c s IH]; intros taken groups rest H; cbn [re_lazy_any] in H.
  - destruct (k []) as [[g r] |] eqn:Ek; [| discriminate H].
    injection H as <- <-. exists [], [], g. rewrite !app_nil_r.
    repeat split; try assumption.
    intros x1 x2 E Hx2. symmetry in E. apply app_eq_nil in E as [_ ->].
    now destruct Hx2.
  - destruct (k (c :: s)) as [[g r] |] eqn:Ek.
    + injection H as <- <-. exists [], (c :: s), g. rewrite !app_nil_r.
      repeat split; try assumption.
      intros x1 x2 E Hx2. symmetry in E. apply app_eq_nil in E as [_ ->].
      now destruct Hx2.
    + destruct (IH _ _ _ H) as (x & suf & g' & -> & Hk & -> & Hmin).
      exists (c :: x), suf, g'. cbn [rev]. rewrite <- app_assoc.
      repeat split; try assumption.
      intros x1 x2 E Hx2. destruct x1 as [| d x1].
      * cbn [app] in E. subst x2. exact Ek.
      * cbn [app] in E. injection E as _ E. now apply (Hmin x1 x2).
Qed.

Lemma re_match_close_tag (cl rest : list ascii) :
  re_match (map ReChar cl) (cl ++ rest) = Some ([], rest).
Proof.
  rewrite <- (app_nil_r (map ReChar cl)). apply re_match_chars.
  now exists rest.
Qed.

(** A match of the pattern of a tag ends at the first closing tag after
    its opening tag. *)
Lemma re_match_tag_items_minimal (tag s : list ascii)
    (groups : list (list ascii)) (rest : list ascii) :
  re_match (tag_items tag) s = Some (groups, rest) ->
  exists x,
    groups = [x] /\ s = open_tag tag ++ x ++ close_tag tag ++ rest
    /\ forall x1 x2 after,
         x = x1 ++ x2 -> x2 <> [] ->
         x2 ++ close_tag tag ++ rest <> close_tag tag ++ after.
Proof.
  unfold tag_items. intros H.
  apply re_match_chars in H as (s1 & -> & H). cbn [re_match] in H.
  apply re_lazy_any_minimal in H as (x & suf & g' & -> & Hk & -> & Hmin).
  rewrite <- (app_nil_r (map ReChar (close_tag tag))) in Hk.
  apply re_match_chars in Hk as (s2 & -> & Hk). cbn [re_match] in Hk.
  injection Hk as <- <-. exists x. repeat split.
  intros x1 x2 after E Hx2 Eq.
  specialize (Hmin x1 x2 E Hx2). rewrite Eq, re_match_close_tag in Hmin.
  discriminate Hmin.
Qed.

(** Either the pattern matches nowhere in the text, or there is a
    leftmost place where it does. *)
Lemma re_first_match (p : list re_item) (s : list ascii) :
  (forall pre suf, s = pre ++ suf -> re_match p suf = None)
  \/ exists pre suf groups rest,
       s = pre ++ suf /\ re_match p suf = Some (groups, rest)
       /\ forall pre1 pre2,
            pre = pre1 ++ pre2 -> pre2 <> [] ->
            re_match p (pre2 ++ suf) = None.
Proof.
  induction s as [| c s IH].
  - destruct (re_match p []) as [[g r] |] eqn:E.
    + right. exists [], [], g, r. repeat split; try assumption.
      intros pre1 pre2 E' Hne. symmetry in E'.
      apply app_eq_nil in E' as [_ ->]. now destruct Hne.
    + left. intros pre suf E'. symmetry in E'.
      apply app_eq_nil in E' as [_ ->]. exact E.
  - destruct (re_match p (c :: s)) as [[g r] |] eqn:E.
    + right. exists [], (c :: s), g, r. repeat split; try assumption.
      intros pre1 pre2 E' Hne. symmetry in E'.
      apply app_eq_nil in E' as [_ ->]. now destruct Hne.
    + destruct IH as [Hnone | (pre & suf & g & r & -> & Hm & Hfirst)].
      * left. intros pre suf E'. destruct pre as [| d pre].
        -- cbn [app] in E'. now subst suf.
        -- cbn [app] in E'. injection E' as _ E'. now apply (Hnone pre).
      * right. exists (c :: pre), suf, g, r. repeat split; try assumption.
        intros pre1 pre2 E' Hne. destruct pre1 as [| d pre1].
        -- cbn [app] in E'. subst pre2. exact E.
        -- cbn [app] in E'. injection E' as _ E'. now apply (Hfirst pre1).
Qed.

Lemma re_scan_nowhere (p : list re_item) (s : list ascii) :
  (forall pre suf, s = pre ++ suf -> re_match p suf = None) ->
  re_scan p s 0 = [].
Proof.
  intros Hnone. destruct (re_scan p s 0) as [| g l] eqn:E; [reflexivity |].
  assert (Hne : re_scan p s 0 <> []) by (rewrite E; discriminate).
  apply re_scan_sound in Hne as (pre & suf & -> & Hm).
  now rewrite (Hnone pre suf eq_refl) in Hm.
Qed.

(** The characters of a match are passed without being searched. *)
Lemma re_scan_skip (p : list re_item) (a rest : list ascii) :
  re_scan p (a ++ rest) (List.length a) = re_scan p rest 0.
Proof.
  induction a as [| c a IH]; [reflexivity | exact IH].
Qed.

(** After the leftmost match the scan goes on where the match ended. *)
Lemma re_scan_first (p : list re_item) (pre : list ascii) :
  forall (suf consumed rest : list ascii) (groups : list (list ascii)),
    (forall pre1 pre2,
        pre = pre1 ++ pre2 -> pre2 <> [] -> re_match p (pre2 ++ suf) = None) ->
    re_match p suf = Some (groups, rest) ->
    suf = consumed ++ rest -> consumed <> [] ->
    re_scan p (pre ++ suf) 0 = groups :: re_scan p rest 0.
Proof.
  induction pre as [| c pre IH]; intros suf consumed rest groups Hfirst Hm -> Hne.
  - destruct consumed as [| d consumed]; [now destruct Hne |].
    cbn [app re_scan]. cbn [app] in Hm. rewrite Hm.
    replace (List.length rest =? List.length (d :: consumed ++ rest))%nat
      with false
      by (symmetry; apply Nat.eqb_neq; cbn [List.length];
          rewrite length_app; lia).
    f_equal. cbn [List.length]. rewrite length_app.
    replace (S (List.length consumed + List.length rest)
             - List.length rest - 1)%nat
      with (List.length consumed) by lia.
    apply re_scan_skip.
  - cbn [app re_scan].
    pose proof (Hfirst [] (c :: pre) eq_refl ltac:(discriminate)) as H0.
    cbn [app] in H0. rewrite H0.
    apply (IH _ consumed); try assumption; try reflexivity.
    intros pre1 pre2 E Hpre2. apply (Hfirst (c :: pre1)); [| exact Hpre2].
    now rewrite E.
Qed.

Lemma app_eq_app_shorter {A : Type} (a b c d : list A) :
  a ++ b = c ++ d ->
  (List.length c < List.length a)%nat ->
  exists e, e <> [] /\ a = c ++ e /\ d = e ++ b.
Proof.
  intros E Hlt. apply app_eq_app in E as [l [[-> ->] | [-> ->]]].
  - exists l. repeat split. intros ->. rewrite app_nil_r in Hlt. lia.
  - rewrite length_app in Hlt. lia.
Qed.

Lemma app_eq_app_same_length {A : Type} (a b c d : list A) :
  a ++ b = c ++ d -> List.length a = List.length c -> a = c /\ b = d.
Proof.
  intros E Hlen. apply app_eq_app in E as [l [[-> ->] | [-> ->]]];
    rewrite length_app in Hlen;
    (destruct l; [now rewrite !app_nil_r | cbn in Hlen; lia]).
Qed.

(** The groups the scan collects for the pattern of a tag are the spans
    of the text. *)
Lemma re_scan_tag_spans (tag : list ascii) (n : nat) :
  forall s : list ascii,
    (List.length s <= n)%nat ->
    tag_spans (open_tag tag) (close_tag tag) s
      (map (hd []) (re_scan (tag_items tag) s 0)).
Proof.
  induction n as [| n IH]; intros s Hlen;
    destruct (re_first_match (tag_items tag) s)
      as [Hnone | (pre & suf & g & rest & -> & Hm & Hfirst)].
  - rewrite (re_scan_nowhere _ _ Hnone). constructor.
    intros b i a ->.
    apply (re_match_tag_items_complete tag i a). now apply (Hnone b).
  - exfalso. apply re_match_tag_items_sound in Hm as (x & _ & ->).
    rewrite !length_app in Hlen. unfold open_tag in Hlen.
    cbn [List.length] in Hlen. lia.
  - rewrite (re_scan_nowhere _ _ Hnone). constructor.
    intros b i a ->.
    apply (re_match_tag_items_complete tag i a). now apply (Hnone b).
  - pose proof Hm as Hm'.
    apply re_match_tag_items_minimal in Hm' as (x & -> & -> & Hmin).
    rewrite (re_scan_first _ pre _
               (open_tag tag ++ x ++ close_tag tag) rest [x] Hfirst Hm).
    + cbn [map hd]. apply tag_spans_next.
      * intros b' i' a' E. split.
        -- destruct (Nat.le_gt_cases (List.length pre) (List.length b'))
             as [Hle | Hgt]; [exact Hle | exfalso].
           destruct (app_eq_app_shorter _ _ _ _ E Hgt)
             as (pre2 & Hpre2 & -> & E2).
           pose proof (Hfirst b' pre2 eq_refl Hpre2) as Hno.
           rewrite <- E2 in Hno.
           now apply (re_match_tag_items_complete tag i' a').
        -- intros Hsame.
           destruct (Nat.le_gt_cases (List.length x) (List.length i'))
             as [Hle | Hgt]; [exact Hle | exfalso].
           destruct (app_eq_app_same_length _ _ _ _ E (eq_sym Hsame))
             as [_ E1].
           apply app_inv_head in E1.
           destruct (app_eq_app_shorter _ _ _ _ E1 Hgt)
             as (x2 & Hx2 & -> & E2).
           now apply (Hmin i' x2 a' eq_refl Hx2).
      * apply IH. rewrite !length_app in Hlen. unfold open_tag in Hlen.
        cbn [List.length] in Hlen. lia.
    + now rewrite <- !app_assoc.
    + unfold open_tag. discriminate.
Qed.

(** For a tag without regex operators, [extract_tag_content] returns the
    trimmed inner texts of the spans [<tag>...</tag>] of the text, in
    order, and [found] tells whether there is one. *)
Theorem extract_tag_content_spans (text tag : string) :
  plain_tag tag = true ->
  exists spans : list (list ascii),
    tag_spans (open_tag (list_ascii_of_string tag))
      (close_tag (list_ascii_of_string tag))
      (list_ascii_of_string text) spans
    /\ extract_tag_content text tag
       = Some (TagContentResult.mk
                 (map (fun inner => strip (string_of_list_ascii inner)) spans)
                 (match spans with [] => false | _ :: _ => true end)).
Proof.
  intros Hp.
  exists (map (hd []) (re_scan (tag_items (list_ascii_of_string tag))
                         (list_ascii_of_string text) 0)).
  split.
  - now apply (re_scan_tag_spans _ (List.length (list_ascii_of_string text))).
  - unfold extract_tag_content. rewrite (re_findall_plain_tag text tag Hp).
    rewrite !map_map.
    destruct (re_scan _ _ 0); reflexivity.
Qed.

Lemma extract_tag_content_spans_witness :
  exists spans : list (list ascii),
    tag_spans (open_tag ["a"%char]) (close_tag ["a"%char])
      (list_ascii_of_string "<a>x</a><a>y</a>") spans
    /\ extract_tag_content "<a>x</a><a>y</a>" "a"
       = Some (TagContentResult.mk
                 (map (fun inner => strip (string_of_list_ascii inner)) spans)
                 (match spans with [] => false | _ :: _ => true end)).
Proof.
  exact (extract_tag_content_spans "<a>x</a><a>y</a>" "a" eq_refl).
Defined.

(** ** Tool signatures and argument validation *)

Section ToolProperties.

Context {floats : PyFloat} {library : PyLibrary}.

Lemma traverse_app {A B : Type} (f : A -> result B) (l1 l2 : list A) :
  traverse f (l1 ++ l2)
  = (ys1 <- traverse f l1 ;; ys2 <- traverse f l2 ;; Ok (ys1 ++ ys2))%result.
Proof.
  induction l1 as [| x l1 IH]; cbn [app traverse rbind].
  - destruct (traverse f l2); reflexivity.
  - destruct (f x) as [y | e]; cbn [rbind]; [| reflexivity].
    rewrite IH. destruct (traverse f l1) as [ys1 | e]; cbn [rbind];
      [| reflexivity].
    destruct (traverse f l2); reflexivity.
Qed.

(** *** [get_fn_signature] *)

(** The entries of [__annotations__] that pass the test [k != "return"]
    are the annotated parameters. *)
Lemma annotations_without_return (fn : PyFunction) :
  ~ In "return" (map fst (parameters fn)) ->
  filter (fun kv => negb (String.eqb (fst kv) "return")) (__annotations__ fn)
  = flat_map (fun p => match snd p with
                       | Some a => [(fst p, a)]
                       | None => []
                       end) (parameters fn).
Proof.
  intros Hret. unfold __annotations__. rewrite filter_app.
  replace (filter _ (match returns fn with
                     | Some a => [("return", a)]
                     | None => []
                     end)) with (@nil (string * Annotation))
    by (destruct (returns fn); reflexivity).
  rewrite app_nil_r.
  induction (parameters fn) as [| [k [a |]] ps IH]; [reflexivity | |].
  - cbn [flat_map app filter fst snd map In] in *.
    destruct (String.eqb_spec k "return") as [-> | _]; [tauto |].
    cbn [negb]. f_equal. apply IH. tauto.
  - cbn [flat_map app map In fst snd] in *. apply IH. tauto.
Qed.

Lemma traverse_annotations (ps : list (string * option Annotation)) :
  Forall (fun p => snd p <> Some ANameless) ps ->
  traverse
    (fun kv : string * Annotation =>
       (name <- annotation_name (snd kv) ;;
        Ok (fst kv, VDict [("type", VStr name)]))%result)
    (flat_map (fun p => match snd p with
                        | Some a => [(fst p, a)]
                        | None => []
                        end) ps)
  = Ok (flat_map (fun p => match snd p with
                           | Some (AClass T) =>
                               [(fst p, VDict [("type", VStr T)])]
                           | _ => []
                           end) ps).
Proof.
  induction 1 as [| [k [[T |] |]] ps Hp _ IH]; cbn [flat_map app fst snd].
  - reflexivity.
  - cbn [traverse annotation_name rbind fst snd]. now rewrite IH.
  - now destruct Hp.
  - exact IH.
Qed.

(** C9, as amended.  For a function whose parameter annotations are
    classes, [get_fn_signature] returns a signature with the name and the
    docstring of the function and one property for each annotated
    parameter, in order, holding the name of its annotation; parameters
    without annotation and the annotation of the result are left out.
    When every declared parameter is annotated with one of [int], [str],
    [bool], [float], the properties are exactly the declared parameters,
    each with the name of its primitive type. *)
Theorem get_fn_signature_schema (fn : PyFunction) :
  ~ In "return" (map fst (parameters fn)) ->
  Forall (fun p => snd p <> Some ANameless) (parameters fn) ->
  get_fn_signature fn
  = Ok (VDict
          [("name", VStr (__name__ fn));
           ("description",
            match __doc__ fn with Some d => VStr d | None => VNone end);
           ("parameters",
            VDict [("properties", VDict (annotated_properties fn))])])
  /\ (Forall (fun p => exists T, snd p = Some (AClass T)
                                 /\ In T primitive_types) (parameters fn) ->
      exists signature,
        get_fn_signature fn = Ok signature /\ declared_schema fn signature).
Proof.
  intros Hret Hnamed.
  assert (E : get_fn_signature fn
    = Ok (VDict
            [("name", VStr (__name__ fn));
             ("description",
              match __doc__ fn with Some d => VStr d | None => VNone end);
             ("parameters",
              VDict [("properties", VDict (annotated_properties fn))])])).
  { unfold get_fn_signature.
    rewrite (annotations_without_return fn Hret).
    rewrite (traverse_annotations _ Hnamed). reflexivity. }
  split; [exact E |].
  intros Hprim. eexists. split; [exact E |].
  exists (annotated_properties fn). split; [reflexivity |].
  unfold annotated_properties. clear E Hret Hnamed.
  induction Hprim as [| [k a] ps (T & Ha & HT) _ IH].
  - constructor.
  - cbn [snd] in Ha. subst a. cbn [flat_map app fst snd].
    constructor; [| exact IH].
    cbn [fst snd]. split; [reflexivity |]. now exists T.
Qed.

(** *** [validate_arguments] *)

Lemma dict_get_set_same {V : Type} (d : list (string * V)) (k : string)
    (v : V) :
  dict_get (dict_set d k v) k = Some v.
Proof.
  induction d as [| [k' v'] d IH]; cbn [dict_set dict_get].
  - now rewrite String.eqb_refl.
  - destruct (String.eqb k' k) eqn:E; cbn [dict_get]; rewrite E;
      [reflexivity | exact IH].
Qed.

Lemma dict_get_not_in {V : Type} (d : list (string * V)) (k : string) :
  ~ In k (map fst d) -> dict_get d k = None.
Proof.
  induction d as [| [k' v'] d IH]; intros Hk; [reflexivity |].
  cbn [dict_get map fst In] in *.
  destruct (String.eqb_spec k' k) as [-> | _]; [tauto |]. apply IH. tauto.
Qed.

(** The item of a key that a dict holds, and the items before it. *)
Lemma dict_get_split {V : Type} (d : list (string * V)) (k : string) (v : V) :
  dict_get d k = Some v ->
  exists pre post, d = pre ++ (k, v) :: post /\ ~ In k (map fst pre).
Proof.
  induction d as [| [k' v'] d IH]; intros H; [discriminate H |].
  cbn [dict_get] in H. destruct (String.eqb_spec k' k) as [-> | Hne].
  - injection H as ->. exists [], d. split; [reflexivity | intros []].
  - destruct (IH H) as (pre & post & -> & Hpre).
    exists ((k', v') :: pre), post. split; [reflexivity |].
    cbn [map fst In]. tauto.
Qed.

(** Setting a key that the items before do not hold changes its item
    where it stands. *)
Lemma dict_set_app {V : Type} (pre post : list (string * V)) (k : string)
    (w v : V) :
  ~ In k (map fst pre) ->
  dict_set (pre ++ (k, w) :: post) k v = pre ++ (k, v) :: post.
Proof.
  induction pre as [| [k' v'] pre IH]; intros Hk; cbn [app dict_set].
  - now rewrite String.eqb_refl.
  - cbn [map fst In] in Hk.
    destruct (String.eqb_spec k' k) as [-> | _]; [tauto |].
    rewrite IH by tauto. reflexivity.
Qed.

(** On a dict, whose keys are distinct, the loop converts the items one
    after the other and stops at the first conversion that raises. *)
Lemma validate_loop_traverse (properties : PyVal)
    (todo : list (string * PyVal)) :
  forall done : list (string * PyVal),
    NoDup (map fst (done ++ todo)) ->
    validate_loop properties todo (done ++ todo)
    = (vs <- traverse (coerce_item properties) todo ;; Ok (done ++ vs))%result.
Proof.
  induction todo as [| [k w] todo IH]; intros done Hnd.
  - reflexivity.
  - cbn [validate_loop traverse]. unfold coerce_item at 1. cbn [fst snd].
    destruct (coerce_argument properties k w) as [v | e]; cbn [rbind];
      [| reflexivity].
    assert (Hk : ~ In k (map fst done)).
    { rewrite map_app in Hnd. cbn [map fst] in Hnd.
      apply NoDup_remove_2 in Hnd. intros Hin. apply Hnd.
      apply in_or_app. now left. }
    rewrite (dict_set_app done todo k w v Hk).
    change (done ++ (k, v) :: todo) with (done ++ [(k, v)] ++ todo).
    rewrite app_assoc, IH.
    + destruct (traverse (coerce_item properties) todo) as [vs | e];
        cbn [rbind]; [| reflexivity].
      now rewrite <- app_assoc.
    + rewrite <- app_assoc. cbn [app].
      rewrite map_app in *. exact Hnd.
Qed.

(** When every conversion returns, so does the traversal, and each
    argument is found converted under its name. *)
Lemma traverse_coerce_ok (properties : PyVal) (l : list (string * PyVal)) :
  (forall k w, In (k, w) l -> is_ok (coerce_argument properties k w) = true) ->
  exists vs,
    traverse (coerce_item properties) l = Ok vs
    /\ forall k w, dict_get l k = Some w ->
         exists v, coerce_argument properties k w = Ok v
                   /\ dict_get vs k = Some v.
Proof.
  induction l as [| [k0 w0] l IH]; intros Hall.
  - exists []. split; [reflexivity | discriminate].
  - destruct IH as (vs & E & Hvs).
    { intros k w Hin. apply Hall. now right. }
    pose proof (Hall k0 w0 (or_introl eq_refl)) as H0.
    destruct (coerce_argument properties k0 w0) as [v0 |] eqn:E0;
      [| discriminate H0].
    exists ((k0, v0) :: vs). split.
    + cbn [traverse]. unfold coerce_item at 1. cbn [fst snd].
      rewrite E0. cbn [rbind]. rewrite E. reflexivity.
    + intros k w Hget. cbn [dict_get] in *.
      destruct (String.eqb_spec k0 k) as [-> | _].
      * injection Hget as <-. now exists v0.
      * now apply Hvs.
Qed.

(** A conversion that raises makes the traversal raise. *)
Lemma traverse_coerce_raises (properties : PyVal)
    (pre post : list (string * PyVal)) (k : string) (w : PyVal) (e : Exn) :
  coerce_argument properties k w = Raise e ->
  is_ok (traverse (coerce_item properties) (pre ++ (k, w) :: post)) = false
  /\ ((forall k' w', In (k', w') pre ->
         is_ok (coerce_argument properties k' w') = true) ->
      traverse (coerce_item properties) (pre ++ (k, w) :: post) = Raise e).
Proof.
  intros E.
  assert (Hk : traverse (coerce_item properties) ((k, w) :: post) = Raise e).
  { cbn [traverse]. unfold coerce_item at 1. cbn [fst snd].
    now rewrite E. }
  rewrite traverse_app, Hk. split.
  - destruct (traverse (coerce_item properties) pre); reflexivity.
  - intros Hpre.
    destruct (traverse_coerce_ok properties pre Hpre) as (vs & Epre & _).
    rewrite Epre. reflexivity.
Qed.

(** What [validate_arguments] does on a tool call that is a dict with a
    dict of arguments, against a signature that has properties. *)
Lemma validate_arguments_traverse (tool_call tool_signature properties : PyVal)
    (d args : list (string * PyVal)) :
  tool_call = VDict d ->
  dict_get d "arguments" = Some (VDict args) ->
  NoDup (map fst args) ->
  (params <- py_getitem tool_signature "parameters" ;;
   py_getitem params "properties")%result = Ok properties ->
  validate_arguments tool_call tool_signature
  = (vs <- traverse (coerce_item properties) args ;;
     Ok (VDict (dict_set d "arguments" (VDict vs))))%result.
Proof.
  intros -> Hargs Hnd Hsig. unfold validate_arguments.
  destruct (py_getitem tool_signature "parameters") as [params | e];
    cbn [rbind] in *; [| discriminate Hsig].
  rewrite Hsig. cbn [rbind py_getitem]. rewrite Hargs. cbn [rbind py_items].
  pose proof (validate_loop_traverse properties args [] Hnd) as Hloop.
  cbn [app] in Hloop. rewrite Hloop.
  destruct (traverse (coerce_item properties) args); reflexivity.
Qed.

(** *** [int] on texts *)

Lemma digit_value_is_digit (c : ascii) :
  digit_value c
  = if is_digit c then Some (Z.of_nat (nat_of_ascii c) - 48) else None.
Proof. reflexivity. Qed.

(** Whitespace is no digit, no underscore and no sign. *)
Lemma int_space_other (c : ascii) :
  int_space c = true ->
  is_digit c = false /\ Ascii.eqb c "_" = false
  /\ int_sign [c] = (false, [c]).
Proof.
  destruct c as [[] [] [] [] [] [] [] []]; intros H;
    try discriminate H; repeat split.
Qed.

Lemma is_digit_other (c : ascii) :
  is_digit c = true ->
  int_space c = false /\ forall l, int_sign (c :: l) = (false, c :: l).
Proof.
  destruct c as [[] [] [] [] [] [] [] []]; intros H;
    try discriminate H; split; reflexivity.
Qed.

(** [int] passes over the whitespace of the documentation. *)
Lemma int_space_whitespace (c : ascii) :
  int_space c = true <-> In c int_whitespace.
Proof.
  destruct c as [[] [] [] [] [] [] [] []]; vm_compute; split; intros H;
    try discriminate H; intuition congruence.
Qed.

Lemma int_spaces_whitespace (l : list ascii) :
  Forall (fun c => In c int_whitespace) l <-> forallb int_space l = true.
Proof.
  rewrite forallb_forall, Forall_forall.
  split; intros H c Hc; apply int_space_whitespace; now apply H.
Qed.

Lemma int_skip_spaces_app (before rest : list ascii) :
  forallb int_space before = true ->
  int_skip_spaces (before ++ rest) = int_skip_spaces rest.
Proof.
  induction before as [| c before IH]; [reflexivity |].
  cbn [forallb app int_skip_spaces]. intros H.
  apply andb_true_iff in H as [-> H]. now apply IH.
Qed.

Lemma int_skip_spaces_all (s : list ascii) :
  int_skip_spaces s = [] <-> forallb int_space s = true.
Proof.
  induction s as [| c s IH]; [now split |].
  cbn [int_skip_spaces forallb]. destruct (int_space c); cbn [andb].
  - exact IH.
  - split; discriminate.
Qed.

Lemma int_skip_spaces_split (s : list ascii) :
  exists before,
    s = before ++ int_skip_spaces s /\ forallb int_space before = true.
Proof.
  induction s as [| c s (before & E & H)]; [now exists [] |].
  cbn [int_skip_spaces]. destruct (int_space c) eqn:Ec.
  - exists (c :: before). cbn [app forallb]. rewrite Ec, H.
    now rewrite <- E.
  - now exists [].
Qed.

Lemma int_digits_end (rest : list ascii) (acc : Z) (k : nat) :
  digits_end rest -> int_digits rest acc k true = Some (acc, k, rest).
Proof.
  destruct rest as [| c rest]; [reflexivity |].
  intros [Hd Hu]. cbn [int_digits].
  now rewrite digit_value_is_digit, Hd, Hu.
Qed.

Lemma int_digits_complete (body digits : list ascii) :
  digit_groups body digits ->
  forall (rest : list ascii) (acc : Z) (k : nat) (after_digit : bool),
    digits_end rest ->
    int_digits (body ++ rest) acc k after_digit
    = Some (fold_left
              (fun acc c => 10 * acc + (Z.of_nat (nat_of_ascii c) - 48))
              digits acc,
            (k + List.length digits)%nat, rest).
Proof.
  induction 1 as [c Hc | c s digits Hc _ IH | c s digits Hc _ IH];
    intros rest acc k after_digit Hend;
    cbn [app int_digits fold_left List.length];
    rewrite digit_value_is_digit, Hc.
  - rewrite (int_digits_end _ _ _ Hend).
    now rewrite Nat.add_succ_r, Nat.add_0_r.
  - rewrite (IH _ _ _ _ Hend). now rewrite Nat.add_succ_r.
  - cbn [int_digits]. change (digit_value "_") with (@None Z).
    cbn [Ascii.eqb Bool.eqb]. rewrite (IH _ _ _ _ Hend).
    now rewrite Nat.add_succ_r.
Qed.

Lemma int_digits_sound (s : list ascii) :
  forall (acc : Z) (k : nat) (after_digit : bool) (v : Z) (n : nat)
         (rest : list ascii),
    int_digits s acc k after_digit = Some (v, n, rest) ->
    exists t digits,
      s = t ++ rest
      /\ v = fold_left
               (fun acc c => 10 * acc + (Z.of_nat (nat_of_ascii c) - 48))
               digits acc
      /\ n = (k + List.length digits)%nat
      /\ (digit_groups t digits
          \/ after_digit = true
             /\ (t = [] /\ digits = []
                 \/ exists t', t = "_"%char :: t' /\ digit_groups t' digits)).
Proof.
  induction s as [| c s IH]; intros acc k after_digit v n rest H;
    cbn [int_digits] in H.
  - destruct after_digit; [| discriminate H]. injection H as <- <- <-.
    exists [], []. repeat split; [cbn; lia |]. right. split; [reflexivity |].
    now left.
  - rewrite digit_value_is_digit in H. destruct (is_digit c) eqn:Hc.
    + destruct (IH _ _ _ _ _ _ H) as (t & digits & -> & -> & -> & Hg).
      exists (c :: t), (c :: digits). repeat split; [cbn; lia |]. left.
      destruct Hg as [Hg | (_ & [[-> ->] | (t' & -> & Hg)])].
      * now apply digit_groups_digit.
      * now apply digit_groups_last.
      * now apply digit_groups_underscore.
    + destruct (Ascii.eqb_spec c "_") as [-> | Hu].
      * destruct after_digit; [| discriminate H].
        destruct (IH _ _ _ _ _ _ H)
          as (t & digits & -> & -> & -> & [Hg | (Hf & _)]);
          [| discriminate Hf].
        exists ("_"%char :: t), digits. repeat split. right.
        split; [reflexivity |]. right. now exists t.
      * destruct after_digit; [| discriminate H]. injection H as <- <- <-.
        exists [], []. repeat split; [cbn; lia |]. right.
        split; [reflexivity |]. now left.
Qed.

Lemma digit_groups_head (body digits : list ascii) :
  digit_groups body digits ->
  exists c t, body = c :: t /\ is_digit c = true.
Proof. destruct 1 as [c Hc | c s d Hc _ | c s d Hc _]; eauto. Qed.

(** The text of an integer is converted to it, unless it has more digits
    than the limit allows. *)
Lemma int_of_str_integer_text (max_str_digits : nat) (s : string) (z : Z)
    (n : nat) :
  integer_text s z n ->
  int_of_str max_str_digits s
  = if ((640 <? n) && (0 <? max_str_digits) && (max_str_digits <? n))%nat
    then Raise ValueError else Ok z.
Proof.
  intros (before & sign & body & digits & after & E & Hb & Ha & Hg & -> & Hs).
  apply int_spaces_whitespace in Hb, Ha.
  destruct (digit_groups_head _ _ Hg) as (c & t & Ebody & Hc).
  destruct (is_digit_other c Hc) as [Hspace Hsign].
  assert (Hend : digits_end after).
  { destruct after as [| x after]; [exact I |]. cbn [forallb] in Ha.
    apply andb_true_iff in Ha as [Hx _].
    destruct (int_space_other x Hx) as (Hd & Hu & _). now split. }
  assert (Hsigned :
    int_sign (int_skip_spaces (list_ascii_of_string s))
    = (match sign with "-"%char :: _ => true | _ => false end,
       body ++ after)).
  { rewrite E, (int_skip_spaces_app _ _ Hb).
    destruct Hs as [[[-> | ->] _] | [-> _]]; cbn [app].
    - rewrite Ebody. cbn [app int_skip_spaces]. rewrite Hspace.
      apply Hsign.
    - reflexivity.
    - reflexivity. }
  unfold int_of_str. rewrite Hsigned. cbn [fst snd].
  rewrite (int_digits_complete _ _ Hg _ 0 0%nat false Hend).
  cbn [Nat.add].
  destruct ((640 <? List.length digits) && (0 <? max_str_digits)
            && (max_str_digits <? List.length digits))%nat; [reflexivity |].
  rewrite (proj2 (int_skip_spaces_all after) Ha).
  destruct Hs as [[[-> | ->] ->] | [-> ->]]; reflexivity.
Qed.

(** What [int] converts is the text of an integer, and all it raises is
    [ValueError]. *)
Lemma int_of_str_returns (max_str_digits : nat) (s : string) :
  match int_of_str max_str_digits s with
  | Ok z => exists n, integer_text s z n
  | Raise e => e = ValueError
  end.
Proof.
  unfold int_of_str.
  destruct (int_skip_spaces_split (list_ascii_of_string s))
    as (before & E & Hb).
  set (stripped := int_skip_spaces (list_ascii_of_string s)) in *.
  assert (Hsign : exists sign,
            stripped = sign ++ snd (int_sign stripped)
            /\ ((sign = [] \/ sign = ["+"%char])
                /\ fst (int_sign stripped) = false
                \/ sign = ["-"%char] /\ fst (int_sign stripped) = true)).
  { destruct stripped as [| c l]; [exists []; split; [reflexivity | now left; split; [left |]] |].
    destruct (Ascii.eqb_spec c "-") as [-> | Hm];
      [exists ["-"%char]; split; [reflexivity | now right] |].
    destruct (Ascii.eqb_spec c "+") as [-> | Hp];
      [exists ["+"%char]; split; [reflexivity | left; split; [now right | reflexivity]] |].
    exists [].
    assert (Es : int_sign (c :: l) = (false, c :: l)).
    { destruct c as [[] [] [] [] [] [] [] []]; try reflexivity;
        [now destruct Hp | now destruct Hm]. }
    rewrite Es. split; [reflexivity | left; split; [now left | reflexivity]]. }
  destruct Hsign as (sign & Estripped & Hsign).
  destruct (int_digits (snd (int_sign stripped)) 0 0 false)
    as [[[value digits] rest] |] eqn:Ed; [| reflexivity].
  destruct ((640 <? digits) && (0 <? max_str_digits)
            && (max_str_digits <? digits))%nat; [reflexivity |].
  destruct (int_skip_spaces rest) eqn:Er; [| reflexivity].
  apply int_digits_sound in Ed
    as (t & ds & Et & -> & -> & [Hg | (Hf & _)]); [| discriminate Hf].
  exists (0 + List.length ds)%nat, before, sign, t, ds, rest.
  repeat split.
  - now rewrite E, Estripped, Et at 1.
  - now apply int_spaces_whitespace.
  - now apply int_spaces_whitespace, int_skip_spaces_all.
  - exact Hg.
  - destruct Hsign as [[Hs ->] | [Hs ->]]; [left | right]; now split.
Qed.

(** Conversions to a declared [int]. *)
Lemma coerce_argument_int (properties : PyVal) (a : string) (v : PyVal) :
  (property <- py_getitem properties a ;; py_get property "type")%result
  = Ok (VStr "int") ->
  coerce_argument properties a v
  = if isinstance v TInt then Ok v else py_int v.
Proof.
  intros Hdecl. unfold coerce_argument.
  destruct (py_getitem properties a) as [property | e]; cbn [rbind] in *;
    [| discriminate Hdecl].
  rewrite Hdecl. cbn [rbind].
  change (type_mapping (VStr "int")) with (Ok TInt). cbn [rbind construct].
  destruct (isinstance v TInt); reflexivity.
Qed.

Lemma abc_non_numeric : non_numeric "abc".
Proof.
  intros z n H. apply (int_of_str_integer_text 0) in H.
  rewrite andb_false_r in H. discriminate H.
Qed.

Lemma five_integer_text : integer_text "5" 5 1.
Proof.
  exists [], [], ["5"%char], ["5"%char], [].
  split; [reflexivity |]. split; [constructor |]. split; [constructor |].
  split; [now apply digit_groups_last |]. split; [reflexivity |].
  left. split; [now left | reflexivity].
Qed.

(** [int] on a text that is not numeric. *)
Lemma py_int_non_numeric (s : string) :
  non_numeric s -> py_int (VStr s) = Raise ValueError.
Proof.
  intros Hnon. cbn [py_int].
  pose proof (int_of_str_returns int_max_str_digits s) as H.
  destruct (int_of_str int_max_str_digits s) as [z | e]; cbn [rbind].
  - destruct H as (n & H). now destruct (Hnon z n).
  - now rewrite H.
Qed.

(** C7. A tool call whose argument [a] is declared [int] by the
    signature.  If the value supplied is a text that is not numeric, as
    the text ["abc"], validation raises; it raises [ValueError] when the
    other arguments convert.  When they do: the text of an integer, as
    the text ["5"], becomes that integer, unless it has more digits than
    the limit on such conversions allows, which raises [ValueError]; and
    a value that is already an [int] is left as it is. *)
Theorem validate_arguments_int (tool_call tool_signature properties : PyVal)
    (d args : list (string * PyVal)) (a : string) (v : PyVal) :
  tool_call = VDict d ->
  dict_get d "arguments" = Some (VDict args) ->
  NoDup (map fst args) ->
  (params <- py_getitem tool_signature "parameters" ;;
   py_getitem params "properties")%result = Ok properties ->
  (property <- py_getitem properties a ;; py_get property "type")%result
  = Ok (VStr "int") ->
  dict_get args a = Some v ->
  (forall s, v = VStr s -> non_numeric s ->
     is_ok (validate_arguments tool_call tool_signature) = false)
  /\ (v = VStr "abc" ->
      is_ok (validate_arguments tool_call tool_signature) = false)
  /\ ((forall b w, In (b, w) args -> b <> a ->
         is_ok (coerce_argument properties b w) = true) ->
      (forall s, v = VStr s -> non_numeric s ->
         validate_arguments tool_call tool_signature = Raise ValueError)
      /\ (v = VStr "abc" ->
          validate_arguments tool_call tool_signature = Raise ValueError)
      /\ (forall s z n, v = VStr s -> integer_text s z n ->
            (n <= 640 \/ int_max_str_digits = 0
             \/ n <= int_max_str_digits)%nat ->
            exists validated,
              validate_arguments tool_call tool_signature = Ok validated
              /\ (arguments <- py_getitem validated "arguments" ;;
                  py_getitem arguments a)%result = Ok (VInt z))
      /\ (forall s z n, v = VStr s -> integer_text s z n ->
            (640 < n /\ 0 < int_max_str_digits < n)%nat ->
            validate_arguments tool_call tool_signature = Raise ValueError)
      /\ (v = VStr "5" ->
          exists validated,
            validate_arguments tool_call tool_signature = Ok validated
            /\ (arguments <- py_getitem validated "arguments" ;;
                py_getitem arguments a)%result = Ok (VInt 5))
      /\ (isinstance v TInt = true ->
          exists validated,
            validate_arguments tool_call tool_signature = Ok validated
            /\ (arguments <- py_getitem validated "arguments" ;;
                py_getitem arguments a)%result = Ok v)).
Proof.
  intros Htc Hargs Hnd Hsig Hdecl Hv.
  rewrite (validate_arguments_traverse _ _ _ _ _ Htc Hargs Hnd Hsig).
  pose proof (coerce_argument_int properties a v Hdecl) as Hco.
  destruct (dict_get_split args a v Hv) as (pre & post & -> & Hpre).
  assert (Hnon : forall s, v = VStr s -> non_numeric s ->
                 coerce_argument properties a v = Raise ValueError).
  { intros s -> Hs. rewrite Hco. cbn [isinstance].
    now apply py_int_non_numeric. }
  assert (Hnot : forall s, v = VStr s -> non_numeric s ->
            is_ok (vs <- traverse (coerce_item properties)
                           (pre ++ (a, v) :: post) ;;
                   Ok (VDict (dict_set d "arguments" (VDict vs))))%result
            = false).
  { intros s Hv' Hs.
    destruct (traverse_coerce_raises properties pre post a v ValueError
                (Hnon s Hv' Hs)) as [Hraise _].
    destruct (traverse _ _); [discriminate Hraise | reflexivity]. }
  split; [exact Hnot |].
  split; [intros Hv'; exact (Hnot "abc" Hv' abc_non_numeric) |].
  intros Hothers.
  assert (Hpre_ok : forall k' w', In (k', w') pre ->
            is_ok (coerce_argument properties k' w') = true).
  { intros k' w' Hin. apply Hothers.
    - apply in_or_app. now left.
    - intros ->. apply Hpre. now apply (in_map fst) in Hin. }
  assert (Hraises : forall e,
            coerce_argument properties a v = Raise e ->
            (vs <- traverse (coerce_item properties)
                     (pre ++ (a, v) :: post) ;;
             Ok (VDict (dict_set d "arguments" (VDict vs))))%result
            = Raise e).
  { intros e He.
    destruct (traverse_coerce_raises properties pre post a v e He)
      as [_ Hraise].
    now rewrite (Hraise Hpre_ok). }
  assert (Hreturns : forall v',
            coerce_argument properties a v = Ok v' ->
            exists validated,
              (vs <- traverse (coerce_item properties)
                       (pre ++ (a, v) :: post) ;;
               Ok (VDict (dict_set d "arguments" (VDict vs))))%result
              = Ok validated
              /\ (arguments <- py_getitem validated "arguments" ;;
                  py_getitem arguments a)%result = Ok v').
  { intros v' Hok.
    destruct (traverse_coerce_ok properties (pre ++ (a, v) :: post))
      as (vs & -> & Hvs).
    { intros k w Hin. destruct (String.eqb_spec k a) as [-> | Hne].
      - apply in_app_or in Hin as [Hin | [Hin | Hin]].
        + exfalso. apply Hpre. now apply (in_map fst) in Hin.
        + injection Hin as <-. now rewrite Hok.
        + exfalso. rewrite map_app in Hnd. cbn [map fst] in Hnd.
          apply NoDup_remove_2 in Hnd. apply Hnd.
          apply in_or_app. right. now apply (in_map fst) in Hin.
      - apply Hothers; [exact Hin | exact Hne]. }
    destruct (Hvs a v Hv) as (v'' & Hv'' & Hget).
    rewrite Hok in Hv''. injection Hv'' as <-.
    eexists. split; [reflexivity |].
    cbn [rbind py_getitem]. rewrite dict_get_set_same. cbn [rbind py_getitem].
    now rewrite Hget. }
  assert (Htext : forall s z n, v = VStr s -> integer_text s z n ->
            coerce_argument properties a v
            = if ((640 <? n) && (0 <? int_max_str_digits)
                  && (int_max_str_digits <? n))%nat
              then Raise ValueError else Ok (VInt z)).
  { intros s z n -> Hs. rewrite Hco. cbn [isinstance py_int].
    rewrite (int_of_str_integer_text _ _ _ _ Hs).
    now destruct (_ && _ && _). }
  repeat split.
  - intros s Hv' Hs. apply Hraises. now apply (Hnon s).
  - intros Hv'. apply Hraises. now apply (Hnon "abc" Hv' abc_non_numeric).
  - intros s z n Hv' Hs Hlimit. apply Hreturns.
    rewrite (Htext s z n Hv' Hs).
    replace ((640 <? n) && (0 <? int_max_str_digits)
             && (int_max_str_digits <? n))%nat with false; [reflexivity |].
    symmetry. apply andb_false_iff.
    destruct Hlimit as [H | [H | H]].
    + left. apply andb_false_iff. left. apply Nat.ltb_ge. lia.
    + left. apply andb_false_iff. right. apply Nat.ltb_ge. lia.
    + right. apply Nat.ltb_ge. lia.
  - intros s z n Hv' Hs (H640 & H0 & Hmax). apply Hraises.
    rewrite (Htext s z n Hv' Hs).
    replace ((640 <? n) && (0 <? int_max_str_digits)
             && (int_max_str_digits <? n))%nat with true; [reflexivity |].
    symmetry. rewrite !andb_true_iff. repeat split; apply Nat.ltb_lt; lia.
  - intros Hv'. apply Hreturns.
    rewrite (Htext "5" 5 1%nat Hv' five_integer_text). reflexivity.
  - intros Hinst. apply Hreturns. rewrite Hco, Hinst. reflexivity.
Qed.

End ToolProperties.

Lemma get_fn_signature_schema_witness :
  get_fn_signature (floats := example_floats) add_function = Ok add_signature
  /\ exists signature,
       get_fn_signature (floats := example_floats) add_function = Ok signature
       /\ declared_schema add_function signature.
Proof.
  destruct (get_fn_signature_schema (floats := example_floats) add_function)
    as [E H].
  - cbn. intros [H | [H | []]]; discriminate H.
  - repeat constructor; discriminate.
  - split; [exact E |]. apply H.
    repeat constructor; eexists; (split; [reflexivity |]); cbn; tauto.
Defined.

(** C9 as stated fails on a function with a parameter that has no
    annotation, which gets no property; on a function with an annotation
    outside the four primitive types, whose name is taken all the same;
    and on an annotation without a name, where the call raises. *)
Lemma get_fn_signature_counterexample :
  (get_fn_signature (floats := example_floats) scale_function
   = Ok (VDict
           [("name", VStr "scale"); ("description", VNone);
            ("parameters",
             VDict [("properties",
                     VDict [("factor", VDict [("type", VStr "int")])])])])
   /\ ~ (exists signature,
           get_fn_signature (floats := example_floats) scale_function
           = Ok signature
           /\ declared_schema scale_function signature))
  /\ (get_fn_signature (floats := example_floats) total_function
      = Ok (VDict
              [("name", VStr "total"); ("description", VStr "Sum a list");
               ("parameters",
                VDict [("properties",
                        VDict [("values", VDict [("type", VStr "list")])])])])
      /\ ~ (exists signature,
              get_fn_signature (floats := example_floats) total_function
              = Ok signature
              /\ declared_schema total_function signature))
  /\ get_fn_signature (floats := example_floats)
       (mkPyFunction "f" None [("x", Some ANameless)] None (fun _ => Ok VNone))
     = Raise AttributeError.
Proof.
  split; [split; [reflexivity |] | split; [split; [reflexivity |] |]].
  - intros (sg & E & props & -> & H).
    cbn in H. inversion H as [| ? ? ? ? (_ & T & HT & _) _]; subst.
    discriminate HT.
  - intros (sg & E & props & -> & H).
    cbn in H. inversion H as [| ? ? ? ? (_ & T & HT & Hin & _) _]; subst.
    injection HT as <-. cbn in Hin.
    repeat (destruct Hin as [Hin | Hin]; [discriminate Hin |]). exact Hin.
  - reflexivity.
Qed.

Lemma validate_arguments_int_witness :
  (exists validated,
     validate_arguments (floats := example_floats) (library := example_library)
       (VDict [("name", VStr "add");
               ("arguments", VDict [("a", VStr "5"); ("b", VInt 3)]);
               ("id", VInt 0)]) add_signature = Ok validated
     /\ (arguments <- py_getitem validated "arguments" ;;
         py_getitem arguments "a")%result = Ok (VInt 5))
  /\ validate_arguments (floats := example_floats) (library := example_library)
       (VDict [("name", VStr "add");
               ("arguments", VDict [("a", VStr "abc"); ("b", VInt 3)]);
               ("id", VInt 0)]) add_signature = Raise ValueError
  /\ (exists validated,
        validate_arguments (floats := example_floats)
          (library := example_library)
          (VDict [("name", VStr "add");
                  ("arguments", VDict [("a", VStr " -1_0 "); ("b", VInt 3)]);
                  ("id", VInt 0)]) add_signature = Ok validated
        /\ (arguments <- py_getitem validated "arguments" ;;
            py_getitem arguments "a")%result = Ok (VInt (-10))).
Proof.
  assert (Hnd : forall v : PyVal,
            NoDup (map fst [("a", v); ("b", VInt 3)])).
  { intros v. cbn. repeat constructor; cbn; intuition discriminate. }
  assert (Hothers : forall (v : PyVal) (b : string) (w : PyVal),
            In (b, w) [("a", v); ("b", VInt 3)] -> b <> "a" ->
            is_ok (coerce_argument
                     (VDict [("a", VDict [("type", VStr "int")]);
                             ("b", VDict [("type", VStr "int")])]) b w)
            = true).
  { intros v b w [H | [H | []]] Hb; injection H as <- <-;
      [now destruct Hb | reflexivity]. }
  assert (Htext : integer_text " -1_0 " (-10) 2).
  { exists [" "%char], ["-"%char], ["1"; "_"; "0"]%char, ["1"; "0"]%char,
      [" "%char].
    split; [reflexivity |].
    split; [repeat constructor; vm_compute; tauto |].
    split; [repeat constructor; vm_compute; tauto |].
    split; [apply digit_groups_underscore;
            [reflexivity | now apply digit_groups_last] |].
    split; [reflexivity |].
    right. split; reflexivity. }
  split; [| split].
  - destruct (validate_arguments_int
                (floats := example_floats) (library := example_library)
                (VDict [("name", VStr "add");
                        ("arguments", VDict [("a", VStr "5"); ("b", VInt 3)]);
                        ("id", VInt 0)])
                add_signature
                (VDict [("a", VDict [("type", VStr "int")]);
                        ("b", VDict [("type", VStr "int")])])
                _ _ "a" (VStr "5")
                eq_refl eq_refl (Hnd _) eq_refl eq_refl eq_refl)
      as (_ & _ & H).
    destruct (H (Hothers _)) as (_ & _ & _ & _ & H5 & _). now apply H5.
  - destruct (validate_arguments_int
                (floats := example_floats) (library := example_library)
                (VDict [("name", VStr "add");
                        ("arguments", VDict [("a", VStr "abc"); ("b", VInt 3)]);
                        ("id", VInt 0)])
                add_signature
                (VDict [("a", VDict [("type", VStr "int")]);
                        ("b", VDict [("type", VStr "int")])])
                _ _ "a" (VStr "abc")
                eq_refl eq_refl (Hnd _) eq_refl eq_refl eq_refl)
      as (_ & _ & H).
    destruct (H (Hothers _)) as (_ & Habc & _). now apply Habc.
  - destruct (validate_arguments_int
                (floats := example_floats) (library := example_library)
                (VDict [("name", VStr "add");
                        ("arguments",
                         VDict [("a", VStr " -1_0 "); ("b", VInt 3)]);
                        ("id", VInt 0)])
                add_signature
                (VDict [("a", VDict [("type", VStr "int")]);
                        ("b", VDict [("type", VStr "int")])])
                _ _ "a" (VStr " -1_0 ")
                eq_refl eq_refl (Hnd _) eq_refl eq_refl eq_refl)
      as (_ & _ & H).
    destruct (H (Hothers _)) as (_ & _ & Hnum & _).
    apply (Hnum " -1_0 " (-10) 2%nat eq_refl Htext). left. lia.
Defined.

(** ** The tool-calling loop *)

Section ToolAgentProperties.

Context {floats : PyFloat} {library : PyLibrary} {groq : Groq}.

(** The tag [tool_call] is plain: the extraction is inside the modelled
    fragment, and [found] tells whether the text holds a span. *)
Lemma extract_tool_calls_found (text : string) :
  TagContentResult.found (ToolAgent.extract_tool_calls text) = true
  <-> has_tag_span text "tool_call".
Proof.
  unfold ToolAgent.extract_tool_calls.
  destruct (extract_tag_content_found text "tool_call" eq_refl)
    as (r & -> & H & _).
  exact H.
Qed.

(** C1, as amended.  When the first response of the model holds no
    [<tool_call>] span, the run invokes no tool, makes a second request
    on the history that holds only the user's message, and returns the
    answer to that request; the first response is not returned. *)
Theorem tool_agent_direct_answer (self : ToolAgent.t) (user_msg : string)
    (w : ToolAgent.World) :
  let user_prompt := build_prompt_structure user_msg "user" "" in
  let first :=
    chat_completions_create (ToolAgent.client w)
      [build_prompt_structure
         (TOOL_SYSTEM_PROMPT (ToolAgent.add_tool_signatures self))
         "system" "";
       user_prompt] (ToolAgent.model self) in
  let second :=
    chat_completions_create (snd first) [user_prompt] (ToolAgent.model self) in
  ~ has_tag_span (fst first) "tool_call" ->
  ToolAgent.run self user_msg w
  = (Ok (fst second), ToolAgent.mkWorld (snd second) (ToolAgent.tool_runs w)).
Proof.
  intros user_prompt first second Hnone.
  assert (Hfound : TagContentResult.found
                     (ToolAgent.extract_tool_calls (fst first)) = false).
  { destruct (TagContentResult.found _) eqn:E; [| reflexivity].
    apply extract_tool_calls_found in E. contradiction. }
  unfold ToolAgent.run, bind, ToolAgent.request, completions_create, ret.
  cbn [items ChatHistory_init ToolAgent.client ToolAgent.tool_runs].
  fold user_prompt. fold first.
  destruct first as [response client1] eqn:E1. cbn [fst snd] in *.
  rewrite Hfound. cbn [ToolAgent.client ToolAgent.tool_runs items].
  subst second. destruct (chat_completions_create client1 _ _); reflexivity.
Qed.

End ToolAgentProperties.

Lemma tool_agent_direct_answer_witness :
  ToolAgent.run (groq := scripted_client)
    (ToolAgent.mk "llama" [Tool.mk "add" add_function "add"])
    "What is the capital of France?"
    (ToolAgent.mkWorld (groq := scripted_client)
       ["No tool is needed here."; "Paris."] [])
  = (Ok "Paris.", ToolAgent.mkWorld (groq := scripted_client) [] []).
Proof.
  apply (tool_agent_direct_answer (groq := scripted_client)
           (ToolAgent.mk "llama" [Tool.mk "add" add_function "add"])
           "What is the capital of France?"
           (ToolAgent.mkWorld (groq := scripted_client)
              ["No tool is needed here."; "Paris."] [])).
  intros H. apply extract_tool_calls_found in H.
  discriminate H.
Defined.

(** C1 as stated fails: with a first response that holds no
    [<tool_call>] span the run does not return that response but the
    answer to its second request. *)
Lemma tool_agent_direct_answer_counterexample :
  ~ has_tag_span "No tool is needed here." "tool_call"
  /\ fst (ToolAgent.run (groq := scripted_client)
            (ToolAgent.mk "llama" [Tool.mk "add" add_function "add"])
            "What is the capital of France?"
            (ToolAgent.mkWorld (groq := scripted_client)
               ["No tool is needed here."; "Paris."] []))
     = Ok "Paris."
  /\ fst (ToolAgent.run (groq := scripted_client)
            (ToolAgent.mk "llama" [Tool.mk "add" add_function "add"])
            "What is the capital of France?"
            (ToolAgent.mkWorld (groq := scripted_client)
               ["No tool is needed here."; "Paris."] []))
     <> Ok "No tool is needed here.".
Proof.
  split; [| split].
  - intros H. apply extract_tool_calls_found in H.
    discriminate H.
  - reflexivity.
  - discriminate.
Qed.

(* ================================================================== *)
(** * Part III: further properties of the code *)
(* ================================================================== *)

(** ** Histories: what is kept *)

Lemma lastn_cons_keep {A : Type} (n : nat) (x : A) (l : list A) :
  (List.length l < n)%nat -> lastn n (x :: l) = x :: l.
Proof. intros H. apply lastn_all. cbn [List.length]. lia. Qed.

(** A protected history that fits its capacity of two or more: a run of
    appends leaves the head and the last [N - 1] of all the other
    messages it has held. *)
Lemma FixedFirst_appends_content (msgs : list Message) :
  forall (first : Message) (rest : list Message) (N : Z),
    2 <= N -> len (first :: rest) <= N ->
    appends FixedFirstChatHistory_append msgs (mkChatHistory (first :: rest) N)
    = (Ok tt,
       mkChatHistory (first :: lastn (Z.to_nat (N - 1)) (rest ++ msgs)) N).
Proof.
  induction msgs as [| m msgs IH]; intros first rest N HN Hfit.
  - cbn [appends]. unfold ret. rewrite app_nil_r.
    rewrite lastn_all; [reflexivity |].
    rewrite len_cons in Hfit. unfold len in Hfit. lia.
  - cbn [appends]. unfold bind.
    destruct (Z.eq_dec (len (first :: rest)) N) as [E | E].
    + destruct rest as [| y l]; [unfold len in E; simpl in E; lia |].
      rewrite (FixedFirst_append_full m first y l N E).
      rewrite IH; [| exact HN |].
      * rewrite <- app_assoc. cbn [app].
        rewrite (lastn_cons_drop (Z.to_nat (N - 1)) y (l ++ m :: msgs));
          [reflexivity |].
        rewrite length_app. cbn [List.length].
        rewrite !len_cons in E. unfold len in E. lia.
      * rewrite !len_cons in *. rewrite len_app1. lia.
    + rewrite (FixedFirst_append_below m (first :: rest) N E).
      change ((first :: rest) ++ [m]) with (first :: (rest ++ [m])).
      rewrite IH; [| exact HN |].
      * rewrite <- app_assoc. reflexivity.
      * rewrite len_cons in *. rewrite len_app1. lia.
Qed.

(** The protected history keeps its first message and the most recent of
    the others.  For a capacity [N >= 2] and an initial list of at most
    [N] messages, a run of appends returns, and of all the messages the
    history was given, initial ones first, it holds the first one
    followed by the last [N - 1] of the others, in order; so it never
    holds more than [N].  A history built empty protects the first
    message appended to it. *)
Theorem fixed_first_retains (N : Z) (init msgs : list Message)
    (first : Message) (others : list Message) :
  2 <= N ->
  len init <= N ->
  init ++ msgs = first :: others ->
  exists h',
    appends FixedFirstChatHistory_append msgs
      (ChatHistory_init (Some init) N) = (Ok tt, h')
    /\ items h' = first :: lastn (Z.to_nat (N - 1)) others
    /\ len (items h') <= N.
Proof.
  intros HN Hfit Hall.
  assert (Hlen : forall l : list Message,
            len (first :: lastn (Z.to_nat (N - 1)) l) <= N).
  { intros l. rewrite len_cons. unfold len.
    pose proof (lastn_length (Z.to_nat (N - 1)) l). lia. }
  destruct init as [| a init].
  - cbn [app] in Hall. subst msgs.
    exists (mkChatHistory (first :: lastn (Z.to_nat (N - 1)) others) N).
    split; [| split; [reflexivity | apply Hlen]].
    unfold ChatHistory_init. cbn [appends]. unfold bind.
    rewrite FixedFirst_append_below
      by (unfold len; cbn [List.length]; lia).
    cbn [app].
    rewrite FixedFirst_appends_content;
      [reflexivity | exact HN | unfold len; cbn [List.length]; lia].
  - cbn [app] in Hall. injection Hall as -> <-.
    exists (mkChatHistory
              (first :: lastn (Z.to_nat (N - 1)) (init ++ msgs)) N).
    split; [| split; [reflexivity | apply Hlen]].
    now apply FixedFirst_appends_content.
Qed.

Lemma fixed_first_retains_witness :
  exists h',
    appends FixedFirstChatHistory_append
      [mkMessage "assistant" "b"; mkMessage "user" "c";
       mkMessage "assistant" "d"]
      (ChatHistory_init
         (Some [mkMessage "system" "s"; mkMessage "user" "a"]) 3)
    = (Ok tt, h')
    /\ items h' = [mkMessage "system" "s"; mkMessage "user" "c";
                   mkMessage "assistant" "d"].
Proof.
  destruct (fixed_first_retains 3
              [mkMessage "system" "s"; mkMessage "user" "a"]
              [mkMessage "assistant" "b"; mkMessage "user" "c";
               mkMessage "assistant" "d"]
              (mkMessage "system" "s")
              [mkMessage "user" "a"; mkMessage "assistant" "b";
               mkMessage "user" "c"; mkMessage "assistant" "d"])
    as (h' & E & Hitems & _); [lia | cbn; lia | reflexivity |].
  exists h'. split; [exact E | exact Hitems].
Defined.

(** A history built with more messages than its capacity is never at
    capacity again: with either [append], every append only adds, and
    nothing is ever evicted. *)
Theorem history_over_capacity_grows (N : Z) (init msgs : list Message) :
  N < len init ->
  appends ChatHistory_append msgs (ChatHistory_init (Some init) N)
  = (Ok tt, mkChatHistory (init ++ msgs) N)
  /\ appends FixedFirstChatHistory_append msgs (ChatHistory_init (Some init) N)
     = (Ok tt, mkChatHistory (init ++ msgs) N).
Proof.
  unfold ChatHistory_init. revert init.
  induction msgs as [| m msgs IH]; intros init Hover.
  - cbn [appends]. unfold ret. rewrite app_nil_r. now split.
  - cbn [appends]. unfold bind.
    rewrite ChatHistory_append_below, FixedFirst_append_below by lia.
    destruct (IH (init ++ [m])) as [E1 E2]; [rewrite len_app1; lia |].
    rewrite E1, E2, <- app_assoc. now split.
Qed.

Lemma history_over_capacity_grows_witness :
  appends ChatHistory_append [mkMessage "user" "c"]
    (ChatHistory_init (Some [mkMessage "system" "s"; mkMessage "user" "a";
                             mkMessage "user" "b"]) 2)
  = (Ok tt,
     mkChatHistory [mkMessage "system" "s"; mkMessage "user" "a";
                    mkMessage "user" "b"; mkMessage "user" "c"] 2).
Proof.
  apply (proj1 (history_over_capacity_grows 2
                  [mkMessage "system" "s"; mkMessage "user" "a";
                   mkMessage "user" "b"] [mkMessage "user" "c"]
                  ltac:(cbn; lia))).
Defined.

(** ** Tag extraction: exact [found], round trip *)

Lemma prefix_spec (a s : string) :
  String.prefix a s = true <-> exists b, s = (a ++ b)%string.
Proof.
  revert s. induction a as [| c a IH]; intros s.
  - split; [intros _; now exists s | intros _; now destruct s].
  - destruct s as [| d s]; cbn [String.prefix].
    + split; [discriminate | intros (b & E); discriminate E].
    + destruct (ascii_dec c d) as [-> | Hne].
      * rewrite IH. split.
        -- intros (b & ->). now exists b.
        -- intros (b & E). cbn [String.append] in E. injection E as ->.
           now exists b.
      * split; [discriminate |].
        intros (b & E). cbn [String.append] in E. injection E as E _.
        congruence.
Qed.

(** [contains] is the substring test. *)
Lemma contains_spec (sub s : string) :
  contains sub s = true <-> exists a b, s = (a ++ sub ++ b)%string.
Proof.
  induction s as [| c s IH].
  - cbn [contains]. rewrite orb_false_r, prefix_spec. split.
    + intros (b & E). now exists "", b.
    + intros (a & b & E). destruct a; [now exists b | discriminate E].
  - cbn [contains]. rewrite orb_true_iff, prefix_spec, IH. split.
    + intros [(b & E) | (a & b & ->)].
      * now exists "", b.
      * now exists (String c a), b.
    + intros (a & b & E). destruct a as [| d a].
      * left. now exists b.
      * right. cbn [String.append] in E. injection E as _ ->.
        now exists a, b.
Qed.

(** For a tag without regex operators, [found] is exact: it is true
    exactly when the text holds an opening tag followed, somewhere
    later, by a closing tag.  A text without closing tag yields no item
    and [found = false], whatever opening tags it holds: an unterminated
    tag is not matched. *)
Theorem extract_tag_content_found_exact (text tag : string) :
  plain_tag tag = true ->
  exists r : TagContentResult.t,
    extract_tag_content text tag = Some r
    /\ (TagContentResult.found r = true <-> has_tag_span text tag)
    /\ (contains ("</" ++ tag ++ ">") text = false ->
        r = TagContentResult.mk [] false).
Proof.
  intros Hp.
  destruct (extract_tag_content_found text tag Hp) as (r & E & Hfound & Hnone).
  exists r. split; [exact E |]. split; [exact Hfound |].
  intros Hclose.
  assert (Hf : TagContentResult.found r = false).
  { apply Bool.not_true_is_false. intros Ef.
    apply Hfound in Ef as (b & i & a & ->).
    assert (Hc : contains ("</" ++ tag ++ ">")
                   (b ++ "<" ++ tag ++ ">" ++ i ++ "</" ++ tag ++ ">" ++ a)
                 = true).
    { apply contains_spec. exists (b ++ "<" ++ tag ++ ">" ++ i)%string, a.
      repeat first [rewrite string_append_assoc
                   | progress cbn [String.append]].
      reflexivity. }
    congruence. }
  specialize (Hnone Hf). destruct r as [c f].
  cbn [TagContentResult.found TagContentResult.content] in *. now subst.
Qed.

Lemma extract_tag_content_found_exact_witness :
  exists r : TagContentResult.t,
    extract_tag_content "<thought>never closed" "thought" = Some r
    /\ r = TagContentResult.mk [] false.
Proof.
  destruct (extract_tag_content_found_exact "<thought>never closed" "thought"
              eq_refl) as (r & E & _ & H).
  exists r. split; [exact E | now apply H].
Defined.

(** *** Wrapping a prompt in a tag and extracting it again *)

Lemma re_match_tag_items_nil (tag : list ascii) :
  re_match (tag_items tag) [] = None.
Proof. reflexivity. Qed.

(** A text made of one element whose closing tag occurs only at its end
    has one span: the inner text. *)
Lemma re_scan_single (tag inner : list ascii) :
  (forall before after,
      inner ++ close_tag tag = before ++ close_tag tag ++ after ->
      after = []) ->
  re_scan (tag_items tag) (open_tag tag ++ inner ++ close_tag tag) 0
  = [[inner]].
Proof.
  intros Hend.
  destruct (re_match (tag_items tag) (open_tag tag ++ inner ++ close_tag tag))
    as [[g rest] |] eqn:E.
  - pose proof E as E'.
    apply re_match_tag_items_minimal in E' as (x & -> & Es & _).
    apply app_inv_head in Es.
    pose proof (Hend x rest Es) as ->. rewrite app_nil_r in Es.
    apply app_inv_tail in Es. subst x.
    rewrite <- (app_nil_l (open_tag tag ++ inner ++ close_tag tag)).
    rewrite (re_scan_first (tag_items tag) [] _
               (open_tag tag ++ inner ++ close_tag tag) [] [inner]).
    + reflexivity.
    + intros pre1 pre2 Epre Hne. symmetry in Epre.
      apply app_eq_nil in Epre as [_ ->]. now destruct Hne.
    + exact E.
    + now rewrite app_nil_r.
    + unfold open_tag. discriminate.
  - exfalso.
    apply (re_match_tag_items_complete tag inner []).
    now rewrite app_nil_r.
Qed.

(** [build_prompt_structure] with a tag and [extract_tag_content] with
    the same tag undo each other: for a non-empty tag without regex
    operators and a prompt in which, once wrapped, the closing tag occurs
    only at the end, extracting from the content of the message built
    gives back the prompt, trimmed, as the only item. *)
Theorem build_prompt_structure_extract (prompt role tag : string) :
  plain_tag tag = true ->
  tag <> "" ->
  (forall before after : string,
      (prompt ++ "</" ++ tag ++ ">" = before ++ "</" ++ tag ++ ">" ++ after)
        %string ->
      after = "") ->
  extract_tag_content (content (build_prompt_structure prompt role tag)) tag
  = Some (TagContentResult.mk [strip prompt] true).
Proof.
  intros Hp Hne Hend. unfold build_prompt_structure.
  destruct (String.eqb_spec tag "") as [-> | _]; [now destruct Hne |].
  cbn [content]. unfold extract_tag_content.
  rewrite (re_findall_plain_tag _ tag Hp).
  assert (Echars :
    list_ascii_of_string ("<" ++ tag ++ ">" ++ prompt ++ "</" ++ tag ++ ">")
    = open_tag (list_ascii_of_string tag) ++ list_ascii_of_string prompt
      ++ close_tag (list_ascii_of_string tag)).
  { unfold open_tag, close_tag.
    repeat first [rewrite list_ascii_of_string_app
                 | progress cbn [list_ascii_of_string app]].
    rewrite <- ?app_assoc. reflexivity. }
  rewrite Echars, re_scan_single.
  - cbn [map hd]. now rewrite string_of_list_ascii_of_string.
  - intros before after E.
    assert (Ha : string_of_list_ascii after = "").
    { apply (Hend (string_of_list_ascii before)).
      apply (f_equal string_of_list_ascii) in E.
      rewrite !string_of_list_ascii_app in E. unfold close_tag in E.
      cbn [string_of_list_ascii] in E.
      rewrite !string_of_list_ascii_app, !string_of_list_ascii_of_string in E.
      cbn [string_of_list_ascii String.append] in E.
      rewrite !string_append_assoc in E. exact E. }
    destruct after; [reflexivity | discriminate Ha].
Qed.

(** A prompt wrapped in a tag holds the closing tag only at its end when
    the closing tag does not occur in the wrapped prompt short of its
    last character. *)
Lemma closing_tag_only_at_end (prompt tag : string) :
  contains ("</" ++ tag ++ ">") (prompt ++ "</" ++ tag) = false ->
  forall before after : string,
    (prompt ++ "</" ++ tag ++ ">" = before ++ "</" ++ tag ++ ">" ++ after)
      %string ->
    after = "".
Proof.
  intros Hc before after E.
  destruct (list_ascii_of_string after) as [| c l] eqn:Ea.
  - rewrite <- (string_of_list_ascii_of_string after), Ea. reflexivity.
  - exfalso.
    destruct (exists_last (l := c :: l) ltac:(discriminate)) as (a' & z & El).
    apply (f_equal list_ascii_of_string) in E.
    repeat first [rewrite list_ascii_of_string_app in E
                 | progress cbn [list_ascii_of_string app] in E].
    rewrite Ea, El in E.
    replace (list_ascii_of_string prompt
             ++ "<"%char :: "/"%char :: list_ascii_of_string tag ++ [">"%char])
      with ((list_ascii_of_string prompt
             ++ "<"%char :: "/"%char :: list_ascii_of_string tag)
            ++ [">"%char]) in E
      by (rewrite <- app_assoc; reflexivity).
    replace (list_ascii_of_string before
             ++ "<"%char :: "/"%char
                :: list_ascii_of_string tag ++ ">"%char :: a' ++ [z])
      with ((list_ascii_of_string before
             ++ "<"%char :: "/"%char
                :: list_ascii_of_string tag ++ ">"%char :: a')
            ++ [z]) in E
      by (rewrite <- app_assoc; cbn [app]; rewrite <- app_assoc; reflexivity).
    apply app_inj_tail in E as [E _].
    assert (Hcontains :
      contains ("</" ++ tag ++ ">") (prompt ++ "</" ++ tag) = true).
    { apply contains_spec. exists before, (string_of_list_ascii a').
      rewrite <- (string_of_list_ascii_of_string (prompt ++ "</" ++ tag)).
      rewrite <- (string_of_list_ascii_of_string
                    (before ++ ("</" ++ tag ++ ">") ++ string_of_list_ascii a')).
      f_equal.
      repeat first [rewrite list_ascii_of_string_app
                   | rewrite list_ascii_of_string_of_list_ascii
                   | progress cbn [list_ascii_of_string app]].
      rewrite <- ?app_assoc. exact E. }
    congruence.
Qed.

Lemma build_prompt_structure_extract_witness :
  extract_tag_content
    (content (build_prompt_structure " Think step by step " "user"
                "instruction")) "instruction"
  = Some (TagContentResult.mk ["Think step by step"] true).
Proof.
  apply (build_prompt_structure_extract " Think step by step " "user"
           "instruction").
  - reflexivity.
  - discriminate.
  - apply closing_tag_only_at_end. reflexivity.
Defined.

(** ** The reflection loop: what is sent, and the shape of every run *)

Lemma update_history_one (a : Message) (msg r : string) :
  update_chat_history FixedFirstChatHistory_append msg r
    (mkChatHistory [a] 3)
  = (Ok tt, mkChatHistory [a; mkMessage r msg] 3).
Proof. reflexivity. Qed.

Lemma update_history_two (a b : Message) (msg r : string) :
  update_chat_history FixedFirstChatHistory_append msg r
    (mkChatHistory [a; b] 3)
  = (Ok tt, mkChatHistory [a; b; mkMessage r msg] 3).
Proof. reflexivity. Qed.

(** At capacity 3 the second message goes and the new one comes last. *)
Lemma update_history_three (a b c : Message) (msg r : string) :
  update_chat_history FixedFirstChatHistory_append msg r
    (mkChatHistory [a; b; c] 3)
  = (Ok tt, mkChatHistory [a; c; mkMessage r msg] 3).
Proof. reflexivity. Qed.

Ltac history_steps :=
  repeat first
    [ rewrite update_history_one
    | rewrite update_history_two
    | rewrite update_history_three
    | progress cbv beta iota
    | progress cbn [fst snd generation_history reflection_history client
                      requests generation items] ].

Section ReflectionLog.

Context {groq : Groq}.
Variable model : string.
Variables generator_system critic_system : Message.

(** The first iteration, from the histories [run] starts with. *)
Lemma loop_body_first (c0 : Client) (rq : list Request)
    (user_message : Message) (gen : option string) :
  let g := chat_completions_create c0
             [generator_system; user_message] model in
  let c := chat_completions_create (snd g)
             [critic_system; mkMessage "user" (fst g)] model in
  loop_body model
    (mkFrame c0 rq
       (mkChatHistory [generator_system; user_message] 3)
       (mkChatHistory [critic_system] 3) gen)
  = (Ok (contains "<OK>" (fst c)),
     mkFrame (snd c)
       (rq ++ [mkRequest "GENERATION"
                 [generator_system; user_message] (fst g);
               mkRequest "REFLECTION"
                 [critic_system; mkMessage "user" (fst g)] (fst c)])
       (if contains "<OK>" (fst c)
        then mkChatHistory [generator_system; user_message;
                            mkMessage "assistant" (fst g)] 3
        else mkChatHistory [generator_system;
                            mkMessage "assistant" (fst g);
                            mkMessage "user" (fst c)] 3)
       (if contains "<OK>" (fst c)
        then mkChatHistory [critic_system; mkMessage "user" (fst g)] 3
        else mkChatHistory [critic_system; mkMessage "user" (fst g);
                            mkMessage "assistant" (fst c)] 3)
       (Some (fst g))).
Proof.
  intros g c. subst c g.
  unfold loop_body, generate, reflect, _request_completion, completions_create,
    assign_generation, on_generation_history, on_reflection_history, bind, ret.
  history_steps.
  destruct (chat_completions_create c0 _ model) as [g c1]. history_steps.
  destruct (chat_completions_create c1 _ model) as [c c2]. history_steps.
  destruct (contains "<OK>" c); history_steps;
    rewrite <- ?app_assoc; reflexivity.
Qed.

(** A later iteration, from the histories the iteration before has
    left. *)
Lemma loop_body_later (c0 : Client) (rq : list Request)
    (previous : string * string) (gen : option string) :
  let g := chat_completions_create c0
             [generator_system;
              mkMessage "assistant" (fst previous);
              mkMessage "user" (snd previous)] model in
  let c := chat_completions_create (snd g)
             [critic_system;
              mkMessage "assistant" (snd previous);
              mkMessage "user" (fst g)] model in
  loop_body model
    (mkFrame c0 rq
       (mkChatHistory [generator_system;
                       mkMessage "assistant" (fst previous);
                       mkMessage "user" (snd previous)] 3)
       (mkChatHistory [critic_system;
                       mkMessage "user" (fst previous);
                       mkMessage "assistant" (snd previous)] 3) gen)
  = (Ok (contains "<OK>" (fst c)),
     mkFrame (snd c)
       (rq ++ [mkRequest "GENERATION"
                 [generator_system;
                  mkMessage "assistant" (fst previous);
                  mkMessage "user" (snd previous)] (fst g);
               mkRequest "REFLECTION"
                 [critic_system;
                  mkMessage "assistant" (snd previous);
                  mkMessage "user" (fst g)] (fst c)])
       (if contains "<OK>" (fst c)
        then mkChatHistory [generator_system;
                            mkMessage "user" (snd previous);
                            mkMessage "assistant" (fst g)] 3
        else mkChatHistory [generator_system;
                            mkMessage "assistant" (fst g);
                            mkMessage "user" (fst c)] 3)
       (if contains "<OK>" (fst c)
        then mkChatHistory [critic_system;
                            mkMessage "assistant" (snd previous);
                            mkMessage "user" (fst g)] 3
        else mkChatHistory [critic_system; mkMessage "user" (fst g);
                            mkMessage "assistant" (fst c)] 3)
       (Some (fst g))).
Proof.
  intros g c. subst c g. destruct previous as [pg pc]. cbn [fst snd].
  unfold loop_body, generate, reflect, _request_completion, completions_create,
    assign_generation, on_generation_history, on_reflection_history, bind, ret.
  history_steps.
  destruct (chat_completions_create c0 _ model) as [g c1]. history_steps.
  destruct (chat_completions_create c1 _ model) as [c c2]. history_steps.
  destruct (contains "<OK>" c); history_steps;
    rewrite <- ?app_assoc; reflexivity.
Qed.

(** The loop from the histories a first iteration without stop marker
    has left: its requests are the [later_requests] of its drafts and
    critiques. *)
Lemma for_range_later (n : nat) :
  forall (c0 : Client) (rq : list Request) (previous : string * string)
         (gen : option string),
  exists (steps : list (string * string)) (f' : Frame),
    for_range n (loop_body model)
      (mkFrame c0 rq
         (mkChatHistory [generator_system;
                         mkMessage "assistant" (fst previous);
                         mkMessage "user" (snd previous)] 3)
         (mkChatHistory [critic_system;
                         mkMessage "user" (fst previous);
                         mkMessage "assistant" (snd previous)] 3) gen)
    = (Ok tt, f')
    /\ loop_steps n steps
    /\ requests f'
       = rq ++ later_requests generator_system critic_system previous steps
    /\ generation f' = last (map Some (map fst steps)) gen.
Proof.
  induction n as [| k IH]; intros c0 rq previous gen.
  - eexists [], _. split; [reflexivity |]. split; [constructor |].
    cbn. now rewrite app_nil_r.
  - pose proof (loop_body_later c0 rq previous gen) as E. cbv zeta in E.
    cbn [for_range]. rewrite (bind_ok _ _ _ _ _ E).
    destruct (chat_completions_create c0 _ model) as [g c1]. cbn [fst snd] in *.
    destruct (chat_completions_create c1 _ model) as [c c2]. cbn [fst snd] in *.
    destruct (contains "<OK>" c) eqn:Hstop.
    + eexists [(g, c)], _. split; [reflexivity |].
      split; [now constructor |]. split; reflexivity.
    + destruct (IH c2
                  (rq ++ [mkRequest "GENERATION"
                            [generator_system;
                             mkMessage "assistant" (fst previous);
                             mkMessage "user" (snd previous)] g;
                          mkRequest "REFLECTION"
                            [critic_system;
                             mkMessage "assistant" (snd previous);
                             mkMessage "user" g] c])
                  (g, c) (Some g))
        as (steps & f' & E' & Hsteps & Hrq & Hgen).
      exists ((g, c) :: steps), f'. split; [exact E' |].
      split; [now constructor |]. split.
      * rewrite Hrq, <- app_assoc. reflexivity.
      * rewrite Hgen. cbn [map fst].
        destruct steps as [| s steps']; [reflexivity |].
        cbn [map].
        transitivity (last (Some (fst s) :: map Some (map fst steps')) gen);
          [apply last_cons_default | reflexivity].
Qed.

(** The loop from the histories [run] starts with. *)
Lemma for_range_first (n : nat) (c0 : Client) (user_message : Message) :
  exists (steps : list (string * string)) (f' : Frame),
    for_range n (loop_body model)
      (mkFrame c0 []
         (mkChatHistory [generator_system; user_message] 3)
         (mkChatHistory [critic_system] 3) None)
    = (Ok tt, f')
    /\ loop_steps n steps
    /\ requests f'
       = expected_requests generator_system critic_system user_message steps
    /\ generation f' = last (map Some (map fst steps)) None.
Proof.
  destruct n as [| k].
  - eexists [], _. split; [reflexivity |]. split; [constructor |].
    split; reflexivity.
  - pose proof (loop_body_first c0 [] user_message None) as E. cbv zeta in E.
    cbn [for_range]. rewrite (bind_ok _ _ _ _ _ E).
    destruct (chat_completions_create c0 _ model) as [g c1]. cbn [fst snd] in *.
    destruct (chat_completions_create c1 _ model) as [c c2]. cbn [fst snd] in *.
    destruct (contains "<OK>" c) eqn:Hstop.
    + eexists [(g, c)], _. split; [reflexivity |].
      split; [now constructor |]. split; reflexivity.
    + destruct (for_range_later k c2
                  ([] ++ [mkRequest "GENERATION"
                            [generator_system; user_message] g;
                          mkRequest "REFLECTION"
                            [critic_system; mkMessage "user" g] c])
                  (g, c) (Some g))
        as (steps & f' & E' & Hsteps & Hrq & Hgen).
      exists ((g, c) :: steps), f'. split; [exact E' |].
      split; [now constructor |]. split.
      * rewrite Hrq. reflexivity.
      * rewrite Hgen. cbn [map fst].
        destruct steps as [| s steps']; [reflexivity |].
        cbn [map].
        transitivity (last (Some (fst s) :: map Some (map fst steps')) None);
          [apply last_cons_default | reflexivity].
Qed.

Lemma later_requests_received (previous : string * string)
    (steps : list (string * string)) :
  received_by "GENERATION"
    (later_requests generator_system critic_system previous steps)
  = map fst steps
  /\ received_by "REFLECTION"
       (later_requests generator_system critic_system previous steps)
     = map snd steps
  /\ List.length (later_requests generator_system critic_system previous steps)
     = (2 * List.length steps)%nat.
Proof.
  revert previous. induction steps as [| [g c] steps IH]; intros previous.
  - repeat split.
  - destruct (IH (g, c)) as (Hg & Hc & Hl).
    cbn [later_requests]. unfold received_by in *.
    cbn [filter log_title String.eqb map received fst snd List.length] in *.
    cbn in *. rewrite Hg, Hc, Hl. repeat split. lia.
Qed.

Lemma expected_requests_received (user_message : Message)
    (steps : list (string * string)) :
  received_by "GENERATION"
    (expected_requests generator_system critic_system user_message steps)
  = map fst steps
  /\ received_by "REFLECTION"
       (expected_requests generator_system critic_system user_message steps)
     = map snd steps
  /\ List.length
       (expected_requests generator_system critic_system user_message steps)
     = (2 * List.length steps)%nat.
Proof.
  destruct steps as [| [g c] steps]; [repeat split |].
  destruct (later_requests_received (g, c) steps) as (Hg & Hc & Hl).
  cbn [expected_requests]. unfold received_by in *.
  cbn in *. rewrite Hg, Hc, Hl. repeat split. lia.
Qed.

(** Every request holds at most three messages and starts with the
    system message of its role. *)
Lemma later_requests_bounded (previous : string * string)
    (steps : list (string * string)) :
  Forall (fun r =>
            (List.length (sent r) <= 3)%nat
            /\ hd_error (sent r)
               = Some (if String.eqb (log_title r) "GENERATION"
                       then generator_system else critic_system))
    (later_requests generator_system critic_system previous steps).
Proof.
  revert previous. induction steps as [| [g c] steps IH]; intros previous.
  - constructor.
  - cbn [later_requests]. repeat constructor. apply IH.
Qed.

End ReflectionLog.

Lemma combine_fst_snd {A B : Type} (l : list (A * B)) :
  combine (map fst l) (map snd l) = l.
Proof.
  induction l as [| [a b] l IH]; [reflexivity |].
  cbn [map fst snd combine]. now rewrite IH.
Qed.

Lemma last_map_some {A : Type} (l : list A) (d : A) :
  l <> [] -> last (map Some l) None = Some (last l d).
Proof.
  induction l as [| a l IH]; intros Hne; [contradiction |].
  destruct l as [| b l]; [reflexivity |].
  change (last (map Some (b :: l)) None = Some (last (b :: l) d)).
  apply IH. discriminate.
Qed.

(** What the bound and the stop marker do to the critiques of a loop. *)
Lemma loop_steps_shape (n : nat) (steps : list (string * string)) :
  loop_steps n steps ->
  (List.length steps <= n)%nat
  /\ (n <> O -> steps <> [])
  /\ Forall (fun critique => contains "<OK>" critique = false)
       (removelast (map snd steps))
  /\ ((List.length steps < n)%nat ->
      contains "<OK>" (last (map snd steps) "") = true).
Proof.
  induction 1 as [| k g c Hc | k g c rest Hc Hrest IH].
  - repeat split; [cbn; lia | congruence | constructor | cbn; intros; lia].
  - repeat split; [cbn; lia | discriminate | constructor | cbn; now intros _].
  - destruct IH as (Hlen & Hne & Hall & Hlast).
    repeat split.
    + cbn [List.length]. lia.
    + discriminate.
    + destruct rest as [| s rest'].
      * inversion Hrest; subst. constructor.
      * cbn [map snd]. cbn [map snd] in Hall.
        change (Forall (fun critique => contains "<OK>" critique = false)
                  (c :: removelast (snd s :: map snd rest'))).
        constructor; assumption.
    + intros Hlt. cbn [List.length] in Hlt.
      destruct rest as [| s rest'].
      * inversion Hrest; subst. lia.
      * cbn [map snd].
        change (contains "<OK>" (last (snd s :: map snd rest') "") = true).
        apply Hlast. lia.
Qed.

Section ReflectionShape.

Context {groq : Groq}.
Variable model : string.

(** A run in terms of its drafts and critiques: the requests made and
    the outcome. *)
Lemma run_requests (c : Client) (user_msg gsp rsp : string) (n_steps : Z) :
  exists steps : list (string * string),
    loop_steps (Z.to_nat n_steps) steps
    /\ requests (snd (ReflectionAgent_run c model user_msg gsp rsp n_steps))
       = expected_requests
           (mkMessage "system" (gsp ++ BASE_GENERATION_SYSTEM_PROMPT))
           (mkMessage "system" (rsp ++ BASE_REFLECTION_SYSTEM_PROMPT))
           (mkMessage "user" user_msg) steps
    /\ fst (ReflectionAgent_run c model user_msg gsp rsp n_steps)
       = match last (map Some (map fst steps)) None with
         | Some g => Ok g
         | None => Raise UnboundLocalError
         end.
Proof.
  destruct (for_range_first model
              (mkMessage "system" (gsp ++ BASE_GENERATION_SYSTEM_PROMPT))
              (mkMessage "system" (rsp ++ BASE_REFLECTION_SYSTEM_PROMPT))
              (Z.to_nat n_steps) c (mkMessage "user" user_msg))
    as (steps & f' & E & Hsteps & Hrq & Hgen).
  exists steps. split; [exact Hsteps |].
  unfold ReflectionAgent_run.
  change (initial_frame c user_msg gsp rsp)
    with (mkFrame c []
            (mkChatHistory
               [mkMessage "system" (gsp ++ BASE_GENERATION_SYSTEM_PROMPT);
                mkMessage "user" user_msg] 3)
            (mkChatHistory
               [mkMessage "system" (rsp ++ BASE_REFLECTION_SYSTEM_PROMPT)] 3)
            None).
  rewrite (bind_ok _ _ _ _ _ E). unfold return_generation. rewrite Hgen.
  destruct (last (map Some (map fst steps)) None); cbn [fst snd];
    split; (exact Hrq || reflexivity).
Qed.

(** The requests of a run are fixed by its drafts and critiques.  The
    first generation request holds the system message and the user's
    message; every later one holds the system message, the previous
    draft and the previous critique, and no longer the user's message.
    The critic is first sent its system message and the draft, later its
    system message, its previous critique and the new draft. *)
Theorem reflection_requests_exact (c : Client)
    (user_msg gsp rsp : string) (n_steps : Z) :
  let f := snd (ReflectionAgent_run c model user_msg gsp rsp n_steps) in
  requests f
  = expected_requests
      (mkMessage "system" (gsp ++ BASE_GENERATION_SYSTEM_PROMPT))
      (mkMessage "system" (rsp ++ BASE_REFLECTION_SYSTEM_PROMPT))
      (mkMessage "user" user_msg)
      (combine (drafts f) (critiques f)).
Proof.
  intros f. subst f.
  destruct (run_requests c user_msg gsp rsp n_steps) as (steps & _ & Hrq & _).
  unfold drafts, critiques. rewrite Hrq.
  destruct (expected_requests_received
              (mkMessage "system" (gsp ++ BASE_GENERATION_SYSTEM_PROMPT))
              (mkMessage "system" (rsp ++ BASE_REFLECTION_SYSTEM_PROMPT))
              (mkMessage "user" user_msg) steps) as (-> & -> & _).
  now rewrite combine_fst_snd.
Qed.

(** Every request of a run holds at most three messages, and its first
    message is the system message of the role asked: the generation
    prompt for the generator, the reflection prompt for the critic. *)
Theorem reflection_requests_bounded (c : Client)
    (user_msg gsp rsp : string) (n_steps : Z) :
  Forall (fun r =>
            (List.length (sent r) <= 3)%nat
            /\ hd_error (sent r)
               = Some (mkMessage "system"
                         (if String.eqb (log_title r) "GENERATION"
                          then gsp ++ BASE_GENERATION_SYSTEM_PROMPT
                          else rsp ++ BASE_REFLECTION_SYSTEM_PROMPT)%string))
    (requests (snd (ReflectionAgent_run c model user_msg gsp rsp n_steps))).
Proof.
  destruct (run_requests c user_msg gsp rsp n_steps) as (steps & _ & -> & _).
  destruct steps as [| [g cr] steps]; [constructor |].
  cbn [expected_requests]. constructor; [split; [cbn; lia | reflexivity] |].
  constructor; [split; [cbn; lia | reflexivity] |].
  eapply Forall_impl; [| apply later_requests_bounded].
  intros r [Hlen Hhd]. split; [exact Hlen |].
  rewrite Hhd. now destruct (String.eqb (log_title r) "GENERATION").
Qed.

(** The shape of every run with [n_steps >= 1], whatever the model
    answers: the run returns the last draft generated; it makes between
    one and [n_steps] iterations, each with one generation and one
    reflection request; no critique but the last holds the stop marker,
    and the last holds it when the run ends before [n_steps]
    iterations. *)
Theorem reflection_run_shape (c : Client)
    (user_msg gsp rsp : string) (n_steps : Z) :
  1 <= n_steps ->
  let f := snd (ReflectionAgent_run c model user_msg gsp rsp n_steps) in
  fst (ReflectionAgent_run c model user_msg gsp rsp n_steps)
  = Ok (last (drafts f) "")
  /\ 1 <= len (drafts f) <= n_steps
  /\ List.length (critiques f) = List.length (drafts f)
  /\ List.length (requests f) = (2 * List.length (drafts f))%nat
  /\ Forall (fun critique => contains "<OK>" critique = false)
       (removelast (critiques f))
  /\ (len (drafts f) < n_steps ->
      contains "<OK>" (last (critiques f) "") = true).
Proof.
  intros Hn f. subst f.
  destruct (run_requests c user_msg gsp rsp n_steps)
    as (steps & Hsteps & Hrq & Hres).
  unfold drafts, critiques. rewrite Hrq, Hres.
  destruct (expected_requests_received
              (mkMessage "system" (gsp ++ BASE_GENERATION_SYSTEM_PROMPT))
              (mkMessage "system" (rsp ++ BASE_REFLECTION_SYSTEM_PROMPT))
              (mkMessage "user" user_msg) steps) as (-> & -> & ->).
  destruct (loop_steps_shape _ _ Hsteps) as (Hlen & Hne & Hall & Hlast).
  assert (Hsteps_ne : steps <> []) by (apply Hne; lia).
  assert (Hdrafts_ne : map fst steps <> []).
  { destruct steps; [contradiction | discriminate]. }
  rewrite (last_map_some _ "" Hdrafts_ne).
  unfold len. rewrite !length_map.
  repeat split; try assumption; try lia.
  - destruct steps; [contradiction | cbn [List.length]; lia].
  - intros Hlt. apply Hlast. lia.
Qed.

End ReflectionShape.

Lemma reflection_run_shape_witness :
  fst (ReflectionAgent_run (groq := scripted_client)
         ["draft one"; "too long"; "draft two"; "fine <OK>"; "draft three"]
         "llama" "write a haiku" "" "" 5)
  = Ok "draft two".
Proof.
  apply (reflection_run_shape (groq := scripted_client) "llama"
           ["draft one"; "too long"; "draft two"; "fine <OK>"; "draft three"]
           "write a haiku" "" "" 5).
  lia.
Defined.

(** ** Argument validation: what a validated call looks like *)

Section ValidationProperties.

Context {floats : PyFloat} {library : PyLibrary}.

Lemma dict_get_set_other {V : Type} (d : list (string * V)) (k k' : string)
    (v : V) :
  k <> k' -> dict_get (dict_set d k v) k' = dict_get d k'.
Proof.
  intros Hne. induction d as [| [k0 v0] d IH]; cbn [dict_set dict_get].
  - destruct (String.eqb_spec k k'); [contradiction | reflexivity].
  - destruct (String.eqb_spec k0 k) as [-> | Hk]; cbn [dict_get].
    + destruct (String.eqb_spec k k'); [contradiction | reflexivity].
    + destruct (String.eqb k0 k'); [reflexivity | exact IH].
Qed.

(** Storing under a key the value it has changes nothing. *)
Lemma dict_set_same {V : Type} (d : list (string * V)) (k : string) (v : V) :
  dict_get d k = Some v -> dict_set d k v = d.
Proof.
  induction d as [| [k0 v0] d IH]; intros H; [discriminate H |].
  cbn [dict_get dict_set] in *.
  destruct (String.eqb k0 k); [now injection H as -> |].
  now rewrite IH.
Qed.

Lemma coerce_argument_declared (properties : PyVal) (k : string) (v : PyVal) :
  coerce_argument properties k v
  = (T <- declared_type properties k ;;
     if isinstance v T then Ok v else construct T v)%result.
Proof.
  unfold coerce_argument, declared_type.
  destruct (py_getitem properties k) as [property |]; cbn [rbind];
    [| reflexivity].
  destruct (py_get property "type") as [ty |]; cbn [rbind]; [| reflexivity].
  destruct (type_mapping ty) as [T |]; cbn [rbind]; [| reflexivity].
  destruct (isinstance v T); reflexivity.
Qed.

(** What a type of [type_mapping] returns is an instance of it. *)
Lemma construct_instance (T : PyType) (v v' : PyVal) :
  construct T v = Ok v' -> isinstance v' T = true.
Proof.
  destruct T, v; cbn [construct py_int py_str py_bool py_float rbind];
    intros H;
    repeat match type of H with
           | rbind ?r _ = _ => destruct r; cbn [rbind] in H
           end;
    try discriminate H; injection H as <-; reflexivity.
Qed.

(** A conversion that returns gives an instance of the declared type. *)
Lemma coerce_argument_instance (properties : PyVal) (k : string)
    (v v' : PyVal) :
  coerce_argument properties k v = Ok v' ->
  exists T, declared_type properties k = Ok T /\ isinstance v' T = true.
Proof.
  rewrite coerce_argument_declared.
  destruct (declared_type properties k) as [T |]; cbn [rbind];
    [| discriminate].
  intros H. exists T. split; [reflexivity |].
  destruct (isinstance v T) eqn:E.
  - now injection H as <-.
  - now apply (construct_instance T v).
Qed.

(** An instance of the declared type is left as it is. *)
Lemma coerce_argument_fixed (properties : PyVal) (k : string) (v : PyVal)
    (T : PyType) :
  declared_type properties k = Ok T -> isinstance v T = true ->
  coerce_argument properties k v = Ok v.
Proof.
  intros HT Hi. rewrite coerce_argument_declared, HT. cbn [rbind].
  now rewrite Hi.
Qed.

Lemma traverse_coerce_items (properties : PyVal)
    (l vs : list (string * PyVal)) :
  traverse (coerce_item properties) l = Ok vs ->
  map fst vs = map fst l
  /\ Forall (fun kv => exists T, declared_type properties (fst kv) = Ok T
                                 /\ isinstance (snd kv) T = true) vs.
Proof.
  revert vs. induction l as [| [k w] l IH]; intros vs H; cbn [traverse] in H.
  - injection H as <-. split; [reflexivity | constructor].
  - unfold coerce_item at 1 in H. cbn [fst snd] in H.
    destruct (coerce_argument properties k w) as [v |] eqn:Ev;
      cbn [rbind] in H; [| discriminate H].
    destruct (traverse (coerce_item properties) l) as [vs' |];
      cbn [rbind] in H; [| discriminate H].
    injection H as <-. destruct (IH vs' eq_refl) as [Hk Hall].
    split; [cbn [map fst]; now rewrite Hk |].
    constructor; [| exact Hall].
    cbn [fst snd]. now apply (coerce_argument_instance properties k w).
Qed.

Lemma traverse_coerce_fixed (properties : PyVal) (l : list (string * PyVal)) :
  Forall (fun kv => exists T, declared_type properties (fst kv) = Ok T
                              /\ isinstance (snd kv) T = true) l ->
  traverse (coerce_item properties) l = Ok l.
Proof.
  induction 1 as [| [k v] l (T & HT & Hi) _ IH]; [reflexivity |].
  cbn [traverse]. unfold coerce_item at 1. cbn [fst snd] in *.
  rewrite (coerce_argument_fixed properties k v T HT Hi). cbn [rbind].
  now rewrite IH.
Qed.

(** A call whose arguments all are instances of their declared types
    comes back as it is. *)
Lemma validate_arguments_fixed (tool_call tool_signature properties : PyVal)
    (d args : list (string * PyVal)) :
  tool_call = VDict d ->
  dict_get d "arguments" = Some (VDict args) ->
  NoDup (map fst args) ->
  signature_properties tool_signature = Ok properties ->
  Forall (fun kv => exists T, declared_type properties (fst kv) = Ok T
                              /\ isinstance (snd kv) T = true) args ->
  validate_arguments tool_call tool_signature = Ok tool_call.
Proof.
  intros Htc Hargs Hnd Hsig Hall.
  rewrite (validate_arguments_traverse _ _ _ _ _ Htc Hargs Hnd Hsig).
  rewrite (traverse_coerce_fixed properties args Hall). cbn [rbind].
  now rewrite (dict_set_same d "arguments" (VDict args) Hargs), Htc.
Qed.

(** A validated call in terms of the call it comes from. *)
Lemma validate_arguments_result (tool_call tool_signature validated : PyVal)
    (d args : list (string * PyVal)) :
  tool_call = VDict d ->
  dict_get d "arguments" = Some (VDict args) ->
  NoDup (map fst args) ->
  validate_arguments tool_call tool_signature = Ok validated ->
  exists (properties : PyVal) (args' : list (string * PyVal)),
    signature_properties tool_signature = Ok properties
    /\ validated = VDict (dict_set d "arguments" (VDict args'))
    /\ map fst args' = map fst args
    /\ Forall (fun kv => exists T, declared_type properties (fst kv) = Ok T
                                   /\ isinstance (snd kv) T = true) args'.
Proof.
  intros Htc Hargs Hnd Hval.
  destruct (signature_properties tool_signature) as [properties |] eqn:Hsig.
  - rewrite (validate_arguments_traverse _ _ _ _ _ Htc Hargs Hnd Hsig) in Hval.
    destruct (traverse (coerce_item properties) args) as [vs |] eqn:Ev;
      cbn [rbind] in Hval; [| discriminate Hval].
    injection Hval as <-. exists properties, vs.
    destruct (traverse_coerce_items properties args vs Ev) as [Hk Hall].
    repeat split; assumption.
  - exfalso. unfold validate_arguments in Hval.
    unfold signature_properties in Hsig.
    destruct (py_getitem tool_signature "parameters") as [params |];
      cbn [rbind] in *; [| discriminate Hval].
    rewrite Hsig in Hval. discriminate Hval.
Qed.

(** When validation returns, the call that comes back differs from the
    one given only in the values of its arguments: the other entries of
    the call, and the names and the order of the arguments, are as
    before, no argument is added for a declared parameter that the call
    does not supply, and every argument now is an instance of the type
    the signature declares for it. *)
Theorem validate_arguments_postcondition
    (tool_call tool_signature validated : PyVal)
    (d args : list (string * PyVal)) :
  tool_call = VDict d ->
  dict_get d "arguments" = Some (VDict args) ->
  NoDup (map fst args) ->
  validate_arguments tool_call tool_signature = Ok validated ->
  exists (properties : PyVal) (d' args' : list (string * PyVal)),
    signature_properties tool_signature = Ok properties
    /\ validated = VDict d'
    /\ map fst d' = map fst d
    /\ (forall k, k <> "arguments" -> dict_get d' k = dict_get d k)
    /\ dict_get d' "arguments" = Some (VDict args')
    /\ map fst args' = map fst args
    /\ Forall (fun kv => exists T, declared_type properties (fst kv) = Ok T
                                   /\ isinstance (snd kv) T = true) args'.
Proof.
  intros Htc Hargs Hnd Hval.
  destruct (validate_arguments_result _ _ _ _ _ Htc Hargs Hnd Hval)
    as (properties & args' & Hsig & -> & Hk & Hall).
  exists properties, (dict_set d "arguments" (VDict args')), args'.
  repeat split; try assumption.
  - clear - Hargs. induction d as [| [k v] d IH]; [discriminate Hargs |].
    cbn [dict_get dict_set] in *.
    destruct (String.eqb k "arguments"); [reflexivity |].
    cbn [map fst]. now rewrite IH.
  - intros k Hk'. apply dict_get_set_other. congruence.
  - apply dict_get_set_same.
Qed.

(** Validation is idempotent: validating a validated call against the
    same signature returns it unchanged. *)
Theorem validate_arguments_idempotent
    (tool_call tool_signature validated : PyVal)
    (d args : list (string * PyVal)) :
  tool_call = VDict d ->
  dict_get d "arguments" = Some (VDict args) ->
  NoDup (map fst args) ->
  validate_arguments tool_call tool_signature = Ok validated ->
  validate_arguments validated tool_signature = Ok validated.
Proof.
  intros Htc Hargs Hnd Hval.
  destruct (validate_arguments_result _ _ _ _ _ Htc Hargs Hnd Hval)
    as (properties & args' & Hsig & -> & Hk & Hall).
  apply (validate_arguments_fixed _ _ properties
           (dict_set d "arguments" (VDict args')) args').
  - reflexivity.
  - apply dict_get_set_same.
  - now rewrite Hk.
  - exact Hsig.
  - exact Hall.
Qed.

(** A call whose arguments already are instances of the types declared
    for them is returned as it is: nothing is converted. *)
Theorem validate_arguments_unchanged
    (tool_call tool_signature properties : PyVal)
    (d args : list (string * PyVal)) :
  tool_call = VDict d ->
  dict_get d "arguments" = Some (VDict args) ->
  NoDup (map fst args) ->
  signature_properties tool_signature = Ok properties ->
  Forall (fun kv => exists T, declared_type properties (fst kv) = Ok T
                              /\ isinstance (snd kv) T = true) args ->
  validate_arguments tool_call tool_signature = Ok tool_call.
Proof.
  intros Htc Hargs Hnd Hsig Hall.
  rewrite (validate_arguments_traverse _ _ _ _ _ Htc Hargs Hnd Hsig).
  rewrite (traverse_coerce_fixed properties args Hall). cbn [rbind].
  rewrite (dict_set_same d "arguments" (VDict args) Hargs).
  now rewrite Htc.
Qed.

End ValidationProperties.

Lemma validate_arguments_postcondition_witness :
  exists (properties : PyVal) (d' args' : list (string * PyVal)),
    signature_properties (floats := example_floats) add_signature
    = Ok properties
    /\ VDict [("name", VStr "add");
              ("arguments", VDict [("a", VInt 5); ("b", VInt 3)]);
              ("id", VInt 0)] = VDict d'
    /\ dict_get d' "arguments" = Some (VDict args')
    /\ Forall (fun kv => exists T, declared_type properties (fst kv) = Ok T
                                   /\ isinstance (snd kv) T = true) args'.
Proof.
  destruct (validate_arguments_postcondition
              (floats := example_floats) (library := example_library)
              (VDict [("name", VStr "add");
                      ("arguments", VDict [("a", VStr "5"); ("b", VInt 3)]);
                      ("id", VInt 0)])
              add_signature
              (VDict [("name", VStr "add");
                      ("arguments", VDict [("a", VInt 5); ("b", VInt 3)]);
                      ("id", VInt 0)])
              [("name", VStr "add");
               ("arguments", VDict [("a", VStr "5"); ("b", VInt 3)]);
               ("id", VInt 0)]
              [("a", VStr "5"); ("b", VInt 3)] eq_refl eq_refl)
    as (properties & d' & args' & Hsig & Hv & _ & _ & Hargs & _ & Hall).
  - cbn. repeat constructor; cbn; intuition discriminate.
  - reflexivity.
  - exists properties, d', args'. repeat split; assumption.
Defined.

Lemma validate_arguments_idempotent_witness :
  validate_arguments (floats := example_floats) (library := example_library)
    (VDict [("name", VStr "add");
            ("arguments", VDict [("a", VInt 5); ("b", VInt 3)]);
            ("id", VInt 0)]) add_signature
  = Ok (VDict [("name", VStr "add");
               ("arguments", VDict [("a", VInt 5); ("b", VInt 3)]);
               ("id", VInt 0)]).
Proof.
  apply (validate_arguments_idempotent
           (floats := example_floats) (library := example_library)
           (VDict [("name", VStr "add");
                   ("arguments", VDict [("a", VStr "5"); ("b", VInt 3)]);
                   ("id", VInt 0)])
           add_signature
           (VDict [("name", VStr "add");
                   ("arguments", VDict [("a", VInt 5); ("b", VInt 3)]);
                   ("id", VInt 0)])
           [("name", VStr "add");
            ("arguments", VDict [("a", VStr "5"); ("b", VInt 3)]);
            ("id", VInt 0)]
           [("a", VStr "5"); ("b", VInt 3)] eq_refl eq_refl).
  - cbn. repeat constructor; cbn; intuition discriminate.
  - reflexivity.
Defined.

Lemma validate_arguments_unchanged_witness :
  validate_arguments (floats := example_floats) (library := example_library)
    (VDict [("name", VStr "add");
            ("arguments", VDict [("a", VInt 5); ("b", VBool true)]);
            ("id", VInt 0)]) add_signature
  = Ok (VDict [("name", VStr "add");
               ("arguments", VDict [("a", VInt 5); ("b", VBool true)]);
               ("id", VInt 0)]).
Proof.
  apply (validate_arguments_unchanged
           (floats := example_floats) (library := example_library)
           (VDict [("name", VStr "add");
                   ("arguments", VDict [("a", VInt 5); ("b", VBool true)]);
                   ("id", VInt 0)])
           add_signature
           (VDict [("a", VDict [("type", VStr "int")]);
                   ("b", VDict [("type", VStr "int")])])
           [("name", VStr "add");
            ("arguments", VDict [("a", VInt 5); ("b", VBool true)]);
            ("id", VInt 0)]
           [("a", VInt 5); ("b", VBool true)] eq_refl eq_refl).
  - cbn. repeat constructor; cbn; intuition discriminate.
  - reflexivity.
  - repeat constructor; exists TInt; split; reflexivity.
Defined.

(** ** Argument validation: conversions and failures *)

Section ValidationCases.

Context {floats : PyFloat} {library : PyLibrary}.

(** An argument whose conversion raises makes validation raise; the
    exception is that of the argument when the other arguments
    convert. *)
Lemma validate_arguments_raises_at
    (tool_call tool_signature properties : PyVal)
    (d args : list (string * PyVal)) (a : string) (v : PyVal) (e : Exn) :
  tool_call = VDict d ->
  dict_get d "arguments" = Some (VDict args) ->
  NoDup (map fst args) ->
  signature_properties tool_signature = Ok properties ->
  dict_get args a = Some v ->
  coerce_argument properties a v = Raise e ->
  is_ok (validate_arguments tool_call tool_signature) = false
  /\ ((forall b w, In (b, w) args -> b <> a ->
         is_ok (coerce_argument properties b w) = true) ->
      validate_arguments tool_call tool_signature = Raise e).
Proof.
  intros Htc Hargs Hnd Hsig Hv He.
  rewrite (validate_arguments_traverse _ _ _ _ _ Htc Hargs Hnd Hsig).
  destruct (dict_get_split args a v Hv) as (pre & post & -> & Hpre).
  destruct (traverse_coerce_raises properties pre post a v e He)
    as [Hnot Hraise].
  split.
  - destruct (traverse _ _); [discriminate Hnot | reflexivity].
  - intros Hothers. rewrite Hraise; [reflexivity |].
    intros k' w' Hin. apply Hothers.
    + apply in_or_app. now left.
    + intros ->. apply Hpre. now apply (in_map fst) in Hin.
Qed.

(** An argument whose conversion returns is found converted in the
    validated call, when the other arguments convert. *)
Lemma validate_arguments_converts_at
    (tool_call tool_signature properties : PyVal)
    (d args : list (string * PyVal)) (a : string) (v v' : PyVal) :
  tool_call = VDict d ->
  dict_get d "arguments" = Some (VDict args) ->
  NoDup (map fst args) ->
  signature_properties tool_signature = Ok properties ->
  dict_get args a = Some v ->
  coerce_argument properties a v = Ok v' ->
  (forall b w, In (b, w) args -> b <> a ->
     is_ok (coerce_argument properties b w) = true) ->
  exists validated,
    validate_arguments tool_call tool_signature = Ok validated
    /\ argument_of validated a = Ok v'.
Proof.
  intros Htc Hargs Hnd Hsig Hv Hok Hothers.
  rewrite (validate_arguments_traverse _ _ _ _ _ Htc Hargs Hnd Hsig).
  destruct (traverse_coerce_ok properties args) as (vs & -> & Hvs).
  { intros k w Hin. destruct (String.eqb_spec k a) as [-> | Hne].
    - destruct (dict_get_split args a v Hv) as (pre & post & -> & Hpre).
      apply in_app_or in Hin as [Hin | [Hin | Hin]].
      + exfalso. apply Hpre. now apply (in_map fst) in Hin.
      + injection Hin as <-. now rewrite Hok.
      + exfalso. rewrite map_app in Hnd. cbn [map fst] in Hnd.
        apply NoDup_remove_2 in Hnd. apply Hnd.
        apply in_or_app. right. now apply (in_map fst) in Hin.
    - now apply Hothers. }
  destruct (Hvs a v Hv) as (v'' & Hv'' & Hget).
  rewrite Hok in Hv''. injection Hv'' as <-.
  eexists. split; [reflexivity |].
  unfold argument_of. cbn [rbind py_getitem].
  rewrite dict_get_set_same. cbn [rbind py_getitem]. now rewrite Hget.
Qed.

(** An argument that the signature does not declare makes validation
    raise: the call is not passed on with the extra argument dropped or
    kept.  The exception is [KeyError] when the other arguments
    convert. *)
Theorem validate_arguments_undeclared
    (tool_call tool_signature : PyVal)
    (d args props : list (string * PyVal)) (a : string) (v : PyVal) :
  tool_call = VDict d ->
  dict_get d "arguments" = Some (VDict args) ->
  NoDup (map fst args) ->
  signature_properties tool_signature = Ok (VDict props) ->
  dict_get args a = Some v ->
  dict_get props a = None ->
  is_ok (validate_arguments tool_call tool_signature) = false
  /\ ((forall b w, In (b, w) args -> b <> a ->
         is_ok (coerce_argument (VDict props) b w) = true) ->
      validate_arguments tool_call tool_signature = Raise KeyError).
Proof.
  intros Htc Hargs Hnd Hsig Hv Hundeclared.
  apply (validate_arguments_raises_at _ _ (VDict props) d args a v);
    try assumption.
  unfold coerce_argument. cbn [py_getitem]. now rewrite Hundeclared.
Qed.

(** A text supplied for an argument declared [bool] becomes [True]
    unless it is empty: the text is not read, so ["False"] and ["0"]
    become [True] too. *)
Theorem validate_arguments_bool_of_text
    (tool_call tool_signature properties : PyVal)
    (d args : list (string * PyVal)) (a s : string) :
  tool_call = VDict d ->
  dict_get d "arguments" = Some (VDict args) ->
  NoDup (map fst args) ->
  signature_properties tool_signature = Ok properties ->
  declared_type properties a = Ok TBool ->
  dict_get args a = Some (VStr s) ->
  (forall b w, In (b, w) args -> b <> a ->
     is_ok (coerce_argument properties b w) = true) ->
  exists validated,
    validate_arguments tool_call tool_signature = Ok validated
    /\ argument_of validated a = Ok (VBool (negb (String.eqb s ""))).
Proof.
  intros Htc Hargs Hnd Hsig Hdecl Hv Hothers.
  apply (validate_arguments_converts_at _ _ properties d args a (VStr s));
    try assumption.
  rewrite coerce_argument_declared, Hdecl. reflexivity.
Qed.

End ValidationCases.

Lemma validate_arguments_undeclared_witness :
  validate_arguments (floats := example_floats) (library := example_library)
    (VDict [("name", VStr "add");
            ("arguments", VDict [("a", VInt 5); ("c", VInt 3)]);
            ("id", VInt 0)]) add_signature
  = Raise KeyError.
Proof.
  apply (validate_arguments_undeclared
           (floats := example_floats) (library := example_library)
           (VDict [("name", VStr "add");
                   ("arguments", VDict [("a", VInt 5); ("c", VInt 3)]);
                   ("id", VInt 0)])
           add_signature
           [("name", VStr "add");
            ("arguments", VDict [("a", VInt 5); ("c", VInt 3)]);
            ("id", VInt 0)]
           [("a", VInt 5); ("c", VInt 3)]
           [("a", VDict [("type", VStr "int")]);
            ("b", VDict [("type", VStr "int")])]
           "c" (VInt 3) eq_refl eq_refl).
  - cbn. repeat constructor; cbn; intuition discriminate.
  - reflexivity.
  - reflexivity.
  - reflexivity.
  - intros b w [H | [H | []]] Hb; injection H as <- <-;
      [reflexivity | now destruct Hb].
Defined.

Lemma validate_arguments_bool_of_text_witness :
  exists validated,
    validate_arguments (floats := example_floats) (library := example_library)
      (VDict [("name", VStr "notify");
              ("arguments", VDict [("urgent", VStr "False")]);
              ("id", VInt 0)])
      (VDict [("parameters",
               VDict [("properties",
                       VDict [("urgent", VDict [("type", VStr "bool")])])])])
    = Ok validated
    /\ argument_of validated "urgent" = Ok (VBool true).
Proof.
  apply (validate_arguments_bool_of_text
           (floats := example_floats) (library := example_library)
           (VDict [("name", VStr "notify");
                   ("arguments", VDict [("urgent", VStr "False")]);
                   ("id", VInt 0)])
           (VDict [("parameters",
                    VDict [("properties",
                            VDict [("urgent",
                                    VDict [("type", VStr "bool")])])])])
           (VDict [("urgent", VDict [("type", VStr "bool")])])
           [("name", VStr "notify");
            ("arguments", VDict [("urgent", VStr "False")]);
            ("id", VInt 0)]
           [("urgent", VStr "False")] "urgent" "False" eq_refl eq_refl).
  - cbn. repeat constructor; cbn; intuition discriminate.
  - reflexivity.
  - reflexivity.
  - reflexivity.
  - intros b w [H | []] Hb. injection H as <- <-. now destruct Hb.
Defined.

(** ** Signatures and validation together; the decorator *)

Section SignatureProperties.

Context {floats : PyFloat} {library : PyLibrary}.

(** The signature of a function whose parameter annotations are
    classes. *)
Lemma get_fn_signature_value (fn : PyFunction) :
  ~ In "return" (map fst (parameters fn)) ->
  Forall (fun p => snd p <> Some ANameless) (parameters fn) ->
  get_fn_signature fn
  = Ok (VDict
          [("name", VStr (__name__ fn));
           ("description",
            match __doc__ fn with Some d => VStr d | None => VNone end);
           ("parameters",
            VDict [("properties", VDict (annotated_properties fn))])]).
Proof.
  intros Hret Hnamed. unfold get_fn_signature.
  rewrite (annotations_without_return fn Hret).
  rewrite (traverse_annotations _ Hnamed). reflexivity.
Qed.

(** The property of an annotated parameter. *)
Lemma annotated_properties_get (ps : list (string * option Annotation))
    (a T : string) :
  NoDup (map fst ps) ->
  In (a, Some (AClass T)) ps ->
  dict_get
    (flat_map (fun p => match snd p with
                        | Some (AClass T) =>
                            [(fst p, VDict [("type", VStr T)])]
                        | _ => []
                        end) ps) a
  = Some (VDict [("type", VStr T)]).
Proof.
  induction ps as [| [k ann] ps IH]; intros Hnd Hin; [destruct Hin |].
  cbn [map fst] in Hnd. inversion Hnd as [| ? ? Hk Hnd']; subst.
  destruct Hin as [E | Hin].
  - injection E as -> ->. cbn [flat_map fst snd app dict_get].
    now rewrite String.eqb_refl.
  - assert (Hne : k <> a).
    { intros ->. apply Hk. now apply (in_map fst) in Hin. }
    cbn [flat_map fst snd].
    destruct ann as [[T' |] |]; cbn [app dict_get];
      [destruct (String.eqb_spec k a); [contradiction |] | |];
      now apply IH.
Qed.

Lemma type_mapping_unsupported (T : string) :
  ~ In T primitive_types -> type_mapping (VStr T) = Raise KeyError.
Proof.
  intros Hnot. cbn [type_mapping]. unfold primitive_types in Hnot.
  cbn [In] in Hnot.
  destruct (String.eqb_spec T "int"); [intuition congruence |].
  destruct (String.eqb_spec T "str"); [intuition congruence |].
  destruct (String.eqb_spec T "bool"); [intuition congruence |].
  destruct (String.eqb_spec T "float"); [intuition congruence |].
  reflexivity.
Qed.

(** [get_fn_signature] and [validate_arguments] do not agree on the
    types they know.  For a parameter annotated with a class other than
    [int], [str], [bool] and [float], [get_fn_signature] puts the name
    of the class into the signature, and against that signature every
    tool call that supplies the parameter fails validation, whatever
    value it supplies; the exception is [KeyError] when the other
    arguments convert. *)
Theorem signature_type_not_validated (fn : PyFunction) (a T : string)
    (tool_call : PyVal) (d args : list (string * PyVal)) (v : PyVal) :
  ~ In "return" (map fst (parameters fn)) ->
  NoDup (map fst (parameters fn)) ->
  Forall (fun p => snd p <> Some ANameless) (parameters fn) ->
  In (a, Some (AClass T)) (parameters fn) ->
  ~ In T primitive_types ->
  tool_call = VDict d ->
  dict_get d "arguments" = Some (VDict args) ->
  NoDup (map fst args) ->
  dict_get args a = Some v ->
  exists tool_signature,
    get_fn_signature fn = Ok tool_signature
    /\ is_ok (validate_arguments tool_call tool_signature) = false
    /\ ((forall b w, In (b, w) args -> b <> a ->
           is_ok (coerce_argument (VDict (annotated_properties fn)) b w)
           = true) ->
        validate_arguments tool_call tool_signature = Raise KeyError).
Proof.
  intros Hret Hnames Hnamed Hin HT Htc Hargs Hnd Hv.
  eexists. split; [now apply get_fn_signature_value |].
  apply (validate_arguments_raises_at _ _
           (VDict (annotated_properties fn)) d args a v);
    try assumption; try reflexivity.
  unfold coerce_argument. cbn [py_getitem]. unfold annotated_properties.
  rewrite (annotated_properties_get _ a T Hnames Hin).
  cbn [rbind py_get dict_get String.eqb Ascii.eqb Bool.eqb].
  change (dict_get [("type", VStr T)] "type") with (Some (VStr T)).
  cbn [rbind]. now rewrite (type_mapping_unsupported T HT).
Qed.

(** A parameter annotation without [__name__] makes the derivation of
    the schema raise. *)
Lemma traverse_annotations_nameless (ps : list (string * option Annotation)) :
  Exists (fun p => snd p = Some ANameless) ps ->
  traverse
    (fun kv : string * Annotation =>
       (name <- annotation_name (snd kv) ;;
        Ok (fst kv, VDict [("type", VStr name)]))%result)
    (flat_map (fun p => match snd p with
                        | Some a => [(fst p, a)]
                        | None => []
                        end) ps)
  = Raise AttributeError.
Proof.
  induction 1 as [[k a] ps Hp | [k [[T |] |]] ps _ IH];
    cbn [flat_map app fst snd] in *.
  - subst a. reflexivity.
  - cbn [traverse annotation_name rbind fst snd]. now rewrite IH.
  - reflexivity.
  - exact IH.
Qed.

(** The decorator [tool] returns a tool exactly when every annotation of
    a parameter is a class: then the tool has the name of the function
    and, as its signature, the JSON text of the derived signature; one
    annotation without [__name__] makes it raise [AttributeError].
    Running the tool is calling the function on the keyword arguments
    given: they are not validated against the signature. *)
Theorem tool_decorator (fn : PyFunction) :
  ~ In "return" (map fst (parameters fn)) ->
  (Forall (fun p => snd p <> Some ANameless) (parameters fn) ->
   exists signature,
     get_fn_signature fn = Ok signature
     /\ tool fn = Ok (Tool.mk (__name__ fn) fn (json_dumps signature)))
  /\ (Exists (fun p => snd p = Some ANameless) (parameters fn) ->
      tool fn = Raise AttributeError)
  /\ (forall t, tool fn = Ok t ->
        Tool.name t = __name__ fn
        /\ forall kwargs, Tool.run t kwargs = call fn kwargs).
Proof.
  intros Hret. split; [| split].
  - intros Hnamed. eexists. unfold tool.
    rewrite (get_fn_signature_value fn Hret Hnamed). split; reflexivity.
  - intros Hnameless. unfold tool, get_fn_signature.
    rewrite (annotations_without_return fn Hret).
    now rewrite (traverse_annotations_nameless _ Hnameless).
  - intros t. unfold tool, get_fn_signature.
    destruct (traverse _ _) as [schema |]; cbn [rbind py_get dict_get];
      [| discriminate].
    change (String.eqb "name" "name") with true. cbv beta iota.
    intros H. injection H as <-. split; reflexivity.
Qed.

End SignatureProperties.

Lemma signature_type_not_validated_witness :
  exists tool_signature,
    get_fn_signature (floats := example_floats) total_function
    = Ok tool_signature
    /\ validate_arguments (floats := example_floats)
         (library := example_library)
         (VDict [("name", VStr "total");
                 ("arguments", VDict [("values", VList [VInt 1; VInt 2])]);
                 ("id", VInt 0)]) tool_signature
       = Raise KeyError.
Proof.
  destruct (signature_type_not_validated
              (floats := example_floats) (library := example_library)
              total_function "values" "list"
              (VDict [("name", VStr "total");
                      ("arguments", VDict [("values", VList [VInt 1; VInt 2])]);
                      ("id", VInt 0)])
              [("name", VStr "total");
               ("arguments", VDict [("values", VList [VInt 1; VInt 2])]);
               ("id", VInt 0)]
              [("values", VList [VInt 1; VInt 2])]
              (VList [VInt 1; VInt 2]))
    as (sg & Hsig & _ & Hraise).
  - cbn. intuition discriminate.
  - cbn. repeat constructor; cbn; intuition discriminate.
  - repeat constructor; discriminate.
  - now left.
  - cbn. intuition discriminate.
  - reflexivity.
  - reflexivity.
  - cbn. repeat constructor; cbn; intuition discriminate.
  - reflexivity.
  - exists sg. split; [exact Hsig |]. apply Hraise.
    intros b w [H | []] Hb. injection H as <- <-. now destruct Hb.
Defined.

Lemma tool_decorator_witness :
  tool (floats := example_floats) (library := example_library) add_function
  = Ok (Tool.mk "add" add_function "add").
Proof.
  destruct (proj1 (tool_decorator (floats := example_floats)
                     (library := example_library) add_function
                     ltac:(cbn; intuition discriminate)))
    as (signature & _ & E).
  - repeat constructor; discriminate.
  - exact E.
Defined.
(** ** The tool-calling loop: dispatch, tool runs and the final request *)

Lemma find_app {A : Type} (p : A -> bool) (l1 l2 : list A) :
  find p (l1 ++ l2)
  = match find p l1 with
    | Some x => Some x
    | None => find p l2
    end.
Proof.
  induction l1 as [| a l1 IH]; [reflexivity |].
  cbn [app find]. destruct (p a); [reflexivity | exact IH].
Qed.

Lemma dict_get_set {V : Type} (d : list (string * V)) (k k' : string) (v : V) :
  dict_get (dict_set d k v) k'
  = if String.eqb k k' then Some v else dict_get d k'.
Proof.
  destruct (String.eqb_spec k k') as [-> | Hne].
  - apply dict_get_set_same.
  - now apply dict_get_set_other.
Qed.

Section ToolAgentDispatch.

Context {floats : PyFloat} {library : PyLibrary} {groq : Groq}.

(** In a dict built from a list of tools, a name gives the last tool of
    the list that has it. *)
Lemma tools_dict_get (ts : list Tool.t) (name : string) :
  forall acc : list (string * Tool.t),
    dict_get (fold_left (fun d tool => dict_set d (Tool.name tool) tool) ts acc)
      name
    = match find (fun tool => String.eqb (Tool.name tool) name) (rev ts) with
      | Some tool => Some tool
      | None => dict_get acc name
      end.
Proof.
  induction ts as [| t ts IH]; intros acc; [reflexivity |].
  cbn [fold_left rev]. rewrite IH, find_app. cbn [find].
  destruct (find _ (rev ts)); [reflexivity |].
  rewrite dict_get_set.
  now destruct (String.eqb (Tool.name t) name).
Qed.

Lemma lookup_tool_find (self : ToolAgent.t) (name : string) :
  ToolAgent.lookup_tool self (VStr name)
  = match find (fun tool => String.eqb (Tool.name tool) name)
            (rev (ToolAgent.tools self)) with
    | Some tool => Ok tool
    | None => Raise KeyError
    end.
Proof.
  unfold ToolAgent.lookup_tool, ToolAgent.tools_dict.
  rewrite tools_dict_get. now destruct (find _ _).
Qed.

(** A tool that is looked up is one of the agent's tools, under its own
    name. *)
Lemma lookup_tool_registered (self : ToolAgent.t) (tool_name : PyVal)
    (tool : Tool.t) :
  ToolAgent.lookup_tool self tool_name = Ok tool ->
  In tool (ToolAgent.tools self) /\ tool_name = VStr (Tool.name tool).
Proof.
  destruct tool_name as [| b | z | x | name | l | d]; try discriminate.
  rewrite lookup_tool_find.
  destruct (find _ _) as [t |] eqn:E; [| discriminate].
  intros H. injection H as ->. apply find_some in E as [Hin Hname].
  apply String.eqb_eq in Hname. split; [| now rewrite Hname].
  now apply in_rev.
Qed.

(** When two tools of an agent have the same name, the later one is the
    one called: a name is dispatched to the last tool of the list that
    has it, and to none, with [KeyError], when no tool has it. *)
Theorem lookup_tool_last_wins (self : ToolAgent.t) (name : string) :
  ToolAgent.lookup_tool self (VStr name)
  = match find (fun tool => String.eqb (Tool.name tool) name)
            (rev (ToolAgent.tools self)) with
    | Some tool => Ok tool
    | None => Raise KeyError
    end.
Proof.
  unfold ToolAgent.lookup_tool, ToolAgent.tools_dict.
  rewrite tools_dict_get.
  destruct (find _ (rev (ToolAgent.tools self))); reflexivity.
Qed.

(** Processing never talks to the model, and it runs tools of the agent
    only: at most one for each call, and one for each call when it
    returns. *)
Lemma process_loop_runs (self : ToolAgent.t) (calls : list string) :
  forall (observations : list (PyVal * PyVal)) (w : ToolAgent.World),
  exists new : list (string * list (string * PyVal)),
    snd (ToolAgent.process_loop self calls observations w)
    = ToolAgent.mkWorld (ToolAgent.client w) (ToolAgent.tool_runs w ++ new)
    /\ (List.length new <= List.length calls)%nat
    /\ (is_ok (fst (ToolAgent.process_loop self calls observations w)) = true ->
        List.length new = List.length calls)
    /\ Forall (fun run => exists tool, In tool (ToolAgent.tools self)
                                       /\ fst run = Tool.name tool) new.
Proof.
  induction calls as [| s calls IH]; intros observations w.
  - exists []. destruct w. cbn. rewrite app_nil_r.
    repeat split; [lia | constructor].
  - cbn [ToolAgent.process_loop]. unfold bind, ToolAgent.pure.
    destruct (json_loads s) as [tool_call | e];
      [| exists []; destruct w; cbn; rewrite app_nil_r;
         repeat split; [lia | discriminate | constructor]].
    destruct (py_getitem tool_call "name") as [tool_name | e];
      [| exists []; destruct w; cbn; rewrite app_nil_r;
         repeat split; [lia | discriminate | constructor]].
    destruct (ToolAgent.lookup_tool self tool_name) as [tool | e] eqn:Etool;
      [| exists []; destruct w; cbn; rewrite app_nil_r;
         repeat split; [lia | discriminate | constructor]].
    destruct (json_loads (Tool.fn_signature tool)) as [tool_signature | e];
      [| exists []; destruct w; cbn; rewrite app_nil_r;
         repeat split; [lia | discriminate | constructor]].
    destruct (validate_arguments tool_call tool_signature)
      as [validated | e];
      [| exists []; destruct w; cbn; rewrite app_nil_r;
         repeat split; [lia | discriminate | constructor]].
    destruct (py_getitem validated "arguments") as [arguments | e];
      [| exists []; destruct w; cbn; rewrite app_nil_r;
         repeat split; [lia | discriminate | constructor]].
    destruct (match arguments with VDict d => Ok d | _ => Raise TypeError end)
      as [kwargs | e];
      [| exists []; destruct w; cbn; rewrite app_nil_r;
         repeat split; [lia | discriminate | constructor]].
    unfold ToolAgent.run_tool.
    assert (Hreg : exists t, In t (ToolAgent.tools self)
                             /\ Tool.name tool = Tool.name t).
    { exists tool. split; [| reflexivity].
      now apply (lookup_tool_registered self tool_name). }
    destruct (Tool.run tool kwargs) as [result | e];
      [| exists [(Tool.name tool, kwargs)]; cbn;
         repeat split; [lia | discriminate | now repeat constructor]].
    destruct (py_getitem validated "id") as [id | e];
      [| exists [(Tool.name tool, kwargs)]; cbn;
         repeat split; [lia | discriminate | now repeat constructor]].
    destruct (observations_set observations id result) as [observations' | e];
      [| exists [(Tool.name tool, kwargs)]; cbn;
         repeat split; [lia | discriminate | now repeat constructor]].
    destruct (IH observations'
                (ToolAgent.mkWorld (ToolAgent.client w)
                   (ToolAgent.tool_runs w ++ [(Tool.name tool, kwargs)])))
      as (new & Hw & Hle & Heq & Hall).
    exists ((Tool.name tool, kwargs) :: new).
    cbn [ToolAgent.client ToolAgent.tool_runs] in Hw.
    rewrite Hw, <- app_assoc. cbn [app List.length].
    repeat split; [lia | intros Hok; rewrite (Heq Hok); reflexivity |].
    constructor; assumption.
Qed.

(** [process_tool_calls] leaves the client alone: it makes no request.
    It runs tools of the agent only, in the order of the calls, at most
    one for each call and exactly one for each call when it returns. *)
Theorem process_tool_calls_runs (self : ToolAgent.t) (calls : list string)
    (w : ToolAgent.World) :
  exists new : list (string * list (string * PyVal)),
    snd (ToolAgent.process_tool_calls self calls w)
    = ToolAgent.mkWorld (ToolAgent.client w) (ToolAgent.tool_runs w ++ new)
    /\ (List.length new <= List.length calls)%nat
    /\ (is_ok (fst (ToolAgent.process_tool_calls self calls w)) = true ->
        List.length new = List.length calls)
    /\ Forall (fun run => exists tool, In tool (ToolAgent.tools self)
                                       /\ fst run = Tool.name tool) new.
Proof.
  unfold ToolAgent.process_tool_calls.
  destruct (process_loop_runs self calls [] w)
    as (new & Hworld & Hmost & Hall & Htools).
  exists new. repeat split; assumption.
Qed.

End ToolAgentDispatch.

Section ToolAgentRuns.

Context {floats : PyFloat} {library : PyLibrary} {groq : Groq}.

(** A run whose first response holds a [<tool_call>] span.  The trimmed
    texts of the spans are processed as tool calls.  If that raises, the
    run raises the same exception and no second request is made: the
    client has served the first request only.  If it returns, the second
    request is made on the user's message followed by one user message
    that holds the observations, and its answer is returned. *)
Theorem tool_agent_tool_path (self : ToolAgent.t) (user_msg : string)
    (w : ToolAgent.World) :
  let user_prompt := build_prompt_structure user_msg "user" "" in
  let first :=
    chat_completions_create (ToolAgent.client w)
      [build_prompt_structure
         (TOOL_SYSTEM_PROMPT (ToolAgent.add_tool_signatures self))
         "system" "";
       user_prompt] (ToolAgent.model self) in
  let processed :=
    ToolAgent.process_tool_calls self
      (TagContentResult.content (ToolAgent.extract_tool_calls (fst first)))
      (ToolAgent.mkWorld (snd first) (ToolAgent.tool_runs w)) in
  has_tag_span (fst first) "tool_call" ->
  match fst processed with
  | Raise e =>
      ToolAgent.run self user_msg w = (Raise e, snd processed)
      /\ ToolAgent.client (snd processed) = snd first
  | Ok observations =>
      let second :=
        chat_completions_create (snd first)
          [user_prompt;
           mkMessage "user"
             ("Observation: " ++ str_of_observations observations)]
          (ToolAgent.model self) in
      ToolAgent.run self user_msg w
      = (Ok (fst second),
         ToolAgent.mkWorld (snd second) (ToolAgent.tool_runs (snd processed)))
  end.
Proof.
  intros user_prompt first processed Hspan.
  apply extract_tool_calls_found in Hspan.
  destruct (process_loop_runs self
              (TagContentResult.content
                 (ToolAgent.extract_tool_calls (fst first))) []
              (ToolAgent.mkWorld (snd first) (ToolAgent.tool_runs w)))
    as (new & Hw & _).
  fold (ToolAgent.process_tool_calls self
          (TagContentResult.content (ToolAgent.extract_tool_calls (fst first)))
          (ToolAgent.mkWorld (snd first) (ToolAgent.tool_runs w))) in Hw.
  fold processed in Hw. cbn [ToolAgent.client ToolAgent.tool_runs] in Hw.
  unfold ToolAgent.run, bind, ToolAgent.request, completions_create, ret.
  cbn [items ChatHistory_init ToolAgent.client ToolAgent.tool_runs].
  fold user_prompt. fold first.
  destruct first as [response client1] eqn:E1. cbn [fst snd] in *.
  rewrite Hspan. fold processed.
  destruct processed as [[observations | e] w1]; cbn [fst snd] in *.
  - subst w1. unfold ToolAgent.pure.
    change (update_chat_history ChatHistory_append
              ("Observation: " ++ str_of_observations observations) "user"
              (ChatHistory_init (Some [user_prompt]) (-1)))
      with (Ok tt,
            mkChatHistory
              [user_prompt;
               mkMessage "user"
                 ("Observation: " ++ str_of_observations observations)] (-1)).
    cbv beta iota. cbn [items ToolAgent.client ToolAgent.tool_runs].
    destruct (chat_completions_create client1 _ _); reflexivity.
  - split; [reflexivity | now subst w1].
Qed.

(** A call that cannot be dispatched ends the processing before any tool
    runs, and the calls after it are not looked at: a text that is not
    JSON raises what [json.loads] raises, and the name of a tool the
    agent does not have raises [KeyError]. *)
Theorem process_tool_calls_undispatched (self : ToolAgent.t)
    (tool_call_str : string) (rest : list string) (w : ToolAgent.World) :
  (forall e, json_loads tool_call_str = Raise e ->
     ToolAgent.process_tool_calls self (tool_call_str :: rest) w
     = (Raise e, w))
  /\ (forall tool_call name,
        json_loads tool_call_str = Ok tool_call ->
        py_getitem tool_call "name" = Ok (VStr name) ->
        (forall tool, In tool (ToolAgent.tools self) ->
           Tool.name tool <> name) ->
        ToolAgent.process_tool_calls self (tool_call_str :: rest) w
        = (Raise KeyError, w)).
Proof.
  unfold ToolAgent.process_tool_calls. cbn [ToolAgent.process_loop].
  unfold bind, ToolAgent.pure. split.
  - intros e ->. reflexivity.
  - intros tool_call name -> -> Hnone.
    rewrite lookup_tool_find.
    destruct (find _ _) as [t |] eqn:E; [| reflexivity].
    apply find_some in E as [Hin Hname]. apply String.eqb_eq in Hname.
    exfalso. apply (Hnone t); [now apply in_rev | exact Hname].
Qed.

(** The id of a tool call is read only after its tool has run.  For a
    call without [id] that names a tool of the agent and whose arguments
    validate, the tool is run with the validated arguments, and then the
    processing raises [KeyError]: the result of the tool is lost and the
    calls after it are not made. *)
Theorem process_tool_calls_missing_id (self : ToolAgent.t)
    (tool_call_str : string) (rest : list string) (w : ToolAgent.World)
    (d args : list (string * PyVal)) (name : string)
    (tool_signature validated : PyVal) (tool : Tool.t) :
  json_loads tool_call_str = Ok (VDict d) ->
  dict_get d "name" = Some (VStr name) ->
  dict_get d "arguments" = Some (VDict args) ->
  NoDup (map fst args) ->
  dict_get d "id" = None ->
  ToolAgent.lookup_tool self (VStr name) = Ok tool ->
  json_loads (Tool.fn_signature tool) = Ok tool_signature ->
  validate_arguments (VDict d) tool_signature = Ok validated ->
  exists kwargs : list (string * PyVal),
    py_getitem validated "arguments" = Ok (VDict kwargs)
    /\ map fst kwargs = map fst args
    /\ forall result : PyVal,
         Tool.run tool kwargs = Ok result ->
         ToolAgent.process_tool_calls self (tool_call_str :: rest) w
         = (Raise KeyError,
            ToolAgent.mkWorld (ToolAgent.client w)
              (ToolAgent.tool_runs w ++ [(Tool.name tool, kwargs)])).
Proof.
  intros Hjson Hname Hargs Hnd Hid Htool Hsig Hval.
  destruct (validate_arguments_result (VDict d) tool_signature validated
              d args eq_refl Hargs Hnd Hval)
    as (properties & kwargs & _ & -> & Hkeys & _).
  exists kwargs.
  assert (Hkw : py_getitem (VDict (dict_set d "arguments" (VDict kwargs)))
                  "arguments" = Ok (VDict kwargs)).
  { cbn [py_getitem]. now rewrite dict_get_set_same. }
  assert (Hnoid : py_getitem (VDict (dict_set d "arguments" (VDict kwargs)))
                    "id" = Raise KeyError).
  { cbn [py_getitem]. rewrite dict_get_set_other by discriminate.
    now rewrite Hid. }
  split; [exact Hkw |]. split; [exact Hkeys |].
  intros result Hrun.
  unfold ToolAgent.process_tool_calls. cbn [ToolAgent.process_loop].
  unfold bind, ToolAgent.pure, ToolAgent.run_tool.
  rewrite Hjson. cbn [py_getitem]. rewrite Hname.
  rewrite Htool, Hsig, Hval, Hkw, Hrun, Hnoid. reflexivity.
Qed.

End ToolAgentRuns.

Lemma tool_agent_tool_path_witness :
  ToolAgent.run (library := calls_library) (groq := scripted_client)
    add_agent "What is 5 + 3?"
    (ToolAgent.mkWorld (groq := scripted_client)
       ["<tool_call> call </tool_call>"; "The sum is 8."] [])
  = (Ok "The sum is 8.",
     ToolAgent.mkWorld (groq := scripted_client) []
       [("add", [("a", VInt 5); ("b", VInt 3)])]).
Proof.
  refine (tool_agent_tool_path (library := calls_library)
            (groq := scripted_client) add_agent "What is 5 + 3?"
            (ToolAgent.mkWorld (groq := scripted_client)
               ["<tool_call> call </tool_call>"; "The sum is 8."] []) _).
  exists "", " call ", "". reflexivity.
Defined.

Lemma process_tool_calls_undispatched_witness :
  ToolAgent.process_tool_calls (library := calls_library)
    (groq := scripted_client) (ToolAgent.mk "llama" []) ["call"; "call"]
    (ToolAgent.mkWorld (groq := scripted_client) [] [])
  = (Raise KeyError, ToolAgent.mkWorld (groq := scripted_client) [] []).
Proof.
  apply (proj2 (process_tool_calls_undispatched (library := calls_library)
                  (groq := scripted_client) (ToolAgent.mk "llama" [])
                  "call" ["call"]
                  (ToolAgent.mkWorld (groq := scripted_client) [] []))
           add_call "add").
  - reflexivity.
  - reflexivity.
  - intros tool [].
Defined.

Lemma process_tool_calls_missing_id_witness :
  ToolAgent.process_tool_calls (library := calls_library)
    (groq := scripted_client) add_agent ["call without id"; "call"]
    (ToolAgent.mkWorld (groq := scripted_client) [] [])
  = (Raise KeyError,
     ToolAgent.mkWorld (groq := scripted_client) []
       [("add", [("a", VInt 5); ("b", VInt 3)])]).
Proof.
  destruct (process_tool_calls_missing_id (library := calls_library)
              (groq := scripted_client) add_agent "call without id" ["call"]
              (ToolAgent.mkWorld (groq := scripted_client) [] [])
              [("name", VStr "add");
               ("arguments", VDict [("a", VStr "5"); ("b", VInt 3)])]
              [("a", VStr "5"); ("b", VInt 3)] "add" add_signature
              (VDict [("name", VStr "add");
                      ("arguments", VDict [("a", VInt 5); ("b", VInt 3)])])
              (Tool.mk "add" add_function "add")
              eq_refl eq_refl eq_refl)
    as (kwargs & Hkw & _ & Hrun).
  - cbn. repeat constructor; cbn; intuition discriminate.
  - reflexivity.
  - reflexivity.
  - reflexivity.
  - reflexivity.
  - injection Hkw as <-. apply (Hrun (VInt 8)). reflexivity.
Defined.
